(** * The job-execution core of [core/executor.py]

    A shallow embedding of the [Executor] base class and of
    [run_executors_in_parallel], followed by the properties of the
    per-asset pipeline: cache short-circuit, path validation, workfile
    set-up and teardown, log teardown, lock assignment and result order.

    The source is Python 2 ([map] returns a list, [str] is a byte string).
    Code that raises is modelled with an explicit outcome; code that touches
    the file system, the result store or the process table threads a
    [World] that also records the calls made, in order. *)

From Stdlib Require Import ZArith Ascii.
From stdpp Require Import base strings gmap list pretty.

Open Scope Z_scope.
Open Scope string_scope.
Open Scope list_scope.

(** ** Data *)

(** [core.asset.Asset] is only used here through its attributes.  The
    attributes read by [executor.py] are the fields below; [asset_str] is
    [str(asset)], and [asset_dict] is the dictionary the asset was built from
    (only its keys are looked at by this file). *)
Record Asset := {
  ref_path : string;
  dis_path : string;
  workdir : string;
  ref_width_height : option (Z * Z);
  dis_width_height : option (Z * Z);
  quality_width_height : option (Z * Z);
  crop_cmd : option string;
  pad_cmd : option string;
  yuv_type : string;
  resampling_type : string;
  asset_dict : gmap string string;
  use_path_as_workpath : bool;
  ref_workfile : string;
  dis_workfile : string;
  asset_str : string
}.

(** Modelled from the spec: the properties [Asset.ref_workfile_path] and
    [Asset.dis_workfile_path] are missing from the sources at hand.  When the
    source is used as workfile "all downstream steps operate directly on the
    source paths"; otherwise the asset names a transient file of its own. *)
Definition ref_workfile_path (asset : Asset) : string :=
  if use_path_as_workpath asset then ref_path asset else ref_workfile asset.

Definition dis_workfile_path (asset : Asset) : string :=
  if use_path_as_workpath asset then dis_path asset else dis_workfile asset.

(** The attribute assignment [asset.use_path_as_workpath = b]. *)
Definition set_use_path_as_workpath (b : bool) (asset : Asset) : Asset :=
  {| ref_path := ref_path asset;
     dis_path := dis_path asset;
     workdir := workdir asset;
     ref_width_height := ref_width_height asset;
     dis_width_height := dis_width_height asset;
     quality_width_height := quality_width_height asset;
     crop_cmd := crop_cmd asset;
     pad_cmd := pad_cmd asset;
     yuv_type := yuv_type asset;
     resampling_type := resampling_type asset;
     asset_dict := asset_dict asset;
     use_path_as_workpath := b;
     ref_workfile := ref_workfile asset;
     dis_workfile := dis_workfile asset;
     asset_str := asset_str asset |}.

(** A [Result] is opaque to the executor: it is addressed by the identity of
    its asset and of the executor that produced it. *)
Record Result := {
  result_asset : string;
  result_executor_id : string;
  result_dict : list (string * string)
}.

(** The exceptions that this file raises or lets through. *)
Inductive Error :=
| AssertionError (msg : string)
| RuntimeError (msg : string)
| KeyError (key : string)
| TypeError (msg : string)
| OSError (errno : Z)
| IndexError (msg : string)
| CollaboratorError (msg : string).

Inductive outcome (A : Type) :=
| Ok (a : A)
| Raise (e : Error).
Arguments Ok {A} a.
Arguments Raise {A} e.

(** Which side of the pair a child process prepares. *)
Inductive Side := RefSide | DisSide.

(** The calls that leave this file, in the order they are made. *)
Inductive Event :=
| EvLoggerInfo (msg : string)
| EvStoreLoad (asset executor_id : string)
| EvStoreSave (r : Result)
| EvStoreDelete (asset executor_id : string)
| EvPathExists (p : string) (answer : bool)
| EvRemove (p : string)
| EvRmdir (d : string)
| EvMkfifo (p : string)
| EvMakeParentDirs (p : string)
| EvOpenWrite (p : string) (content : string)
| EvSubprocessCall (cmd : string)
| EvProcessStart (side : Side) (a : Asset)
| EvSleep (milliseconds : Z)
| EvGenerateResult (a : Asset)
| EvReadResult (a : Asset)
| EvNewLock (l : nat)
| EvAcquire (l : nat)
| EvRelease (l : nat).

#[global] Instance Asset_eq_dec : EqDecision Asset.
Proof. solve_decision. Defined.
#[global] Instance Result_eq_dec : EqDecision Result.
Proof. solve_decision. Defined.
#[global] Instance Error_eq_dec : EqDecision Error.
Proof. solve_decision. Defined.
#[global] Instance Side_eq_dec : EqDecision Side.
Proof. solve_decision. Defined.
#[global] Instance Event_eq_dec : EqDecision Event.
Proof. solve_decision. Defined.

(** The state around the executor: the paths that exist, the named pipes that
    child processes are about to create (with the number of sleeps that still
    separate each one from its creation), the content of the result store, the
    next lock handle, and the trace of calls made so far (latest last). *)
Record World := {
  fs : gset string;
  pending : list (nat * string);
  store : gmap (string * string) Result;
  next_lock : nat;
  trace : list Event
}.

Definition with_fs (f : gset string) (w : World) : World :=
  {| fs := f; pending := pending w; store := store w;
     next_lock := next_lock w; trace := trace w |}.

Definition with_pending (p : list (nat * string)) (w : World) : World :=
  {| fs := fs w; pending := p; store := store w;
     next_lock := next_lock w; trace := trace w |}.

Definition with_store (s : gmap (string * string) Result) (w : World) : World :=
  {| fs := fs w; pending := pending w; store := s;
     next_lock := next_lock w; trace := trace w |}.

Definition with_next_lock (n : nat) (w : World) : World :=
  {| fs := fs w; pending := pending w; store := store w;
     next_lock := n; trace := trace w |}.

Definition with_trace (t : list Event) (w : World) : World :=
  {| fs := fs w; pending := pending w; store := store w;
     next_lock := next_lock w; trace := t |}.

(** ** The monad of the embedding

    A Python statement either completes or raises; in both cases the world it
    has changed stays changed. *)
Definition M (A : Type) : Type := World -> outcome A * World.

Definition ret {A} (a : A) : M A := fun w => (Ok a, w).

Definition bind {A B} (m : M A) (k : A -> M B) : M B :=
  fun w =>
    match m w with
    | (Ok a, w') => k a w'
    | (Raise e, w') => (Raise e, w')
    end.

Definition raise {A} (e : Error) : M A := fun w => (Raise e, w).

Definition emit (e : Event) : M unit :=
  fun w => (Ok tt, with_trace (trace w ++ [e]) w).

(** [try: m except OSError as e: handler(e.errno)] *)
Definition try_except_OSError {A} (m : M A) (handler : Z -> M A) : M A :=
  fun w =>
    match m w with
    | (Raise (OSError errno), w') => handler errno w'
    | r => r
    end.

Declare Scope exec_scope.
Delimit Scope exec_scope with exec.
Notation "x <- m ;; k" := (bind m (fun x => k))
  (at level 100, m at next level, k at level 200, right associativity)
  : exec_scope.
Notation "m ;; k" := (bind m (fun _ => k))
  (at level 100, k at level 200, right associativity) : exec_scope.
Open Scope exec_scope.

(** [assert cond, msg] *)
Definition assert_ (cond : bool) (msg : string) : M unit :=
  if cond then ret tt else raise (AssertionError msg).

(** [map(f, l)] of Python 2: the calls are made from left to right and the
    first exception ends the loop. *)
Fixpoint map_M {A B} (f : A -> M B) (l : list A) : M (list B) :=
  match l with
  | [] => ret []
  | a :: l' => b <- f a ;; bs <- map_M f l' ;; ret (b :: bs)
  end.

(** ** Collaborators

    What the file imports and does not define: [tools.misc], [config],
    [hashlib], [subprocess] and the parts of [os] whose result is decided by
    the platform. *)
Class Collaborators := {
  (** [tools.misc.get_dir_without_last_slash] *)
  get_dir_without_last_slash : string -> string;
  (** [config.get_and_assert_ffmpeg]: the path of ffmpeg ([inr]), or the
      message of the assertion that fails when it is not installed ([inl]) *)
  ffmpeg_or_message : string + string;
  (** [hashlib.sha1(s).hexdigest()] *)
  sha1_hexdigest : string -> string;
  (** the files left by [subprocess.call(cmd, shell=True)] *)
  shell_effect : string -> gset string -> gset string;
  (** the errno with which [os.rmdir] fails, if it does *)
  rmdir_errno : string -> gset string -> option Z;
  (** how many sleeps of the parent pass before the [mkfifo] of a started
      child process takes effect; [None] when it never does *)
  mkfifo_latency : Side -> Asset -> option nat
}.

(** The interface a concrete executor fills in: its type and version (through
    [core.mixin.TypeVersionEnabled]) and the two abstract methods
    [_generate_result] and [_read_result]; [_post_process_result] may be
    overridden (see [_post_process_result_default]). *)
Class ExecutorKind := {
  (** the message of the assertion of [TypeVersionEnabled.__init__] that
      fails, if one does *)
  type_version_complaint : option string;
  get_type_version_string : string;
  get_cozy_type_version_string : string;
  (** the exception of the external computation, if it raises, and the files
      it leaves *)
  generate_result_effect : Asset -> gset string -> option string * gset string;
  (** the exception of the log reader ([inl]) or the result it parses *)
  read_result_effect : Asset -> gset string -> string + Result;
  _post_process_result : Result -> Result
}.

(** [Executor._post_process_result]: "do nothing, wait to be overridden". *)
Definition _post_process_result_default (result : Result) : Result := result.

(** ** Primitives of the platform *)

Definition get_and_assert_ffmpeg `{Collaborators} : M string :=
  match ffmpeg_or_message with
  | inr path => ret path
  | inl msg => raise (AssertionError msg)
  end.

Definition TypeVersionEnabled_init `{ExecutorKind} : M unit :=
  match type_version_complaint with
  | None => ret tt
  | Some msg => raise (AssertionError msg)
  end.

Definition _generate_result `{ExecutorKind} (asset : Asset) : M unit :=
  fun w =>
    let r := generate_result_effect asset (fs w) in
    let w' := with_fs r.2 (with_trace (trace w ++ [EvGenerateResult asset]) w) in
    match r.1 with
    | None => (Ok tt, w')
    | Some msg => (Raise (CollaboratorError msg), w')
    end.

Definition _read_result `{ExecutorKind} (asset : Asset) : M Result :=
  fun w =>
    let w' := with_trace (trace w ++ [EvReadResult asset]) w in
    match read_result_effect asset (fs w) with
    | inr result => (Ok result, w')
    | inl msg => (Raise (CollaboratorError msg), w')
    end.

Definition os_path_exists (p : string) : M bool :=
  fun w =>
    let b := bool_decide (p ∈ fs w) in
    (Ok b, with_trace (trace w ++ [EvPathExists p b]) w).

(** [os.remove]: ENOENT when there is nothing to remove. *)
Definition os_remove (p : string) : M unit :=
  fun w =>
    let w' := with_trace (trace w ++ [EvRemove p]) w in
    if bool_decide (p ∈ fs w)
    then (Ok tt, with_fs (fs w ∖ {[p]}) w')
    else (Raise (OSError 2), w').

(** [os.mkfifo]: EEXIST when the path is taken. *)
Definition os_mkfifo (p : string) : M unit :=
  fun w =>
    let w' := with_trace (trace w ++ [EvMkfifo p]) w in
    if bool_decide (p ∈ fs w)
    then (Raise (OSError 17), w')
    else (Ok tt, with_fs ({[p]} ∪ fs w) w').

Definition os_rmdir `{Collaborators} (d : string) : M unit :=
  fun w =>
    let w' := with_trace (trace w ++ [EvRmdir d]) w in
    match rmdir_errno d (fs w) with
    | Some errno => (Raise (OSError errno), w')
    | None => (Ok tt, with_fs (fs w ∖ {[d]}) w')
    end.

(** [with open(p, 'wt') as f: f.write(content)] *)
Definition open_write (p content : string) : M unit :=
  fun w =>
    (Ok tt, with_fs ({[p]} ∪ fs w)
              (with_trace (trace w ++ [EvOpenWrite p content]) w)).

Definition subprocess_call `{Collaborators} (cmd : string) : M unit :=
  fun w =>
    (Ok tt, with_fs (shell_effect cmd (fs w))
              (with_trace (trace w ++ [EvSubprocessCall cmd]) w)).

(** Modelled from the spec: [tools.misc.make_parent_dirs_if_nonexist] is
    missing from the sources at hand; it must "ensure the log artifact's
    parent directory exists". *)
Definition make_parent_dirs_if_nonexist `{Collaborators} (p : string) : M unit :=
  fun w =>
    (Ok tt, with_fs ({[get_dir_without_last_slash p]} ∪ fs w)
              (with_trace (trace w ++ [EvMakeParentDirs p]) w)).

(** One step of the named pipes on their way: those that are due appear. *)
Definition advance_pending (w : World) : World :=
  let due := filter (fun np => np.1 = 0%nat) (pending w) in
  let later := filter (fun np => np.1 ≠ 0%nat) (pending w) in
  with_pending (map (fun np => (Nat.pred np.1, np.2)) later)
    (with_fs (list_to_set (map snd due) ∪ fs w) w).

(** [sleep(0.1)], in milliseconds; meanwhile the child processes run. *)
Definition sleep (milliseconds : Z) : M unit :=
  fun w =>
    (Ok tt, advance_pending (with_trace (trace w ++ [EvSleep milliseconds]) w)).

Definition logger_info (msg : string) : M unit := emit (EvLoggerInfo msg).

(** Modelled from the spec: the class of the result store is missing from the
    sources at hand.  Its contract is [load(assetIdentity, executorIdentity)
    -> Result | absent], [save(Result)] and [delete(assetIdentity,
    executorIdentity)]. *)
Definition result_store_load (asset : Asset) (executor_id : string)
  : M (option Result) :=
  fun w =>
    (Ok (store w !! (asset_str asset, executor_id)),
     with_trace (trace w ++ [EvStoreLoad (asset_str asset) executor_id]) w).

Definition result_store_save (result : Result) : M unit :=
  fun w =>
    (Ok tt,
     with_store (<[(result_asset result, result_executor_id result) := result]>
                   (store w))
       (with_trace (trace w ++ [EvStoreSave result]) w)).

Definition result_store_delete (asset : Asset) (executor_id : string) : M unit :=
  fun w =>
    (Ok tt,
     with_store (delete (asset_str asset, executor_id) (store w))
       (with_trace (trace w ++ [EvStoreDelete (asset_str asset) executor_id]) w)).

(** [multiprocessing.Lock()]: a handle that no earlier call returned.
    Blocking is not part of the model: the jobs of a run are executed one
    after the other, so [acquire] and [release] only leave their mark in the
    trace. *)
Definition multiprocessing_Lock : M nat :=
  fun w =>
    (Ok (next_lock w),
     with_next_lock (S (next_lock w))
       (with_trace (trace w ++ [EvNewLock (next_lock w)]) w)).

Definition lock_acquire (l : nat) : M unit := emit (EvAcquire l).
Definition lock_release (l : nat) : M unit := emit (EvRelease l).

(** ** Small pieces of Python *)

(** [sorted(keys)] on byte strings. *)
Fixpoint insert_sorted (k : string) (l : list string) : list string :=
  match l with
  | [] => [k]
  | k' :: l' => if String.leb k k' then k :: l else k' :: insert_sorted k l'
  end.

Definition sorted (l : list string) : list string :=
  foldr insert_sorted [] l.

(** The line feed of ["\n"]. *)
Definition newline : string := String (Ascii.ascii_of_nat 10) "".

(** [a, b = t] where [t] may be [None] *)
Definition unpack_pair (t : option (Z * Z)) : M (Z * Z) :=
  match t with
  | Some wh => ret wh
  | None => raise (TypeError "'NoneType' object is not iterable")
  end.

(** ** The executor *)

Record Executor := {
  assets : list Asset;
  logger : bool;
  fifo_mode : bool;
  delete_workdir : bool;
  results : list Result;
  result_store : bool;
  optional_dict : option (gmap string string);
  optional_dict2 : option (gmap string string)
}.

(** [self.results = rs] *)
Definition set_results (rs : list Result) (self : Executor) : Executor :=
  {| assets := assets self; logger := logger self;
     fifo_mode := fifo_mode self; delete_workdir := delete_workdir self;
     results := rs; result_store := result_store self;
     optional_dict := optional_dict self;
     optional_dict2 := optional_dict2 self |}.

(** [self.assets] holds the asset objects themselves: when a method assigns
    to an attribute of one of them, the executor sees it.  [l] is the list
    of these objects as the method leaves them. *)
Definition set_assets (l : list Asset) (self : Executor) : Executor :=
  {| assets := l; logger := logger self;
     fifo_mode := fifo_mode self; delete_workdir := delete_workdir self;
     results := results self; result_store := result_store self;
     optional_dict := optional_dict self;
     optional_dict2 := optional_dict2 self |}.

Section ExecutorMethods.
Context `{Collaborators}.
Context `{ExecutorKind}.

Definition executor_id (self : Executor) : string :=
  let executor_id_ := get_type_version_string in
  match optional_dict self with
  | Some d =>
      if bool_decide (0 < size d)%nat
      then executor_id_ +:+ "_" +:+
           String.concat "_"
             (map (fun k => k +:+ "_" +:+ default "" (d !! k))
                  (sorted (elements (dom d))))
      else executor_id_
  | None => executor_id_
  end.

Definition _assert_args (self : Executor) : M unit := ret tt.

Definition _assert_an_asset (asset : Asset) : M unit :=
  (if bool_decide (quality_width_height asset ≠ ref_width_height asset)
      || bool_decide (quality_width_height asset ≠ dis_width_height asset)
   then _ <- get_and_assert_ffmpeg ;; ret tt
   else ret tt) ;;
  (match crop_cmd asset with
   | Some _ =>
       assert_ (bool_decide ("quality_width" ∈ dom (asset_dict asset))
                && bool_decide ("quality_height" ∈ dom (asset_dict asset)))
         "If crop_cmd is specified, must also EXPLICITLY specify quality_width and quality_height."
   | None => ret tt
   end) ;;
  (match pad_cmd asset with
   | Some _ =>
       assert_ (bool_decide ("quality_width" ∈ dom (asset_dict asset))
                && bool_decide ("quality_height" ∈ dom (asset_dict asset)))
         "If pad_cmd is specified, must also EXPLICITLY specify quality_width and quality_height."
   | None => ret tt
   end).

Fixpoint _assert_assets_loop (l : list Asset) : M unit :=
  match l with
  | [] => ret tt
  | asset :: l' => _assert_an_asset asset ;; _assert_assets_loop l'
  end.

Definition _assert_assets (self : Executor) : M unit :=
  _assert_assets_loop (assets self).

(** [Executor.__init__] *)
Definition Executor_init (assets : list Asset) (logger : bool)
    (fifo_mode delete_workdir : bool) (result_store : bool)
    (optional_dict optional_dict2 : option (gmap string string))
  : M Executor :=
  TypeVersionEnabled_init ;;
  let self :=
    {| assets := assets; logger := logger; fifo_mode := fifo_mode;
       delete_workdir := delete_workdir; results := [];
       result_store := result_store; optional_dict := optional_dict;
       optional_dict2 := optional_dict2 |} in
  _assert_args self ;;
  _assert_assets self ;;
  ret self.

Definition workfiles_missing_message (asset : Asset) : string :=
  "ref or dis video workfile path " +:+ ref_workfile_path asset +:+
  " or " +:+ dis_workfile_path asset +:+ " is missing.".

(** The [for i in range(n): ... else: raise] of [_wait_for_workfiles]. *)
Fixpoint _wait_for_workfiles_loop (n : nat) (asset : Asset) : M unit :=
  match n with
  | O => raise (RuntimeError (workfiles_missing_message asset))
  | S n' =>
      ref_exists <- os_path_exists (ref_workfile_path asset) ;;
      both_exist <- (if ref_exists : bool
                     then os_path_exists (dis_workfile_path asset)
                     else ret false) ;;
      if both_exist : bool
      then ret tt
      else sleep 100 ;; _wait_for_workfiles_loop n' asset
  end.

Definition _wait_for_workfiles (asset : Asset) : M unit :=
  _wait_for_workfiles_loop 10 asset.

Definition _get_log_file_path (self : Executor) (asset : Asset) : string :=
  workdir asset +:+ "/" +:+ executor_id self +:+ "_" +:+
  sha1_hexdigest (asset_str asset).

Definition _prepare_log_file (self : Executor) (asset : Asset) : M unit :=
  let log_file_path := _get_log_file_path self asset in
  make_parent_dirs_if_nonexist log_file_path ;;
  open_write log_file_path
    (get_cozy_type_version_string +:+ newline +:+ newline).

Definition _assert_paths (asset : Asset) : M unit :=
  b1 <- os_path_exists (ref_path asset) ;;
  assert_ b1 ("Reference path " +:+ ref_path asset +:+ " does not exist.") ;;
  b2 <- os_path_exists (ref_path asset) ;;
  assert_ b2 ("Distorted path " +:+ dis_path asset +:+ " does not exist.").

Definition _set_asset_use_path_as_workpath (asset : Asset) : Asset :=
  if bool_decide (quality_width_height asset = ref_width_height asset)
     && bool_decide (quality_width_height asset = dis_width_height asset)
     && bool_decide (crop_cmd asset = None)
     && bool_decide (pad_cmd asset = None)
  then set_use_path_as_workpath true asset
  else asset.

Definition _get_src_fmt_cmd (asset : Asset) (height width : Z) : string :=
  "-f rawvideo -pix_fmt " +:+ yuv_type asset +:+ " -s " +:+
  pretty width +:+ "x" +:+ pretty height.

Definition _get_crop_cmd (asset : Asset) : string :=
  match crop_cmd asset with
  | Some c => "crop=" +:+ c +:+ ","
  | None => ""
  end.

Definition _get_pad_cmd (asset : Asset) : string :=
  match pad_cmd asset with
  | Some p => "pad2=" +:+ p +:+ ","
  | None => ""
  end.

(** The command line shared by [_open_ref_workfile] and
    [_open_dis_workfile]. *)
Definition ffmpeg_cmd_format (ffmpeg src_fmt_cmd src yuv_type crop_cmd pad_cmd
    : string) (width height : Z) (resampling_type dst : string) : string :=
  ffmpeg +:+ " " +:+ src_fmt_cmd +:+ " -i " +:+ src +:+ " -an -vsync 0 " +:+
  "-pix_fmt " +:+ yuv_type +:+ " -vf " +:+ crop_cmd +:+ pad_cmd +:+
  "scale=" +:+ pretty width +:+ "x" +:+ pretty height +:+ " -f rawvideo " +:+
  "-sws_flags " +:+ resampling_type +:+ " -y " +:+ dst.

Definition _open_ref_workfile (self : Executor) (asset : Asset)
    (fifo_mode : bool) : M unit :=
  assert_ (bool_decide (use_path_as_workpath asset = false)
           && bool_decide (ref_path asset ≠ ref_workfile_path asset)) "" ;;
  (if fifo_mode then os_mkfifo (ref_workfile_path asset) else ret tt) ;;
  qwh <- unpack_pair (quality_width_height asset) ;;
  wh <- unpack_pair (ref_width_height asset) ;;
  let src_fmt_cmd := _get_src_fmt_cmd asset wh.2 wh.1 in
  let crop_cmd := _get_crop_cmd asset in
  let pad_cmd := _get_pad_cmd asset in
  ffmpeg <- get_and_assert_ffmpeg ;;
  let ffmpeg_cmd :=
    ffmpeg_cmd_format ffmpeg src_fmt_cmd (ref_path asset) (yuv_type asset)
      crop_cmd pad_cmd qwh.1 qwh.2 (resampling_type asset)
      (ref_workfile_path asset) in
  (if logger self then logger_info ffmpeg_cmd else ret tt) ;;
  subprocess_call ffmpeg_cmd.

Definition _open_dis_workfile (self : Executor) (asset : Asset)
    (fifo_mode : bool) : M unit :=
  assert_ (bool_decide (use_path_as_workpath asset = false)
           && bool_decide (dis_path asset ≠ dis_workfile_path asset)) "" ;;
  (if fifo_mode then os_mkfifo (dis_workfile_path asset) else ret tt) ;;
  qwh <- unpack_pair (quality_width_height asset) ;;
  wh <- unpack_pair (dis_width_height asset) ;;
  let src_fmt_cmd := _get_src_fmt_cmd asset wh.2 wh.1 in
  let crop_cmd := _get_crop_cmd asset in
  let pad_cmd := _get_pad_cmd asset in
  ffmpeg <- get_and_assert_ffmpeg ;;
  let ffmpeg_cmd :=
    ffmpeg_cmd_format ffmpeg src_fmt_cmd (dis_path asset) (yuv_type asset)
      crop_cmd pad_cmd qwh.1 qwh.2 (resampling_type asset)
      (dis_workfile_path asset) in
  (if logger self then logger_info ffmpeg_cmd else ret tt) ;;
  subprocess_call ffmpeg_cmd.

Definition _close_ref_workfile (asset : Asset) : M unit :=
  assert_ (bool_decide (use_path_as_workpath asset = false)
           && bool_decide (ref_path asset ≠ ref_workfile_path asset)) "" ;;
  b <- os_path_exists (ref_workfile_path asset) ;;
  if b : bool then os_remove (ref_workfile_path asset) else ret tt.

Definition _close_dis_workfile (asset : Asset) : M unit :=
  assert_ (bool_decide (use_path_as_workpath asset = false)
           && bool_decide (dis_path asset ≠ dis_workfile_path asset)) "" ;;
  b <- os_path_exists (dis_workfile_path asset) ;;
  if b : bool then os_remove (dis_workfile_path asset) else ret tt.

Definition _remove_log (self : Executor) (asset : Asset) : M unit :=
  let log_file_path := _get_log_file_path self asset in
  b <- os_path_exists log_file_path ;;
  if b : bool then os_remove log_file_path else ret tt.

Definition _remove_result (self : Executor) (asset : Asset) : M unit :=
  if result_store self
  then result_store_delete asset (executor_id self)
  else ret tt.
End ExecutorMethods.

(** Modelled from the spec: [tools.misc.parallel_map] is missing from the
    sources at hand.  "The pool provides no ordering guarantee on completion;
    ordering is restored by the caller using the index of each submitted
    job."  [completion] lists the indices of the jobs in the order in which
    the pool completes them.  Each job is run in its turn on the world its
    predecessors left; a job that raises ends its worker and registers no
    result; the results are read back by index.  The workers are "OS-level
    parallel workers" with the isolation of a process: a job works on its
    own copy of its arguments, and only what it returns comes back. *)
Fixpoint parallel_map_workers {A B} (func : A -> M B) (list_args : list A)
    (completion : list nat) (return_dict : gmap nat B)
  : World -> gmap nat B * World :=
  fun w =>
    match completion with
    | [] => (return_dict, w)
    | idx :: rest =>
        match list_args !! idx with
        | None => parallel_map_workers func list_args rest return_dict w
        | Some args =>
            match func args w with
            | (Ok b, w') =>
                parallel_map_workers func list_args rest
                  (<[idx := b]> return_dict) w'
            | (Raise _, w') =>
                parallel_map_workers func list_args rest return_dict w'
            end
        end
    end.

Definition parallel_map {A B} (func : A -> M B) (list_args : list A)
    (completion : list nat) : M (list B) :=
  return_dict <- (fun w =>
                    let r := parallel_map_workers func list_args completion ∅ w in
                    (Ok r.1, r.2)) ;;
  map_M (fun idx : nat =>
           match return_dict !! idx with
           | Some b => ret b
           | None => raise (KeyError (pretty idx))
           end)
        (seq 0 (length list_args)).

(** The loop "create locks for unique assets (uniqueness is identified by
    str(asset))"; the same lines open the parallel branch of [Executor.run]
    and [run_executors_in_parallel]. *)
Fixpoint create_locks (l : list Asset) (map_asset_lock : gmap string nat)
    (locks : list nat) : M (gmap string nat * list nat) :=
  match l with
  | [] => ret (map_asset_lock, locks)
  | asset :: l' =>
      let asset_str := asset_str asset in
      map_asset_lock <-
        (if bool_decide (asset_str ∉ dom map_asset_lock)
         then lock <- multiprocessing_Lock ;;
              ret (<[asset_str := lock]> map_asset_lock)
         else ret map_asset_lock) ;;
      lock <- match map_asset_lock !! asset_str with
              | Some lock => ret lock
              | None => raise (KeyError asset_str)
              end ;;
      create_locks l' map_asset_lock (locks ++ [lock])
  end.

(** The arguments packed for one job of [run_executors_in_parallel]; the
    executor class is the [ExecutorKind] at hand. *)
Record JobArgs := {
  arg_asset : Asset;
  arg_fifo_mode : bool;
  arg_delete_workdir : bool;
  arg_result_store : bool;
  arg_optional_dict : option (gmap string string);
  arg_optional_dict2 : option (gmap string string);
  arg_lock : nat
}.

Section Running.
Context `{Collaborators}.
Context `{ExecutorKind}.

(** [multiprocessing.Process(target=self._open_ref_workfile,
    args=(asset, True)).start()], and the same for the distorted side.  The
    child runs the method in a process of its own: when its assertion
    fails it ends there, unseen by the parent; otherwise its [mkfifo] takes
    effect after [mkfifo_latency] sleeps of the parent, and the ffmpeg it
    then calls blocks on the pipe until the computation reads it. *)
Definition Process_start (side : Side) (asset : Asset) : M unit :=
  emit (EvProcessStart side asset) ;;
  let src := match side with
             | RefSide => ref_path asset
             | DisSide => dis_path asset
             end in
  let dst := match side with
             | RefSide => ref_workfile_path asset
             | DisSide => dis_workfile_path asset
             end in
  if bool_decide (use_path_as_workpath asset = false)
     && bool_decide (src ≠ dst)
  then match mkfifo_latency side asset with
       | None => ret tt
       | Some O => fun w => (Ok tt, with_fs ({[dst]} ∪ fs w) w)
       | Some (S n) =>
           fun w => (Ok tt, with_pending (pending w ++ [(n, dst)]) w)
       end
  else ret tt.

Definition _run_on_asset (self : Executor) (asset : Asset) : M Result :=
  result <- (if result_store self
             then result_store_load asset (executor_id self)
             else ret None) ;;
  result <-
    match result with
    | Some result =>
        (if logger self
         then logger_info (executor_id self +:+ " result exists. Skip " +:+
                           executor_id self +:+ " run.")
         else ret tt) ;;
        ret result
    | None =>
        (if logger self
         then logger_info (executor_id self +:+
                           " result does't exist. Perform " +:+
                           executor_id self +:+ " calculation.")
         else ret tt) ;;
        _assert_paths asset ;;
        let asset := _set_asset_use_path_as_workpath asset in
        (if use_path_as_workpath asset
         then ret tt
         else _close_ref_workfile asset ;; _close_dis_workfile asset) ;;
        let log_file_path := _get_log_file_path self asset in
        make_parent_dirs_if_nonexist log_file_path ;;
        (if use_path_as_workpath asset
         then ret tt
         else if fifo_mode self
              then Process_start RefSide asset ;;
                   Process_start DisSide asset ;;
                   _wait_for_workfiles asset
              else _open_ref_workfile self asset false ;;
                   _open_dis_workfile self asset false) ;;
        _prepare_log_file self asset ;;
        _generate_result asset ;;
        (if delete_workdir self
         then if use_path_as_workpath asset
              then ret tt
              else _close_ref_workfile asset ;; _close_dis_workfile asset
         else ret tt) ;;
        (* "Read {id} log file, get scores...".format(type=...) *)
        (if logger self then raise (KeyError "id") else ret tt) ;;
        result <- _read_result asset ;;
        (if result_store self then result_store_save result else ret tt) ;;
        (if delete_workdir self
         then _remove_log self asset ;;
              let log_file_path := _get_log_file_path self asset in
              let log_dir := get_dir_without_last_slash log_file_path in
              try_except_OSError (os_rmdir log_dir)
                (fun errno => if (errno =? 39)%Z then ret tt else ret tt)
         else ret tt) ;;
        ret result
    end ;;
  ret (_post_process_result result).

(** [_run_on_asset] again, this time with the asset object as the call
    leaves it.  The asset is passed by reference, and line 314
    ([_set_asset_use_path_as_workpath]) assigns to its attribute
    [use_path_as_workpath]: after the call the caller holds the asset of the
    last line, not the one it passed.  The calls made, the outcome and the
    world are those of [_run_on_asset]. *)
Definition _run_on_asset_in_place (self : Executor) (asset : Asset)
  : M (Result * Asset) :=
  result <- (if result_store self
             then result_store_load asset (executor_id self)
             else ret None) ;;
  result_and_asset <-
    match result with
    | Some result =>
        (if logger self
         then logger_info (executor_id self +:+ " result exists. Skip " +:+
                           executor_id self +:+ " run.")
         else ret tt) ;;
        ret (result, asset)
    | None =>
        (if logger self
         then logger_info (executor_id self +:+
                           " result does't exist. Perform " +:+
                           executor_id self +:+ " calculation.")
         else ret tt) ;;
        _assert_paths asset ;;
        let asset := _set_asset_use_path_as_workpath asset in
        (if use_path_as_workpath asset
         then ret tt
         else _close_ref_workfile asset ;; _close_dis_workfile asset) ;;
        let log_file_path := _get_log_file_path self asset in
        make_parent_dirs_if_nonexist log_file_path ;;
        (if use_path_as_workpath asset
         then ret tt
         else if fifo_mode self
              then Process_start RefSide asset ;;
                   Process_start DisSide asset ;;
                   _wait_for_workfiles asset
              else _open_ref_workfile self asset false ;;
                   _open_dis_workfile self asset false) ;;
        _prepare_log_file self asset ;;
        _generate_result asset ;;
        (if delete_workdir self
         then if use_path_as_workpath asset
              then ret tt
              else _close_ref_workfile asset ;; _close_dis_workfile asset
         else ret tt) ;;
        (* "Read {id} log file, get scores...".format(type=...) *)
        (if logger self then raise (KeyError "id") else ret tt) ;;
        result <- _read_result asset ;;
        (if result_store self then result_store_save result else ret tt) ;;
        (if delete_workdir self
         then _remove_log self asset ;;
              let log_file_path := _get_log_file_path self asset in
              let log_dir := get_dir_without_last_slash log_file_path in
              try_except_OSError (os_rmdir log_dir)
                (fun errno => if (errno =? 39)%Z then ret tt else ret tt)
         else ret tt) ;;
        ret (result, asset)
    end ;;
  ret (_post_process_result result_and_asset.1, result_and_asset.2).

(** Lines 87-101 of [Executor.run]: the locks and the packed arguments. *)
Definition Executor_run_list_args (self : Executor)
  : M (list (Asset * nat)) :=
  ml <- create_locks (assets self) ∅ [] ;;
  ret (zip (assets self) ml.2).

(** The closure [_run] of [Executor.run] (lines 103-108). *)
Definition _run (self : Executor) (asset_lock : Asset * nat) : M Result :=
  lock_acquire asset_lock.2 ;;
  result <- _run_on_asset self asset_lock.1 ;;
  lock_release asset_lock.2 ;;
  ret result.

(** [Executor.run(parallelize=...)]; the executor is returned as the call
    leaves it.  The results are stored in it.  Without [parallelize] the
    pipeline runs in this process on the asset objects that [self.assets]
    holds, so that the executor sees what the pipeline assigned to them (the
    entries of the list are taken to be distinct objects).  With
    [parallelize] the pipeline runs in the workers of the pool, on copies:
    the assets of the executor stay as they were. *)
Definition Executor_run (self : Executor) (parallelize : bool)
    (completion : list nat) : M Executor :=
  (if logger self
   then logger_info ("For each asset, if " +:+ executor_id self +:+
                     " result has not been generated, run and generate " +:+
                     executor_id self +:+ " result...")
   else ret tt) ;;
  if parallelize
  then
    list_args <- Executor_run_list_args self ;;
    rs <- parallel_map (_run self) list_args completion ;;
    ret (set_results rs self)
  else
    rs <- map_M (_run_on_asset_in_place self) (assets self) ;;
    ret (set_results rs.*1 (set_assets rs.*2 self)).

Definition remove_results (self : Executor) : M unit :=
  _ <- map_M (_remove_result self) (assets self) ;; ret tt.

(** Lines 472-486 of [run_executors_in_parallel]. *)
Definition run_executors_list_args (assets : list Asset)
    (fifo_mode delete_workdir : bool) (result_store : bool)
    (optional_dict optional_dict2 : option (gmap string string))
  : M (list JobArgs) :=
  ml <- create_locks assets ∅ [] ;;
  ret (map (fun al : Asset * nat =>
              {| arg_asset := al.1; arg_fifo_mode := fifo_mode;
                 arg_delete_workdir := delete_workdir;
                 arg_result_store := result_store;
                 arg_optional_dict := optional_dict;
                 arg_optional_dict2 := optional_dict2;
                 arg_lock := al.2 |})
           (zip assets ml.2)).

Definition run_executor (args : JobArgs) : M Executor :=
  lock_acquire (arg_lock args) ;;
  executor <- Executor_init [arg_asset args] false (arg_fifo_mode args)
                (arg_delete_workdir args) (arg_result_store args)
                (arg_optional_dict args) (arg_optional_dict2 args) ;;
  executor <- Executor_run executor false [] ;;
  lock_release (arg_lock args) ;;
  ret executor.

Definition run_executors_in_parallel (assets : list Asset)
    (fifo_mode delete_workdir parallelize logger : bool)
    (result_store : bool)
    (optional_dict optional_dict2 : option (gmap string string))
    (completion : list nat)
  : M (list Executor * list Result) :=
  _ <- Executor_init assets logger fifo_mode true result_store
         optional_dict optional_dict2 ;;
  list_args <- run_executors_list_args assets fifo_mode delete_workdir
                 result_store optional_dict optional_dict2 ;;
  executors <- (if parallelize
                then parallel_map run_executor list_args completion
                else map_M run_executor list_args) ;;
  results <- map_M (fun executor : Executor =>
                      match results executor with
                      | r :: _ => ret r
                      | [] => raise (IndexError "list index out of range")
                      end)
                   executors ;;
  ret (executors, results).
End Running.

(** ** A concrete platform and a concrete executor, for running the model *)

(** ["/".join(path.split("/")[:-1])] *)
Fixpoint dir_prefix (s : string) : option string :=
  match s with
  | EmptyString => None
  | String c s' =>
      match dir_prefix s' with
      | Some d => Some (String c d)
      | None => if Ascii.eqb c "/"%char then Some EmptyString else None
      end
  end.

Definition demo_collaborators (ffmpeg : string + string)
    (rmdir_result : option Z) (latency : Side -> option nat)
  : Collaborators :=
  {| get_dir_without_last_slash := fun p => default "" (dir_prefix p);
     ffmpeg_or_message := ffmpeg;
     sha1_hexdigest := fun s => "sha1-" +:+ s;
     shell_effect := fun cmd files => files;
     rmdir_errno := fun d files => rmdir_result;
     mkfifo_latency := fun side asset => latency side |}.

Definition demo_result (asset : Asset) : Result :=
  {| result_asset := asset_str asset;
     result_executor_id := "Demo_V0.1";
     result_dict := [("score", "1")] |}.

Definition demo_kind : ExecutorKind :=
  {| type_version_complaint := None;
     get_type_version_string := "Demo_V0.1";
     get_cozy_type_version_string := "Demo V0.1";
     generate_result_effect := fun asset files => (None, files);
     read_result_effect := fun asset files => inr (demo_result asset);
     _post_process_result := _post_process_result_default |}.

Definition demo_asset (name : string) (dims quality : Z * Z)
    (crop pad : option string) (keys : gmap string string) (flag : bool)
  : Asset :=
  {| ref_path := "/in/" +:+ name +:+ "_ref.yuv";
     dis_path := "/in/" +:+ name +:+ "_dis.yuv";
     workdir := "/work/" +:+ name;
     ref_width_height := Some dims;
     dis_width_height := Some dims;
     quality_width_height := Some quality;
     crop_cmd := crop;
     pad_cmd := pad;
     yuv_type := "yuv420p";
     resampling_type := "bicubic";
     asset_dict := keys;
     use_path_as_workpath := flag;
     ref_workfile := "/work/" +:+ name +:+ "/ref_wf";
     dis_workfile := "/work/" +:+ name +:+ "/dis_wf";
     asset_str := name |}.

Definition demo_executor (l : list Asset) (logger fifo delete store : bool)
  : Executor :=
  {| assets := l; logger := logger; fifo_mode := fifo;
     delete_workdir := delete; results := []; result_store := store;
     optional_dict := None; optional_dict2 := None |}.

Definition demo_world (files : list string)
    (cached : list (string * string * Result)) : World :=
  {| fs := list_to_set files; pending := [];
     store := list_to_map cached; next_lock := 0; trace := [] |}.

(** Assets and worlds used to run the model on concrete inputs. *)
Definition full_hd : Z * Z := (1920, 1080).
Definition hd : Z * Z := (1280, 720).

Definition asset_same_dims : Asset :=
  demo_asset "a" full_hd full_hd None None ∅ false.
Definition asset_rescaled : Asset :=
  demo_asset "b" full_hd hd None None ∅ false.

Definition linux (latency : Side -> option nat) : Collaborators :=
  demo_collaborators (inr "ffmpeg") None latency.

(** ** Predicates used in the statements *)

(** What a closer of workfiles must guarantee, for the source path [src] and
    the workfile path [wf] of its side: whatever the outcome, the only path
    that can disappear is the workfile path, and it then differs from the
    source path, which stays; the closer only completes for an asset with a
    workfile of its own; when the workfile is not there it removes nothing
    and completes; and closing again after a completed close changes no file
    and completes. *)
Definition closes_only_workfile (src wf : Asset -> string)
    (close : Asset -> M unit) : Prop :=
  forall (asset : Asset) (w : World),
    (forall p, p ∈ fs w -> p ∉ fs (close asset w).2 ->
               p = wf asset /\ wf asset <> src asset) /\
    (forall p, p ∈ fs (close asset w).2 -> p ∈ fs w) /\
    (src asset ∈ fs w -> src asset ∈ fs (close asset w).2) /\
    ((close asset w).1 = Ok tt ->
       use_path_as_workpath asset = false /\ src asset <> wf asset) /\
    (use_path_as_workpath asset = false -> src asset <> wf asset ->
       wf asset ∉ fs w ->
       close asset w =
         (Ok tt, with_trace (trace w ++ [EvPathExists (wf asset) false]) w)) /\
    ((close asset w).1 = Ok tt ->
       (close asset (close asset w).2).1 = Ok tt /\
       fs (close asset (close asset w).2).2 = fs (close asset w).2).

(** Every call added to the trace by [m] passes the test [P]. *)
Definition emits_only {A} (P : Event -> bool) (m : M A) : Prop :=
  forall w, exists evs,
    trace (m w).2 = trace w ++ evs /\ Forall (fun e => P e = true) evs.


(** The policy in the words of the specification: the target dimensions
    equal both source dimensions and neither crop nor pad is set. *)
Definition no_rescaling_needed (asset : Asset) : Prop :=
  quality_width_height asset = ref_width_height asset /\
  quality_width_height asset = dis_width_height asset /\
  crop_cmd asset = None /\
  pad_cmd asset = None.

(** The calls an executor may make for an asset that is used as its own
    workfile: no pipe, no transcoding command, no child process and no wait;
    the only file written or removed is the log file; the computation and the
    reader are handed this very asset. *)
Definition touches_no_workfile `{Collaborators} `{ExecutorKind}
    (self : Executor) (asset : Asset) (e : Event) : bool :=
  match e with
  | EvMkfifo _ | EvSubprocessCall _ | EvProcessStart _ _ | EvSleep _ => false
  | EvRemove p => bool_decide (p = _get_log_file_path self asset)
  | EvOpenWrite p _ => bool_decide (p = _get_log_file_path self asset)
  | EvPathExists p _ =>
      bool_decide (p = ref_path asset \/ p = _get_log_file_path self asset)
  | EvGenerateResult a => bool_decide (a = asset)
  | EvReadResult a => bool_decide (a = asset)
  | _ => true
  end.

(** An asset whose flag was set by its owner although its target dimensions
    differ from those of the sources. *)
Definition asset_preset : Asset :=
  demo_asset "c" full_hd hd None None ∅ true.

(** The files after [k] sleeps of the parent. *)
Definition fs_after (k : nat) (w : World) : gset string :=
  fs (Nat.iter k advance_pending w).

(** Both workfile paths exist among [files]. *)
Definition both_ready (asset : Asset) (files : gset string) : bool :=
  bool_decide (ref_workfile_path asset ∈ files)
  && bool_decide (dis_workfile_path asset ∈ files).

(** The tests of one polling attempt: the distorted path is only looked at
    when the reference path is there. *)
Definition poll_events (asset : Asset) (files : gset string) : list Event :=
  if bool_decide (ref_workfile_path asset ∈ files)
  then [EvPathExists (ref_workfile_path asset) true;
        EvPathExists (dis_workfile_path asset)
          (bool_decide (dis_workfile_path asset ∈ files))]
  else [EvPathExists (ref_workfile_path asset) false].

(** [k] attempts in a row, each followed by a sleep of 100 ms. *)
Fixpoint waiting_rounds (asset : Asset) (k : nat) (w : World) : list Event :=
  match k with
  | O => []
  | S k' =>
      poll_events asset (fs w) ++ [EvSleep 100] ++
      waiting_rounds asset k' (advance_pending w)
  end.

(** [sub] occurs in [s]. *)
Definition contains (s sub : string) : Prop :=
  exists pre post, s = pre +:+ sub +:+ post.

(** A world in which the pipes of [asset_rescaled] appear after one and after
    two sleeps, and one in which the second pipe never appears. *)
Definition world_pipes_on_their_way : World :=
  {| fs := ∅; pending := [(0%nat, "/work/b/ref_wf"); (1%nat, "/work/b/dis_wf")];
     store := ∅; next_lock := 0; trace := [] |}.

Definition world_pipe_missing : World :=
  {| fs := ∅; pending := [(0%nat, "/work/b/ref_wf")];
     store := ∅; next_lock := 0; trace := [] |}.

(** The target dimensions were given explicitly in the dictionary of the
    asset. *)
Definition quality_dimensions_explicit (asset : Asset) : Prop :=
  "quality_width" ∈ dom (asset_dict asset) /\
  "quality_height" ∈ dom (asset_dict asset).

(** An asset with a crop but without explicit target dimensions. *)
Definition asset_cropped_implicit : Asset :=
  demo_asset "d" full_hd hd (Some "288:162:144:81") None ∅ false.

(** A sound lock table: its handles were all handed out already, and no
    handle serves two identities. *)
Definition lock_table_ok (map_asset_lock : gmap string nat) (w : World) : Prop :=
  (forall s l, map_asset_lock !! s = Some l -> (l < next_lock w)%nat) /\
  (forall s1 s2 l, map_asset_lock !! s1 = Some l ->
                   map_asset_lock !! s2 = Some l -> s1 = s2).

(** Two jobs share their lock exactly when their assets have the same
    identity string. *)
Definition locks_follow_identity {J} (job_asset : J -> Asset)
    (job_lock : J -> nat) (list_args : list J) : Prop :=
  forall i j a b,
    list_args !! i = Some a -> list_args !! j = Some b ->
    (asset_str (job_asset a) = asset_str (job_asset b) <->
     job_lock a = job_lock b).

(** The asset [asset_same_dims] again, to be worked on in another directory:
    the identity string is the same. *)
Definition asset_same_dims_elsewhere : Asset :=
  {| ref_path := ref_path asset_same_dims;
     dis_path := dis_path asset_same_dims;
     workdir := "/elsewhere";
     ref_width_height := ref_width_height asset_same_dims;
     dis_width_height := dis_width_height asset_same_dims;
     quality_width_height := quality_width_height asset_same_dims;
     crop_cmd := None;
     pad_cmd := None;
     yuv_type := yuv_type asset_same_dims;
     resampling_type := resampling_type asset_same_dims;
     asset_dict := ∅;
     use_path_as_workpath := false;
     ref_workfile := "/elsewhere/ref_wf";
     dis_workfile := "/elsewhere/dis_wf";
     asset_str := asset_str asset_same_dims |}.

Definition three_assets : list Asset :=
  [asset_same_dims; asset_rescaled; asset_same_dims_elsewhere].



(** The executor that [run_executor] constructs for one asset. *)
Definition job_executor (asset : Asset) (fifo_mode delete_workdir : bool)
    (result_store : bool)
    (optional_dict optional_dict2 : option (gmap string string)) : Executor :=
  {| assets := [asset]; logger := false; fifo_mode := fifo_mode;
     delete_workdir := delete_workdir; results := [];
     result_store := result_store; optional_dict := optional_dict;
     optional_dict2 := optional_dict2 |}.

(** The world left by the jobs of indices [turns], run one after the other
    from [w]: a job changes the world whether it returns or raises, and an
    index without a job changes nothing. *)
Fixpoint world_after {A B} (func : A -> M B) (list_args : list A)
    (turns : list nat) (w : World) : World :=
  match turns with
  | [] => w
  | idx :: rest =>
      world_after func list_args rest
        match list_args !! idx with
        | Some args => (func args w).2
        | None => w
        end
  end.

(** The turn of the job [idx] in the order in which the jobs run. *)
Fixpoint turn_of (idx : nat) (order : list nat) : option nat :=
  match order with
  | [] => None
  | i :: rest => if decide (i = idx) then Some 0%nat else S <$> turn_of idx rest
  end.

(** The world in which the job [idx] runs, in the run that starts in [w] and
    gives the jobs their turn in the order [order]: the world that the jobs
    before it have left. *)
Definition world_of_job {A B} (func : A -> M B) (list_args : list A)
    (order : list nat) (w : World) (idx : nat) : option World :=
  (fun k => world_after func list_args (take k order) w) <$> turn_of idx order.

(** The order in which the jobs of a run get their turn: the order in which
    the pool completes them, and the order of the input without the pool. *)
Definition job_order (parallelize : bool) (completion : list nat) (n : nat)
  : list nat :=
  if parallelize then completion else seq 0 n.

(** The world in which a job runs its pipeline: the lock is acquired. *)
Definition lock_acquired (l : nat) (w : World) : World :=
  with_trace (trace w ++ [EvAcquire l]) w.

(** What the result store holds for [asset] under the executor [self], when
    there is a store. *)
Definition cached `{ExecutorKind} (self : Executor) (asset : Asset) (w : World)
  : option Result :=
  if result_store self
  then store w !! (asset_str asset, executor_id self)
  else None.

(** The asset object as the pipeline leaves it when it returns from the
    world [w]: untouched on a cache hit, and through
    [_set_asset_use_path_as_workpath] on a miss. *)
Definition asset_left `{ExecutorKind} (self : Executor) (asset : Asset)
    (w : World) : Asset :=
  match cached self asset w with
  | Some _ => asset
  | None => _set_asset_use_path_as_workpath asset
  end.


(** The arguments packed for the job of [asset]. *)
Definition job_args_of (fifo_mode delete_workdir result_store : bool)
    (optional_dict optional_dict2 : option (gmap string string))
    (asset : Asset) (args : JobArgs) : Prop :=
  args = {| arg_asset := asset; arg_fifo_mode := fifo_mode;
            arg_delete_workdir := delete_workdir;
            arg_result_store := result_store;
            arg_optional_dict := optional_dict;
            arg_optional_dict2 := optional_dict2;
            arg_lock := arg_lock args |}.

(** A world with the reference inputs of the three assets, and a platform on
    which every pipe appears after one sleep. *)
Definition world_with_inputs : World :=
  demo_world ["/in/a_ref.yuv"; "/in/a_dis.yuv"; "/in/b_ref.yuv"; "/in/b_dis.yuv"] [].

Definition linux_prompt : Collaborators := linux (fun _ => Some 1%nat).

(** Every call except [os.rmdir]. *)
Definition not_rmdir (e : Event) : bool :=
  match e with
  | EvRmdir _ => false
  | _ => true
  end.

(** [m] either completes, or raises after calls that all pass the test [P]:
    once a call that fails the test has been made, [m] completes. *)
Definition completes_after {A} (P : Event -> bool) (m : M A) : Prop :=
  forall w, exists evs,
    trace (m w).2 = trace w ++ evs /\
    (Forall (fun e => P e = true) evs \/ exists a, (m w).1 = Ok a).

(** [m] always completes. *)
Definition never_raises {A} (m : M A) : Prop :=
  forall w, exists a evs, (m w).1 = Ok a /\ trace (m w).2 = trace w ++ evs.

(** What [_assert_an_asset] asks of an asset: ffmpeg must be installed when
    the target dimensions differ from those of a source, and a crop or a pad
    needs explicit target dimensions. *)
Definition asset_acceptable `{Collaborators} (asset : Asset) : Prop :=
  (quality_width_height asset <> ref_width_height asset \/
   quality_width_height asset <> dis_width_height asset ->
   exists path, ffmpeg_or_message = inr path) /\
  (crop_cmd asset <> None \/ pad_cmd asset <> None ->
   quality_dimensions_explicit asset).



(** The two methods a concrete executor supplies, as they are called. *)
Inductive HookCall :=
| CallGenerate (a : Asset)
| CallRead (a : Asset).

Definition hook_call (e : Event) : option HookCall :=
  match e with
  | EvGenerateResult a => Some (CallGenerate a)
  | EvReadResult a => Some (CallRead a)
  | _ => None
  end.

Definition no_hook_call (e : Event) : bool :=
  match hook_call e with
  | Some _ => false
  | None => true
  end.

(** [m] calls the hooks [s], in this order, when it completes, and a prefix
    of [s] when it raises. *)
Definition calls_hooks {A} (s : list HookCall) (m : M A) : Prop :=
  forall w, exists evs,
    trace (m w).2 = trace w ++ evs /\
    match (m w).1 with
    | Ok _ => omap hook_call evs = s
    | Raise _ => omap hook_call evs `prefix_of` s
    end.

(** The removals the pipeline may make for an asset: its log file, and a
    workfile of an asset that does not work on its sources, where the
    workfile path differs from the source path of its side. *)
Definition removes_only_transient `{Collaborators} `{ExecutorKind}
    (self : Executor) (asset : Asset) (e : Event) : bool :=
  match e with
  | EvRemove p =>
      bool_decide
        (p = _get_log_file_path self asset \/
         (use_path_as_workpath asset = false /\
          ((p = ref_workfile_path asset /\ p <> ref_path asset) \/
           (p = dis_workfile_path asset /\ p <> dis_path asset))))
  | _ => true
  end.

(** Every call except those on locks. *)
Definition no_lock_call (e : Event) : bool :=
  match e with
  | EvNewLock _ | EvAcquire _ | EvRelease _ => false
  | _ => true
  end.

(** The job of [asset_same_dims] under the lock 7. *)
Definition job_same_dims : JobArgs :=
  {| arg_asset := asset_same_dims; arg_fifo_mode := true;
     arg_delete_workdir := true; arg_result_store := false;
     arg_optional_dict := None; arg_optional_dict2 := None;
     arg_lock := 7%nat |}.

(** When [m] completes, the files it leaves satisfy [Q]. *)
Definition ensures {A} (Q : gset string -> Prop) (m : M A) : Prop :=
  forall w a w', m w = (Ok a, w') -> Q (fs w').

(** When [m] completes, it has created no file. *)
Definition shrinks {A} (m : M A) : Prop :=
  forall w a w', m w = (Ok a, w') -> fs w' ⊆ fs w.

(** The calls made before the source paths are validated. *)
Definition before_validation (e : Event) : bool :=
  match e with
  | EvStoreLoad _ _ | EvLoggerInfo _ | EvPathExists _ _ => true
  | _ => false
  end.


(** * Properties *)

(** ** Reasoning about the monad *)

Lemma bind_ok {A B} (m : M A) (k : A -> M B) (w w' : World) (a : A) :
  m w = (Ok a, w') -> bind m k w = k a w'.
Proof. intros Hm. unfold bind. rewrite Hm. reflexivity. Qed.

Lemma bind_raise {A B} (m : M A) (k : A -> M B) (w w' : World) (e : Error) :
  m w = (Raise e, w') -> bind m k w = (Raise e, w').
Proof. intros Hm. unfold bind. rewrite Hm. reflexivity. Qed.

Lemma bind_inv_ok {A B} (m : M A) (k : A -> M B) (w w' : World) (b : B) :
  bind m k w = (Ok b, w') ->
  exists a w1, m w = (Ok a, w1) /\ k a w1 = (Ok b, w').
Proof.
  unfold bind. destruct (m w) as [[a|e] w1]; intros Hk.
  - exists a, w1. split; [reflexivity | exact Hk].
  - discriminate Hk.
Qed.

Lemma with_trace_twice (t1 t2 : list Event) (w : World) :
  with_trace t2 (with_trace t1 w) = with_trace t2 w.
Proof. reflexivity. Qed.

(** ** Cache hit *)

(** C1. When the result store holds a Result for the asset and the executor,
    [_run_on_asset] returns that Result through the post-processing hook, and
    the only calls it makes are the load itself and, with a logger, the
    message that the run is skipped: no path is tested, no workfile or log
    file is touched, nothing is generated, read or saved. *)
Theorem cache_hit_short_circuits `{Collaborators} `{ExecutorKind}
    (self : Executor) (asset : Asset) (w : World) (cached : Result) :
  result_store self = true ->
  store w !! (asset_str asset, executor_id self) = Some cached ->
  _run_on_asset self asset w =
    (Ok (_post_process_result cached),
     with_trace
       (trace w ++
        EvStoreLoad (asset_str asset) (executor_id self) ::
        (if logger self
         then [EvLoggerInfo (executor_id self +:+ " result exists. Skip " +:+
                             executor_id self +:+ " run.")]
         else []))
       w).
Proof.
  intros Hstore Hhit.
  unfold _run_on_asset. rewrite Hstore.
  erewrite bind_ok; last first.
  { unfold result_store_load. rewrite Hhit. reflexivity. }
  destruct (logger self); unfold bind, logger_info, emit, ret; simpl.
  - rewrite with_trace_twice, <- app_assoc. reflexivity.
  - reflexivity.
Qed.

Lemma cache_hit_short_circuits_witness :
  @_run_on_asset (linux (fun _ => None)) demo_kind
    (demo_executor [asset_rescaled] false true true true) asset_rescaled
    (demo_world [] [("b", "Demo_V0.1", demo_result asset_rescaled)])
  = (Ok (demo_result asset_rescaled),
     with_trace [EvStoreLoad "b" "Demo_V0.1"]
       (demo_world [] [("b", "Demo_V0.1", demo_result asset_rescaled)])).
Proof.
  apply (@cache_hit_short_circuits (linux (fun _ => None)) demo_kind
           (demo_executor [asset_rescaled] false true true true)
           asset_rescaled
           (demo_world [] [("b", "Demo_V0.1", demo_result asset_rescaled)])
           (demo_result asset_rescaled)).
  - reflexivity.
  - vm_compute. reflexivity.
Defined.

(** ** Path validation *)

(** A missing reference path is caught by the first assertion. *)
Lemma assert_paths_missing_ref (asset : Asset) (w : World) :
  ref_path asset ∉ fs w ->
  (_assert_paths asset w).1 =
    Raise (AssertionError
             ("Reference path " +:+ ref_path asset +:+ " does not exist.")).
Proof.
  intros Href. unfold _assert_paths, bind, os_path_exists.
  rewrite bool_decide_eq_false_2 by exact Href. reflexivity.
Qed.

(** C2. [_assert_paths] tests the reference path twice and the distorted path
    never: with the reference path in place it returns normally although the
    distorted path is missing. *)
Theorem assert_paths_ignores_dis_path (asset : Asset) (w : World) :
  ref_path asset ∈ fs w ->
  dis_path asset ∉ fs w ->
  (_assert_paths asset w).1 = Ok tt.
Proof.
  intros Href _. unfold _assert_paths, bind, os_path_exists.
  rewrite bool_decide_eq_true_2 by exact Href. simpl.
  rewrite bool_decide_eq_true_2 by exact Href. reflexivity.
Qed.

Lemma assert_paths_ignores_dis_path_witness :
  (_assert_paths asset_same_dims (demo_world ["/in/a_ref.yuv"] [])).1 = Ok tt.
Proof.
  apply (assert_paths_ignores_dis_path asset_same_dims
           (demo_world ["/in/a_ref.yuv"] [])).
  - vm_compute. reflexivity.
  - apply (bool_decide_eq_false_1
             (dis_path asset_same_dims ∈ fs (demo_world ["/in/a_ref.yuv"] []))).
    vm_compute. reflexivity.
Defined.

(** The whole pipeline then runs on the missing input: the computation is
    invoked and a Result comes back. *)
Example run_on_asset_without_dis_path :
  let r := @_run_on_asset (linux (fun _ => None)) demo_kind
             (demo_executor [asset_same_dims] false true true false)
             asset_same_dims (demo_world ["/in/a_ref.yuv"] []) in
  r.1 = Ok (demo_result asset_same_dims) /\
  EvGenerateResult (set_use_path_as_workpath true asset_same_dims) ∈ trace r.2.
Proof.
  split.
  - vm_compute. reflexivity.
  - apply (bool_decide_eq_true_1 _). vm_compute. reflexivity.
Qed.

(** ** Log teardown *)

(** The handler of [os.rmdir] passes in both branches of its errno test. *)
Lemma rmdir_handler_never_raises `{Collaborators} (d : string) (w : World) :
  (try_except_OSError (os_rmdir d)
     (fun errno => if (errno =? 39)%Z then ret tt else ret tt) w).1 = Ok tt.
Proof.
  unfold try_except_OSError, os_rmdir.
  destruct (rmdir_errno d (fs w)) as [errno|]; simpl; [|reflexivity].
  destruct (errno =? 39)%Z; reflexivity.
Qed.

(** Whatever the errno with which [os.rmdir] fails on the log directory
    (13, permission denied, as much as 39, directory not empty), this run
    returns its Result normally. *)
Example log_teardown_swallows_every_errno (errno : Z) :
  (@_run_on_asset (demo_collaborators (inr "ffmpeg") (Some errno) (fun _ => None))
     demo_kind (demo_executor [asset_same_dims] false true true false)
     asset_same_dims (demo_world ["/in/a_ref.yuv"; "/in/a_dis.yuv"] [])).1
  = Ok (demo_result asset_same_dims).
Proof.
  vm_compute.
  destruct errno as [|p|p]; try reflexivity.
  do 6 (destruct p as [p|p|]; try reflexivity).

Qed.

(** ** Workfile teardown *)

(** The three ways in which [_close_ref_workfile] can go. *)
Lemma close_ref_workfile_cases (asset : Asset) (w : World) :
  ((use_path_as_workpath asset = true \/
    ref_path asset = ref_workfile_path asset) /\
   _close_ref_workfile asset w = (Raise (AssertionError ""), w)) \/
  (use_path_as_workpath asset = false /\
   ref_path asset <> ref_workfile_path asset /\
   (ref_workfile_path asset ∉ fs w) /\
   _close_ref_workfile asset w =
     (Ok tt,
      with_trace (trace w ++ [EvPathExists (ref_workfile_path asset) false]) w)) \/
  (use_path_as_workpath asset = false /\
   ref_path asset <> ref_workfile_path asset /\
   ref_workfile_path asset ∈ fs w /\
   _close_ref_workfile asset w =
     (Ok tt,
      with_fs (fs w ∖ {[ref_workfile_path asset]})
        (with_trace (trace w ++ [EvPathExists (ref_workfile_path asset) true;
                                 EvRemove (ref_workfile_path asset)]) w))).
Proof.
  unfold _close_ref_workfile, bind, assert_, os_path_exists, os_remove.
  destruct (decide (use_path_as_workpath asset = false)) as [Hflag|Hflag].
  - destruct (decide (ref_path asset = ref_workfile_path asset)) as [Heq|Hne].
    + left. split; [right; exact Heq|].
      rewrite (bool_decide_eq_true_2 _ Hflag).
      rewrite (bool_decide_eq_false_2 (ref_path asset <> ref_workfile_path asset))
        by (intros Hn; exact (Hn Heq)).
      reflexivity.
    + right.
      rewrite (bool_decide_eq_true_2 _ Hflag), (bool_decide_eq_true_2 _ Hne).
      simpl.
      destruct (decide (ref_workfile_path asset ∈ fs w)) as [Hin|Hout].
      * right. rewrite (bool_decide_eq_true_2 _ Hin). simpl.
        rewrite (bool_decide_eq_true_2 _ Hin).
        repeat split; try assumption.
        unfold with_fs, with_trace. simpl. rewrite <- app_assoc. reflexivity.
      * left. rewrite (bool_decide_eq_false_2 _ Hout).
        repeat split; assumption.
  - left. split; [left; destruct (use_path_as_workpath asset); congruence|].
    rewrite (bool_decide_eq_false_2 _ Hflag). reflexivity.
Qed.

Lemma close_dis_workfile_cases (asset : Asset) (w : World) :
  ((use_path_as_workpath asset = true \/
    dis_path asset = dis_workfile_path asset) /\
   _close_dis_workfile asset w = (Raise (AssertionError ""), w)) \/
  (use_path_as_workpath asset = false /\
   dis_path asset <> dis_workfile_path asset /\
   (dis_workfile_path asset ∉ fs w) /\
   _close_dis_workfile asset w =
     (Ok tt,
      with_trace (trace w ++ [EvPathExists (dis_workfile_path asset) false]) w)) \/
  (use_path_as_workpath asset = false /\
   dis_path asset <> dis_workfile_path asset /\
   dis_workfile_path asset ∈ fs w /\
   _close_dis_workfile asset w =
     (Ok tt,
      with_fs (fs w ∖ {[dis_workfile_path asset]})
        (with_trace (trace w ++ [EvPathExists (dis_workfile_path asset) true;
                                 EvRemove (dis_workfile_path asset)]) w))).
Proof.
  unfold _close_dis_workfile, bind, assert_, os_path_exists, os_remove.
  destruct (decide (use_path_as_workpath asset = false)) as [Hflag|Hflag].
  - destruct (decide (dis_path asset = dis_workfile_path asset)) as [Heq|Hne].
    + left. split; [right; exact Heq|].
      rewrite (bool_decide_eq_true_2 _ Hflag).
      rewrite (bool_decide_eq_false_2 (dis_path asset <> dis_workfile_path asset))
        by (intros Hn; exact (Hn Heq)).
      reflexivity.
    + right.
      rewrite (bool_decide_eq_true_2 _ Hflag), (bool_decide_eq_true_2 _ Hne).
      simpl.
      destruct (decide (dis_workfile_path asset ∈ fs w)) as [Hin|Hout].
      * right. rewrite (bool_decide_eq_true_2 _ Hin). simpl.
        rewrite (bool_decide_eq_true_2 _ Hin).
        repeat split; try assumption.
        unfold with_fs, with_trace. simpl. rewrite <- app_assoc. reflexivity.
      * left. rewrite (bool_decide_eq_false_2 _ Hout).
        repeat split; assumption.
  - left. split; [left; destruct (use_path_as_workpath asset); congruence|].
    rewrite (bool_decide_eq_false_2 _ Hflag). reflexivity.
Qed.

(** Any closer that goes one of these three ways closes only its workfile. *)
Lemma closes_only_workfile_intro (src wf : Asset -> string)
    (close : Asset -> M unit) :
  (forall asset w,
     ((use_path_as_workpath asset = true \/ src asset = wf asset) /\
      close asset w = (Raise (AssertionError ""), w)) \/
     (use_path_as_workpath asset = false /\ src asset <> wf asset /\
      (wf asset ∉ fs w) /\
      close asset w =
        (Ok tt, with_trace (trace w ++ [EvPathExists (wf asset) false]) w)) \/
     (use_path_as_workpath asset = false /\ src asset <> wf asset /\
      wf asset ∈ fs w /\
      close asset w =
        (Ok tt,
         with_fs (fs w ∖ {[wf asset]})
           (with_trace (trace w ++ [EvPathExists (wf asset) true;
                                    EvRemove (wf asset)]) w)))) ->
  closes_only_workfile src wf close.
Proof.
  intros Hcases asset w.
  assert (Hnoop : forall w0, use_path_as_workpath asset = false ->
            src asset <> wf asset -> wf asset ∉ fs w0 ->
            close asset w0 =
              (Ok tt, with_trace (trace w0 ++ [EvPathExists (wf asset) false]) w0)).
  { intros w0 Hflag Hne Hout.
    destruct (Hcases asset w0)
      as [[[Ht|He] _]|[(_ & _ & _ & Hr')|(_ & _ & Hin & _)]].
    - congruence.
    - contradiction.
    - exact Hr'.
    - contradiction. }
  destruct (Hcases asset w)
    as [[Hbad Hr]|[(Hflag & Hne & Hout & Hr)|(Hflag & Hne & Hin & Hr)]].
  - rewrite Hr. simpl.
    repeat split; auto; try contradiction; try discriminate.
    intros Hflag Hne _. destruct Hbad; congruence.
  - rewrite Hr. simpl.
    assert (Hagain := Hnoop (with_trace (trace w ++ [EvPathExists (wf asset) false]) w)
                        Hflag Hne Hout).
    repeat split; auto; try contradiction; rewrite Hagain; reflexivity.
  - rewrite Hr. simpl.
    set (w1 := with_fs (fs w ∖ {[wf asset]})
                 (with_trace (trace w ++ [EvPathExists (wf asset) true;
                                          EvRemove (wf asset)]) w)).
    assert (Hgone : wf asset ∉ fs w1).
    { subst w1. simpl. intros Hd. apply elem_of_difference in Hd as [_ Hd].
      apply Hd, elem_of_singleton. reflexivity. }
    assert (Hagain := Hnoop w1 Hflag Hne Hgone).
    assert (Honly : forall p, p ∈ fs w -> p ∉ fs w ∖ {[wf asset]} -> p = wf asset).
    { intros p Hp Hq. destruct (decide (p = wf asset)) as [Heq|Hp']; [exact Heq|].
      exfalso. apply Hq. apply elem_of_difference. split; [exact Hp|].
      intros Hs. apply elem_of_singleton in Hs. contradiction. }
    repeat split; auto; try contradiction;
      try (rewrite Hagain; reflexivity).
    + intros p Hp. apply elem_of_difference in Hp as [Hp _]. exact Hp.
    + intros Hsrc. apply elem_of_difference. split; [exact Hsrc|].
      intros Hs. apply elem_of_singleton in Hs. contradiction.
Qed.

(** C4. [_close_ref_workfile] and [_close_dis_workfile] never delete a source
    path: each one removes at most the workfile path of its side, completes
    only when that path differs from the source path, removes nothing when the
    workfile is not there, and can be repeated without effect or error. *)
Theorem workfile_teardown_spares_sources :
  closes_only_workfile ref_path ref_workfile_path _close_ref_workfile /\
  closes_only_workfile dis_path dis_workfile_path _close_dis_workfile.
Proof.
  split; apply closes_only_workfile_intro; intros asset w.
  - exact (close_ref_workfile_cases asset w).
  - exact (close_dis_workfile_cases asset w).
Qed.

Lemma workfile_teardown_spares_sources_witness :
  "/in/b_ref.yuv" ∈
    fs (_close_ref_workfile asset_rescaled
          (demo_world ["/in/b_ref.yuv"; "/work/b/ref_wf"] [])).2.
Proof.
  apply (proj1 (proj2 (proj2
           (proj1 workfile_teardown_spares_sources asset_rescaled
              (demo_world ["/in/b_ref.yuv"; "/work/b/ref_wf"] []))))).
  apply (bool_decide_eq_true_1 _). vm_compute. reflexivity.
Defined.

(** On that world the workfile goes and the source stays. *)
Example close_ref_workfile_run :
  elements (fs (_close_ref_workfile asset_rescaled
                  (demo_world ["/in/b_ref.yuv"; "/work/b/ref_wf"] [])).2)
  = ["/in/b_ref.yuv"].
Proof. vm_compute. reflexivity. Qed.

(** ** Which calls a computation can make, and which errors it can raise *)

Lemma emits_nothing {A} (P : Event -> bool) (m : M A) :
  (forall w, trace (m w).2 = trace w) -> emits_only P m.
Proof.
  intros Hm w. exists []. rewrite Hm, app_nil_r. split; [reflexivity|constructor].
Qed.

Lemma emits_one {A} (P : Event -> bool) (m : M A) (e : Event) :
  (forall w, trace (m w).2 = trace w ++ [e]) -> P e = true -> emits_only P m.
Proof.
  intros Hm HP w. exists [e]. split; [apply Hm|]. constructor; [exact HP|constructor].
Qed.

Lemma emits_ret {A} (P : Event -> bool) (a : A) : emits_only P (ret a).
Proof. apply emits_nothing. reflexivity. Qed.

Lemma emits_raise {A} (P : Event -> bool) (e : Error) :
  emits_only P (raise e : M A).
Proof. apply emits_nothing. reflexivity. Qed.

Lemma emits_bind {A B} (P : Event -> bool) (m : M A) (k : A -> M B) :
  emits_only P m -> (forall a, emits_only P (k a)) -> emits_only P (bind m k).
Proof.
  intros Hm Hk w. unfold bind.
  destruct (Hm w) as (evs1 & Ht1 & Hp1).
  destruct (m w) as [[a|e] w1]; simpl in *.
  - destruct (Hk a w1) as (evs2 & Ht2 & Hp2).
    exists (evs1 ++ evs2). split.
    + rewrite Ht2, Ht1, app_assoc. reflexivity.
    + apply Forall_app. split; assumption.
  - exists evs1. split; assumption.
Qed.

Lemma emits_try_except_OSError {A} (P : Event -> bool) (m : M A)
    (handler : Z -> M A) :
  emits_only P m -> (forall errno, emits_only P (handler errno)) ->
  emits_only P (try_except_OSError m handler).
Proof.
  intros Hm Hh w. unfold try_except_OSError.
  destruct (Hm w) as (evs1 & Ht1 & Hp1).
  destruct (m w) as [[a|e] w1]; simpl in *.
  - exists evs1. split; assumption.
  - destruct e; try (exists evs1; split; assumption).
    destruct (Hh errno w1) as (evs2 & Ht2 & Hp2).
    exists (evs1 ++ evs2). split.
    + rewrite Ht2, Ht1, app_assoc. reflexivity.
    + apply Forall_app. split; assumption.
Qed.

Lemma emits_assert (P : Event -> bool) (cond : bool) (msg : string) :
  emits_only P (assert_ cond msg).
Proof. destruct cond; [apply emits_ret|apply emits_raise]. Qed.

Lemma emits_emit (P : Event -> bool) (e : Event) :
  P e = true -> emits_only P (emit e).
Proof. apply emits_one. reflexivity. Qed.

Lemma emits_os_path_exists (P : Event -> bool) (p : string) :
  (forall b, P (EvPathExists p b) = true) -> emits_only P (os_path_exists p).
Proof.
  intros HP w. exists [EvPathExists p (bool_decide (p ∈ fs w))].
  split; [reflexivity|]. constructor; [apply HP|constructor].
Qed.

Lemma emits_os_remove (P : Event -> bool) (p : string) :
  P (EvRemove p) = true -> emits_only P (os_remove p).
Proof.
  intros HP w. exists [EvRemove p]. unfold os_remove.
  split; [destruct (bool_decide (p ∈ fs w)); reflexivity|].
  constructor; [exact HP|constructor].
Qed.

Lemma emits_os_mkfifo (P : Event -> bool) (p : string) :
  P (EvMkfifo p) = true -> emits_only P (os_mkfifo p).
Proof.
  intros HP w. exists [EvMkfifo p]. unfold os_mkfifo.
  split; [destruct (bool_decide (p ∈ fs w)); reflexivity|].
  constructor; [exact HP|constructor].
Qed.

Lemma emits_os_rmdir `{Collaborators} (P : Event -> bool) (d : string) :
  P (EvRmdir d) = true -> emits_only P (os_rmdir d).
Proof.
  intros HP w. exists [EvRmdir d]. unfold os_rmdir.
  split; [destruct (rmdir_errno d (fs w)); reflexivity|].
  constructor; [exact HP|constructor].
Qed.

Lemma emits_open_write (P : Event -> bool) (p content : string) :
  P (EvOpenWrite p content) = true -> emits_only P (open_write p content).
Proof. apply emits_one. reflexivity. Qed.

Lemma emits_subprocess_call `{Collaborators} (P : Event -> bool) (cmd : string) :
  P (EvSubprocessCall cmd) = true -> emits_only P (subprocess_call cmd).
Proof. apply emits_one. reflexivity. Qed.

Lemma emits_make_parent_dirs `{Collaborators} (P : Event -> bool) (p : string) :
  P (EvMakeParentDirs p) = true -> emits_only P (make_parent_dirs_if_nonexist p).
Proof. apply emits_one. reflexivity. Qed.

Lemma emits_sleep (P : Event -> bool) (ms : Z) :
  P (EvSleep ms) = true -> emits_only P (sleep ms).
Proof. apply emits_one. reflexivity. Qed.

Lemma emits_logger_info (P : Event -> bool) (msg : string) :
  P (EvLoggerInfo msg) = true -> emits_only P (logger_info msg).
Proof. apply emits_emit. Qed.

Lemma emits_result_store_load (P : Event -> bool) (asset : Asset)
    (executor_id : string) :
  P (EvStoreLoad (asset_str asset) executor_id) = true ->
  emits_only P (result_store_load asset executor_id).
Proof. apply emits_one. reflexivity. Qed.

Lemma emits_result_store_save (P : Event -> bool) (result : Result) :
  P (EvStoreSave result) = true -> emits_only P (result_store_save result).
Proof. apply emits_one. reflexivity. Qed.

Lemma emits_generate_result `{ExecutorKind} (P : Event -> bool) (asset : Asset) :
  P (EvGenerateResult asset) = true -> emits_only P (_generate_result asset).
Proof.
  intros HP w. exists [EvGenerateResult asset]. unfold _generate_result.
  split; [destruct (generate_result_effect asset (fs w)).1; reflexivity|].
  constructor; [exact HP|constructor].
Qed.

Lemma emits_read_result `{ExecutorKind} (P : Event -> bool) (asset : Asset) :
  P (EvReadResult asset) = true -> emits_only P (_read_result asset).
Proof.
  intros HP w. exists [EvReadResult asset]. unfold _read_result.
  split; [destruct (read_result_effect asset (fs w)); reflexivity|].
  constructor; [exact HP|constructor].
Qed.

Lemma emits_get_and_assert_ffmpeg `{Collaborators} (P : Event -> bool) :
  emits_only P get_and_assert_ffmpeg.
Proof.
  unfold get_and_assert_ffmpeg.
  destruct ffmpeg_or_message; [apply emits_raise|apply emits_ret].
Qed.

Lemma emits_unpack_pair (P : Event -> bool) (t : option (Z * Z)) :
  emits_only P (unpack_pair t).
Proof. destruct t; [apply emits_ret|apply emits_raise]. Qed.

Lemma emits_Process_start `{Collaborators} (P : Event -> bool) (side : Side)
    (asset : Asset) :
  P (EvProcessStart side asset) = true ->
  emits_only P (Process_start side asset).
Proof.
  intros HP. unfold Process_start.
  apply emits_bind; [apply emits_emit; exact HP|intros _].
  destruct (bool_decide (use_path_as_workpath asset = false) && _);
    [|apply emits_ret].
  destruct (mkfifo_latency side asset) as [[|n]|];
    [apply emits_nothing; reflexivity|apply emits_nothing; reflexivity|
     apply emits_ret].
Qed.

Lemma emits_wait_for_workfiles (P : Event -> bool) (asset : Asset) :
  (forall p b, P (EvPathExists p b) = true) ->
  P (EvSleep 100) = true ->
  emits_only P (_wait_for_workfiles asset).
Proof.
  intros Hpoll Hsleep. unfold _wait_for_workfiles.
  generalize 10%nat. intros n.
  induction n as [|n IH]; cbn [_wait_for_workfiles_loop].
  - apply emits_raise.
  - apply emits_bind; [apply emits_os_path_exists; apply Hpoll|intros r].
    apply emits_bind.
    + destruct r; [apply emits_os_path_exists; apply Hpoll|apply emits_ret].
    + intros [|]; [apply emits_ret|].
      apply emits_bind; [apply emits_sleep; exact Hsleep|intros _; exact IH].
Qed.

(** One step of the analysis of a computation, by its head. *)
Ltac emits_step :=
  lazymatch goal with
  | |- emits_only _ (bind _ _) => apply emits_bind; [|intros ?]
  | |- emits_only _ (ret _) => apply emits_ret
  | |- emits_only _ (raise _) => apply emits_raise
  | |- emits_only _ (assert_ _ _) => apply emits_assert
  | |- emits_only _ (try_except_OSError _ _) =>
      apply emits_try_except_OSError; [|intros ?]
  | |- emits_only _ (emit _) => apply emits_emit
  | |- emits_only _ (logger_info _) => apply emits_logger_info
  | |- emits_only _ (os_path_exists _) => apply emits_os_path_exists; intros ?
  | |- emits_only _ (os_remove _) => apply emits_os_remove
  | |- emits_only _ (os_mkfifo _) => apply emits_os_mkfifo
  | |- emits_only _ (os_rmdir _) => apply emits_os_rmdir
  | |- emits_only _ (open_write _ _) => apply emits_open_write
  | |- emits_only _ (subprocess_call _) => apply emits_subprocess_call
  | |- emits_only _ (make_parent_dirs_if_nonexist _) =>
      apply emits_make_parent_dirs
  | |- emits_only _ (sleep _) => apply emits_sleep
  | |- emits_only _ (result_store_load _ _) => apply emits_result_store_load
  | |- emits_only _ (result_store_save _) => apply emits_result_store_save
  | |- emits_only _ (_generate_result _) => apply emits_generate_result
  | |- emits_only _ (_read_result _) => apply emits_read_result
  | |- emits_only _ get_and_assert_ffmpeg => apply emits_get_and_assert_ffmpeg
  | |- emits_only _ (unpack_pair _) => apply emits_unpack_pair
  | |- emits_only _ (Process_start _ _) => apply emits_Process_start
  | |- emits_only _ (_wait_for_workfiles _) =>
      apply emits_wait_for_workfiles; [intros ? ?|]
  | |- emits_only _ (if ?b then _ else _) => destruct b eqn:?
  | |- emits_only _ (match ?x with _ => _ end) => destruct x eqn:?
  end.

(** ** The policy for working on the source paths *)

Lemma set_asset_use_path_as_workpath_cases (asset : Asset) :
  (no_rescaling_needed asset /\
   _set_asset_use_path_as_workpath asset = set_use_path_as_workpath true asset) \/
  (~ no_rescaling_needed asset /\
   _set_asset_use_path_as_workpath asset = asset).
Proof.
  unfold _set_asset_use_path_as_workpath, no_rescaling_needed.
  destruct (decide (quality_width_height asset = ref_width_height asset)) as [H1|H1];
  destruct (decide (quality_width_height asset = dis_width_height asset)) as [H2|H2];
  destruct (decide (crop_cmd asset = None)) as [H3|H3];
  destruct (decide (pad_cmd asset = None)) as [H4|H4];
  try (right; split; [tauto|];
       try rewrite (bool_decide_eq_false_2 _ H1);
       try rewrite (bool_decide_eq_false_2 _ H2);
       try rewrite (bool_decide_eq_false_2 _ H3);
       try rewrite (bool_decide_eq_false_2 _ H4);
       rewrite ?andb_false_r; reflexivity).
  left. split; [tauto|].
  rewrite (bool_decide_eq_true_2 _ H1), (bool_decide_eq_true_2 _ H2),
    (bool_decide_eq_true_2 _ H3), (bool_decide_eq_true_2 _ H4).
  reflexivity.
Qed.

(** The flag is only ever raised: after the call it is set exactly when it
    was set before or the policy holds. *)
Lemma set_asset_use_path_as_workpath_flag (asset : Asset) :
  use_path_as_workpath (_set_asset_use_path_as_workpath asset) = true <->
  use_path_as_workpath asset = true \/ no_rescaling_needed asset.
Proof.
  destruct (set_asset_use_path_as_workpath_cases asset) as [[Hp ->]|[Hn ->]];
    simpl; tauto.
Qed.

(** C5 as stated fails: a flag that is already set stays set although the
    target dimensions differ from the source dimensions. *)
Lemma preset_flag_survives :
  ~ (use_path_as_workpath (_set_asset_use_path_as_workpath asset_preset) = true
     <-> no_rescaling_needed asset_preset).
Proof.
  intros [Hto _].
  destruct (Hto eq_refl) as [Hdims _].
  vm_compute in Hdims. discriminate Hdims.
Qed.

Lemma set_asset_use_path_as_workpath_ref_path (asset : Asset) :
  ref_path (_set_asset_use_path_as_workpath asset) = ref_path asset.
Proof.
  destruct (set_asset_use_path_as_workpath_cases asset) as [[_ ->]|[_ ->]];
    reflexivity.
Qed.

(** With the flag set after [_set_asset_use_path_as_workpath], the pipeline
    touches no workfile. *)
Lemma run_on_asset_touches_no_workfile `{Collaborators} `{ExecutorKind}
    (self : Executor) (asset : Asset) :
  use_path_as_workpath (_set_asset_use_path_as_workpath asset) = true ->
  emits_only
    (touches_no_workfile self (_set_asset_use_path_as_workpath asset))
    (_run_on_asset self asset).
Proof.
  intros Hflag.
  assert (Href := set_asset_use_path_as_workpath_ref_path asset).
  unfold _run_on_asset, _assert_paths, _prepare_log_file, _remove_log.
  cbv zeta. rewrite Hflag.
  set (asset' := _set_asset_use_path_as_workpath asset) in *.
  repeat emits_step;
    simpl; try reflexivity;
    try (apply bool_decide_eq_true_2; auto; fail).
Qed.

(** C5, amended. After [_set_asset_use_path_as_workpath] the flag is set
    exactly when it was already set or the target dimensions equal both source
    dimensions with neither crop nor pad; for an asset that comes with the flag
    unset this is the policy itself.  When the flag is set the workfile paths
    are the source paths, and [_run_on_asset] creates and deletes no workfile:
    no pipe, no transcoding command, no child process, no wait, and the
    computation is handed the asset that points at the sources. *)
Theorem use_path_as_workpath_policy `{Collaborators} `{ExecutorKind}
    (self : Executor) (asset : Asset) :
  (use_path_as_workpath (_set_asset_use_path_as_workpath asset) = true <->
   use_path_as_workpath asset = true \/ no_rescaling_needed asset) /\
  (use_path_as_workpath asset = false ->
   (use_path_as_workpath (_set_asset_use_path_as_workpath asset) = true <->
    no_rescaling_needed asset)) /\
  (use_path_as_workpath (_set_asset_use_path_as_workpath asset) = true ->
   ref_workfile_path (_set_asset_use_path_as_workpath asset) = ref_path asset /\
   dis_workfile_path (_set_asset_use_path_as_workpath asset) = dis_path asset /\
   emits_only
     (touches_no_workfile self (_set_asset_use_path_as_workpath asset))
     (_run_on_asset self asset)).
Proof.
  split; [apply set_asset_use_path_as_workpath_flag|]. split.
  - intros Hunset. rewrite set_asset_use_path_as_workpath_flag.
    rewrite Hunset. split; [intros [Habs|Hp]; [discriminate Habs|exact Hp]|].
    intros Hp. right. exact Hp.
  - intros Hflag. split; [|split].
    + unfold ref_workfile_path. rewrite Hflag.
      apply set_asset_use_path_as_workpath_ref_path.
    + unfold dis_workfile_path. rewrite Hflag.
      destruct (set_asset_use_path_as_workpath_cases asset) as [[_ ->]|[_ ->]];
        reflexivity.
    + apply run_on_asset_touches_no_workfile. exact Hflag.
Qed.

Lemma use_path_as_workpath_policy_witness :
  use_path_as_workpath (_set_asset_use_path_as_workpath asset_same_dims) = true /\
  dis_workfile_path (_set_asset_use_path_as_workpath asset_same_dims)
  = "/in/a_dis.yuv".
Proof.
  assert (Hflag :
    use_path_as_workpath (_set_asset_use_path_as_workpath asset_same_dims) = true).
  { apply (proj1 (proj2 (@use_path_as_workpath_policy
                           (linux (fun _ => None)) demo_kind
                           (demo_executor [asset_same_dims] false true true true)
                           asset_same_dims))).
    - reflexivity.
    - vm_compute. repeat split; reflexivity. }
  split; [exact Hflag|].
  apply (proj1 (proj2 (proj2 (proj2 (@use_path_as_workpath_policy
                           (linux (fun _ => None)) demo_kind
                           (demo_executor [asset_same_dims] false true true true)
                           asset_same_dims)) Hflag))).
Defined.

(** The scenario of the specification: all dimensions 1920x1080, no crop and
    no pad; the trace shows no workfile call. *)
Example run_on_asset_same_dims :
  trace (@_run_on_asset (linux (fun _ => None)) demo_kind
           (demo_executor [asset_same_dims] false true true false)
           asset_same_dims
           (demo_world ["/in/a_ref.yuv"; "/in/a_dis.yuv"] [])).2
  = [EvPathExists "/in/a_ref.yuv" true; EvPathExists "/in/a_ref.yuv" true;
     EvMakeParentDirs "/work/a/Demo_V0.1_sha1-a";
     EvMakeParentDirs "/work/a/Demo_V0.1_sha1-a";
     EvOpenWrite "/work/a/Demo_V0.1_sha1-a" ("Demo V0.1" +:+ newline +:+ newline);
     EvGenerateResult (set_use_path_as_workpath true asset_same_dims);
     EvReadResult (set_use_path_as_workpath true asset_same_dims);
     EvPathExists "/work/a/Demo_V0.1_sha1-a" true;
     EvRemove "/work/a/Demo_V0.1_sha1-a"; EvRmdir "/work/a"].
Proof. vm_compute. reflexivity. Qed.

(** ** The wait for the workfiles *)

Lemma string_append_assoc (s1 s2 s3 : string) :
  (s1 +:+ s2) +:+ s3 = s1 +:+ s2 +:+ s3.
Proof.
  induction s1 as [|c s1 IH]; [reflexivity|].
  change (String c ((s1 +:+ s2) +:+ s3) = String c (s1 +:+ s2 +:+ s3)).
  f_equal. exact IH.
Qed.

Lemma advance_pending_with_trace (t : list Event) (w : World) :
  advance_pending (with_trace t w) = with_trace t (advance_pending w).
Proof. reflexivity. Qed.

Lemma iter_advance_pending_with_trace (k : nat) (t : list Event) (w : World) :
  Nat.iter k advance_pending (with_trace t w) =
  with_trace t (Nat.iter k advance_pending w).
Proof.
  induction k as [|k IH]; [reflexivity|].
  simpl. rewrite IH. apply advance_pending_with_trace.
Qed.

Lemma with_trace_same (w : World) : with_trace (trace w) w = w.
Proof. destruct w. reflexivity. Qed.

(** One polling attempt: its answer and its trace. *)
Lemma poll_attempt (asset : Asset) (w : World) :
  (ref_exists <- os_path_exists (ref_workfile_path asset) ;;
   if ref_exists : bool
   then os_path_exists (dis_workfile_path asset)
   else ret false) w
  = (Ok (both_ready asset (fs w)),
     with_trace (trace w ++ poll_events asset (fs w)) w).
Proof.
  unfold bind, os_path_exists, both_ready, poll_events, ret.
  destruct (bool_decide (ref_workfile_path asset ∈ fs w)); simpl.
  - rewrite <- app_assoc. reflexivity.
  - reflexivity.
Qed.

Lemma bind_assoc {A B C} (m : M A) (f : A -> M B) (g : B -> M C) (w : World) :
  bind (bind m f) g w = bind m (fun a => bind (f a) g) w.
Proof.
  unfold bind. destruct (m w) as [[a|e] w1]; reflexivity.
Qed.

Lemma iter_advance_pending_step (k : nat) (t : list Event) (w : World) :
  Nat.iter k advance_pending (advance_pending (with_trace t w)) =
  with_trace t (Nat.iter (S k) advance_pending w).
Proof.
  rewrite advance_pending_with_trace, iter_advance_pending_with_trace.
  rewrite Nat.iter_succ_r. reflexivity.
Qed.

Lemma fs_after_step (k : nat) (t : list Event) (w : World) :
  fs_after k (advance_pending (with_trace t w)) = fs_after (S k) w.
Proof. unfold fs_after. rewrite iter_advance_pending_step. reflexivity. Qed.

Lemma waiting_rounds_with_trace (asset : Asset) (k : nat) :
  forall (t : list Event) (w : World),
    waiting_rounds asset k (with_trace t w) = waiting_rounds asset k w.
Proof.
  induction k as [|k IH]; intros t w; [reflexivity|].
  simpl. rewrite advance_pending_with_trace, IH. reflexivity.
Qed.

(** One turn of the loop. *)
Lemma wait_for_workfiles_loop_step (asset : Asset) (n : nat) (w : World) :
  _wait_for_workfiles_loop (S n) asset w =
    if both_ready asset (fs w)
    then (Ok tt, with_trace (trace w ++ poll_events asset (fs w)) w)
    else _wait_for_workfiles_loop n asset
           (advance_pending
              (with_trace (trace w ++ poll_events asset (fs w) ++ [EvSleep 100]) w)).
Proof.
  cbn [_wait_for_workfiles_loop].
  rewrite <- bind_assoc.
  rewrite (bind_ok _ _ _ _ _ (poll_attempt asset w)).
  destruct (both_ready asset (fs w)); [reflexivity|].
  unfold bind, sleep. simpl. rewrite <- app_assoc. reflexivity.
Qed.

(** The loop either finds both paths at its attempt number [k] (counted from
    0), after [k] fruitless attempts and as many sleeps, or it runs out of
    attempts and raises. *)
Lemma wait_for_workfiles_loop_spec (asset : Asset) (n : nat) :
  forall w : World,
    (exists k, (k < n)%nat /\
       both_ready asset (fs_after k w) = true /\
       (forall j, (j < k)%nat -> both_ready asset (fs_after j w) = false) /\
       _wait_for_workfiles_loop n asset w =
         (Ok tt,
          with_trace (trace w ++ waiting_rounds asset k w ++
                      poll_events asset (fs_after k w))
            (Nat.iter k advance_pending w))) \/
    ((forall k, (k < n)%nat -> both_ready asset (fs_after k w) = false) /\
     _wait_for_workfiles_loop n asset w =
       (Raise (RuntimeError (workfiles_missing_message asset)),
        with_trace (trace w ++ waiting_rounds asset n w)
          (Nat.iter n advance_pending w))).
Proof.
  induction n as [|n IH]; intros w.
  - right. split; [intros k Hk; lia|].
    simpl. rewrite app_nil_r, with_trace_same. reflexivity.
  - rewrite wait_for_workfiles_loop_step.
    destruct (both_ready asset (fs w)) eqn:Hnow.
    + left. exists 0%nat. repeat split.
      * lia.
      * exact Hnow.
      * intros j Hj. lia.
    + set (t1 := trace w ++ poll_events asset (fs w) ++ [EvSleep 100]).
      destruct (IH (advance_pending (with_trace t1 w)))
        as [(k & Hk & Hready & Hbefore & Hrun)|[Hnever Hrun]].
      * left. exists (S k). split; [lia|]. split; [|split].
        -- rewrite <- (fs_after_step k t1 w). exact Hready.
        -- intros [|j] Hj; [exact Hnow|].
           rewrite <- (fs_after_step j t1 w). apply Hbefore. lia.
        -- rewrite Hrun. f_equal.
           rewrite fs_after_step, iter_advance_pending_step, with_trace_twice.
           rewrite advance_pending_with_trace, waiting_rounds_with_trace.
           f_equal. subst t1. simpl. rewrite <- !app_assoc. reflexivity.
      * right. split.
        -- intros [|k] Hk; [exact Hnow|].
           rewrite <- (fs_after_step k t1 w). apply Hnever. lia.
        -- rewrite Hrun. f_equal.
           rewrite iter_advance_pending_step, with_trace_twice.
           rewrite advance_pending_with_trace, waiting_rounds_with_trace.
           f_equal. subst t1. simpl. rewrite <- !app_assoc. reflexivity.
Qed.

(** Every round of waiting ends with one sleep of 100 ms. *)
Lemma waiting_rounds_sleeps (asset : Asset) (k : nat) :
  forall w : World,
    length (filter (fun e => e = EvSleep 100) (waiting_rounds asset k w)) = k /\
    Forall (fun e => forall ms, e = EvSleep ms -> ms = 100)
      (waiting_rounds asset k w).
Proof.
  induction k as [|k IH]; intros w; [split; [reflexivity|constructor]|].
  destruct (IH (advance_pending w)) as [Hlen Hall].
  cbn [waiting_rounds]. unfold poll_events.
  destruct (bool_decide (ref_workfile_path asset ∈ fs w)); split.
  - rewrite !filter_app, !length_app, Hlen.
    rewrite !filter_cons_False by discriminate.
    rewrite filter_cons_True by reflexivity. reflexivity.
  - apply Forall_app. split; [|apply Forall_app; split; [|exact Hall]];
      repeat constructor; intros ms Hms; congruence.
  - rewrite !filter_app, !length_app, Hlen.
    rewrite !filter_cons_False by discriminate.
    rewrite filter_cons_True by reflexivity. reflexivity.
  - apply Forall_app. split; [|apply Forall_app; split; [|exact Hall]];
      repeat constructor; intros ms Hms; congruence.
Qed.

(** C6. [_wait_for_workfiles] makes at most 10 polling attempts, 100 ms
    apart.  It returns at the first attempt that finds both workfile paths,
    after as many sleeps as there were fruitless attempts; when none of the 10
    attempts finds both, it raises the error whose message contains the
    reference workfile path and the distorted workfile path. *)
Theorem wait_for_workfiles_bounded (asset : Asset) (w : World) :
  ((exists k, (k < 10)%nat /\
      both_ready asset (fs_after k w) = true /\
      (forall j, (j < k)%nat -> both_ready asset (fs_after j w) = false) /\
      _wait_for_workfiles asset w =
        (Ok tt,
         with_trace (trace w ++ waiting_rounds asset k w ++
                     poll_events asset (fs_after k w))
           (Nat.iter k advance_pending w))) \/
   ((forall k, (k < 10)%nat -> both_ready asset (fs_after k w) = false) /\
    _wait_for_workfiles asset w =
      (Raise (RuntimeError (workfiles_missing_message asset)),
       with_trace (trace w ++ waiting_rounds asset 10 w)
         (Nat.iter 10 advance_pending w)))) /\
  contains (workfiles_missing_message asset) (ref_workfile_path asset) /\
  contains (workfiles_missing_message asset) (dis_workfile_path asset).
Proof.
  split; [exact (wait_for_workfiles_loop_spec asset 10 w)|]. split.
  - exists "ref or dis video workfile path ",
      (" or " +:+ dis_workfile_path asset +:+ " is missing.").
    reflexivity.
  - exists ("ref or dis video workfile path " +:+ ref_workfile_path asset +:+ " or "),
      " is missing.".
    unfold workfiles_missing_message.
    rewrite !string_append_assoc. reflexivity.
Qed.

Lemma wait_for_workfiles_bounded_witness :
  contains (workfiles_missing_message asset_rescaled) "/work/b/dis_wf".
Proof.
  exact (proj2 (proj2 (wait_for_workfiles_bounded asset_rescaled
                         world_pipe_missing))).
Defined.

(** Both pipes are found at the third attempt, after two sleeps. *)
Example wait_for_workfiles_ready :
  let r := _wait_for_workfiles asset_rescaled world_pipes_on_their_way in
  r.1 = Ok tt /\
  trace r.2 = [EvPathExists "/work/b/ref_wf" false; EvSleep 100;
               EvPathExists "/work/b/ref_wf" true;
               EvPathExists "/work/b/dis_wf" false; EvSleep 100;
               EvPathExists "/work/b/ref_wf" true;
               EvPathExists "/work/b/dis_wf" true].
Proof. split; vm_compute; reflexivity. Qed.

(** The second pipe never comes: ten attempts, ten sleeps, then the error. *)
Example wait_for_workfiles_timeout :
  let r := _wait_for_workfiles asset_rescaled world_pipe_missing in
  r.1 = Raise (RuntimeError
                 "ref or dis video workfile path /work/b/ref_wf or /work/b/dis_wf is missing.") /\
  length (filter (fun e => e = EvSleep 100) (trace r.2)) = 10%nat /\
  length (trace r.2) = 29%nat.
Proof. repeat split; vm_compute; reflexivity. Qed.

(** ** Assertions at construction *)

(** [_assert_an_asset] changes nothing; it passes or fails an assertion. *)
Lemma assert_an_asset_pure `{Collaborators} (asset : Asset) (w : World) :
  _assert_an_asset asset w = (Ok tt, w) \/
  exists msg, _assert_an_asset asset w = (Raise (AssertionError msg), w).
Proof.
  unfold _assert_an_asset, get_and_assert_ffmpeg, bind, assert_, ret, raise.
  destruct (bool_decide (quality_width_height asset ≠ ref_width_height asset)
            || bool_decide (quality_width_height asset ≠ dis_width_height asset));
    [destruct ffmpeg_or_message as [msg|path]; [right; eauto|]|];
    (destruct (crop_cmd asset), (pad_cmd asset);
     destruct (bool_decide ("quality_width" ∈ dom (asset_dict asset))
               && bool_decide ("quality_height" ∈ dom (asset_dict asset)));
     simpl; eauto).
Qed.

(** An asset with a crop or a pad and without explicit target dimensions
    fails an assertion. *)
Lemma assert_an_asset_rejects `{Collaborators} (asset : Asset) (w : World) :
  crop_cmd asset <> None \/ pad_cmd asset <> None ->
  ~ quality_dimensions_explicit asset ->
  exists msg, _assert_an_asset asset w = (Raise (AssertionError msg), w).
Proof.
  intros Hset Himplicit.
  assert (Hcond : bool_decide ("quality_width" ∈ dom (asset_dict asset))
                  && bool_decide ("quality_height" ∈ dom (asset_dict asset))
                  = false).
  { apply not_true_is_false. intros Hb. apply Himplicit.
    apply andb_true_iff in Hb as [H1 H2].
    split; eapply bool_decide_eq_true_1; eassumption. }
  unfold _assert_an_asset, get_and_assert_ffmpeg, bind, assert_, ret, raise.
  rewrite Hcond.
  destruct (bool_decide (quality_width_height asset ≠ ref_width_height asset)
            || bool_decide (quality_width_height asset ≠ dis_width_height asset));
    [destruct ffmpeg_or_message as [msg|path]; [eauto|]|];
    (destruct (crop_cmd asset), (pad_cmd asset); simpl; eauto;
     destruct Hset; congruence).
Qed.

Lemma assert_assets_loop_rejects `{Collaborators} (l : list Asset)
    (asset : Asset) (w : World) :
  asset ∈ l ->
  crop_cmd asset <> None \/ pad_cmd asset <> None ->
  ~ quality_dimensions_explicit asset ->
  exists msg, _assert_assets_loop l w = (Raise (AssertionError msg), w).
Proof.
  intros Hin Hset Himplicit.
  induction l as [|a l IH]; [inversion Hin|].
  cbn [_assert_assets_loop]. unfold bind.
  apply elem_of_cons in Hin as [<-|Hin].
  - destruct (assert_an_asset_rejects asset w Hset Himplicit) as [msg Hr].
    rewrite Hr. eauto.
  - destruct (assert_an_asset_pure a w) as [Hr|[msg Hr]]; rewrite Hr.
    + apply IH. exact Hin.
    + eauto.
Qed.

(** C7. Constructing an [Executor] over a list that contains an asset with a
    crop or a pad but without explicitly given target dimensions raises an
    assertion error and leaves the world untouched: no call is made and no job
    runs.  [run_executors_in_parallel] constructs such an executor first and
    so fails in the same way before any lock is created or job started. *)
Theorem executor_init_rejects_implicit_dimensions
    `{Collaborators} `{ExecutorKind}
    (asset_list : list Asset) (asset : Asset)
    (logger fifo_mode delete_workdir parallelize result_store : bool)
    (optional_dict optional_dict2 : option (gmap string string))
    (completion : list nat) (w : World) :
  asset ∈ asset_list ->
  crop_cmd asset <> None \/ pad_cmd asset <> None ->
  ~ quality_dimensions_explicit asset ->
  exists msg,
    Executor_init asset_list logger fifo_mode delete_workdir result_store
      optional_dict optional_dict2 w
    = (Raise (AssertionError msg), w) /\
    run_executors_in_parallel asset_list fifo_mode delete_workdir parallelize
      logger result_store optional_dict optional_dict2 completion w
    = (Raise (AssertionError msg), w).
Proof.
  intros Hin Hset Himplicit.
  assert (Hinit : exists msg, forall delete,
            Executor_init asset_list logger fifo_mode delete result_store
              optional_dict optional_dict2 w
            = (Raise (AssertionError msg), w)).
  { unfold Executor_init, TypeVersionEnabled_init, _assert_args, _assert_assets.
    destruct type_version_complaint as [msg|].
    - exists msg. reflexivity.
    - destruct (assert_assets_loop_rejects asset_list asset w Hin Hset Himplicit)
        as [msg Hr].
      exists msg. intros delete. unfold bind, ret. cbn [assets]. rewrite Hr.
      reflexivity. }
  destruct Hinit as [msg Hmsg].
  exists msg. split; [apply Hmsg|].
  unfold run_executors_in_parallel.
  rewrite (bind_raise _ _ _ _ _ (Hmsg true)). reflexivity.
Qed.

Lemma executor_init_rejects_implicit_dimensions_witness :
  exists msg,
    @Executor_init (linux (fun _ => None)) demo_kind
      [asset_same_dims; asset_cropped_implicit] false true true false None None
      (demo_world [] [])
    = (Raise (AssertionError msg), demo_world [] []) /\
    @run_executors_in_parallel (linux (fun _ => None)) demo_kind
      [asset_same_dims; asset_cropped_implicit] true true true false false
      None None [1%nat; 0%nat] (demo_world [] [])
    = (Raise (AssertionError msg), demo_world [] []).
Proof.
  apply (@executor_init_rejects_implicit_dimensions
           (linux (fun _ => None)) demo_kind
           [asset_same_dims; asset_cropped_implicit] asset_cropped_implicit
           false true true true false None None [1%nat; 0%nat]
           (demo_world [] [])).
  - apply (bool_decide_eq_true_1 _). vm_compute. reflexivity.
  - left. discriminate.
  - intros [Hwidth _]. revert Hwidth.
    apply (bool_decide_eq_false_1 _). vm_compute. reflexivity.
Defined.

(** The assertion that fails there is the one about the crop. *)
Example executor_init_crop_message :
  (@Executor_init (linux (fun _ => None)) demo_kind
     [asset_same_dims; asset_cropped_implicit] false true true false None None
     (demo_world [] [])).1
  = Raise (AssertionError
      "If crop_cmd is specified, must also EXPLICITLY specify quality_width and quality_height.").
Proof. vm_compute. reflexivity. Qed.

(** ** The lock table *)

Lemma lock_table_ok_empty (w : World) : lock_table_ok ∅ w.
Proof.
  split; [intros s l Hs|intros s1 s2 l Hs]; rewrite lookup_empty in Hs;
    discriminate Hs.
Qed.

(** A new identity gets the next handle; the table stays sound. *)
Lemma lock_table_ok_insert (m : gmap string nat) (s : string) (w w1 : World) :
  lock_table_ok m w ->
  m !! s = None ->
  next_lock w1 = S (next_lock w) ->
  lock_table_ok (<[s := next_lock w]> m) w1.
Proof.
  intros [Hbound Hinj] Hfresh Hnext. split.
  - intros s' l Hl. rewrite Hnext.
    destruct (decide (s = s')) as [<-|Hne].
    + rewrite lookup_insert_eq in Hl. injection Hl as <-. lia.
    + rewrite lookup_insert_ne in Hl by exact Hne.
      specialize (Hbound s' l Hl). lia.
  - intros s1 s2 l H1 H2.
    destruct (decide (s = s1)) as [<-|Hne1], (decide (s = s2)) as [<-|Hne2].
    + reflexivity.
    + rewrite lookup_insert_eq in H1. injection H1 as <-.
      rewrite lookup_insert_ne in H2 by exact Hne2.
      specialize (Hbound s2 _ H2). lia.
    + rewrite lookup_insert_eq in H2. injection H2 as <-.
      rewrite lookup_insert_ne in H1 by exact Hne1.
      specialize (Hbound s1 _ H1). lia.
    + rewrite lookup_insert_ne in H1 by exact Hne1.
      rewrite lookup_insert_ne in H2 by exact Hne2.
      exact (Hinj s1 s2 l H1 H2).
Qed.

(** The loop completes, keeps the table sound, only adds to it, and appends
    for each asset the handle the final table holds for its identity. *)
Lemma create_locks_spec (l : list Asset) :
  forall (m : gmap string nat) (locks : list nat) (w : World),
    lock_table_ok m w ->
    exists m' new w',
      create_locks l m locks w = (Ok (m', locks ++ new), w') /\
      lock_table_ok m' w' /\
      m ⊆ m' /\
      Forall2 (fun asset lock => m' !! asset_str asset = Some lock) l new.
Proof.
  induction l as [|asset l IH]; intros m locks w Hok.
  - exists m, [], w. rewrite app_nil_r.
    split; [reflexivity|]. split; [exact Hok|]. split; [reflexivity|constructor].
  - cbn [create_locks].
    destruct (m !! asset_str asset) as [lock|] eqn:Hlook.
    + (* the identity has its lock already *)
      destruct (IH m (locks ++ [lock]) w Hok) as (m' & new & w' & Hrun & Hok' & Hsub & Hall).
      exists m', (lock :: new), w'.
      split; [|split; [exact Hok'|split; [exact Hsub|]]].
      * unfold bind.
        rewrite bool_decide_eq_false_2
          by (intros Hn; apply not_elem_of_dom in Hn; congruence).
        unfold ret. rewrite Hlook, Hrun, <- app_assoc. reflexivity.
      * constructor; [|exact Hall].
        eapply lookup_weaken; eassumption.
    + (* a new identity *)
      set (w1 := with_next_lock (S (next_lock w))
                   (with_trace (trace w ++ [EvNewLock (next_lock w)]) w)).
      assert (Hok1 : lock_table_ok (<[asset_str asset := next_lock w]> m) w1)
        by (apply (lock_table_ok_insert m _ w w1 Hok Hlook); reflexivity).
      destruct (IH _ (locks ++ [next_lock w]) w1 Hok1)
        as (m' & new & w' & Hrun & Hok' & Hsub & Hall).
      exists m', (next_lock w :: new), w'.
      split; [|split; [exact Hok'|split]].
      * unfold bind.
        rewrite bool_decide_eq_true_2 by (apply not_elem_of_dom; exact Hlook).
        unfold multiprocessing_Lock, ret. fold w1.
        rewrite lookup_insert_eq, Hrun, <- app_assoc. reflexivity.
      * etransitivity; [|exact Hsub]. apply insert_subseteq. exact Hlook.
      * constructor; [|exact Hall].
        eapply lookup_weaken; [|exact Hsub]. apply lookup_insert_eq.
Qed.

(** Pairing the assets with handles read from a sound table. *)
Lemma zip_locks_follow_identity (l : list Asset) (new : list nat)
    (m : gmap string nat) (w : World) :
  lock_table_ok m w ->
  Forall2 (fun asset lock => m !! asset_str asset = Some lock) l new ->
  (zip l new).*1 = l /\
  locks_follow_identity fst snd (zip l new).
Proof.
  intros [_ Hinj] Hall. split.
  - apply fst_zip. rewrite (Forall2_length _ _ _ Hall). reflexivity.
  - intros i j [a la] [b lb] Hi Hj. simpl.
    apply lookup_zip_with_Some in Hi as (a' & la' & Ha & Hia & Hila).
    apply lookup_zip_with_Some in Hj as (b' & lb' & Hb & Hjb & Hjlb).
    injection Ha as -> ->. injection Hb as -> ->.
    assert (Hma : m !! asset_str a' = Some la').
    { destruct (Forall2_lookup_l _ _ _ _ _ Hall Hia) as (x & Hx & Hm).
      congruence. }
    assert (Hmb : m !! asset_str b' = Some lb').
    { destruct (Forall2_lookup_l _ _ _ _ _ Hall Hjb) as (x & Hx & Hm).
      congruence. }
    split.
    + intros Hstr. rewrite Hstr in Hma. congruence.
    + intros <-. exact (Hinj _ _ _ Hma Hmb).
Qed.

(** C8. In [Executor.run] and in [run_executors_in_parallel] alike, the jobs
    are the assets of the input in their order, each with a lock, and two jobs
    have the same lock exactly when their assets have the same [str(asset)]. *)
Theorem lock_table_by_identity `{Collaborators} `{ExecutorKind}
    (self : Executor) (asset_list : list Asset)
    (fifo_mode delete_workdir result_store : bool)
    (optional_dict optional_dict2 : option (gmap string string)) (w : World) :
  (exists list_args w',
     Executor_run_list_args self w = (Ok list_args, w') /\
     list_args.*1 = assets self /\
     locks_follow_identity fst snd list_args) /\
  (exists list_args w',
     run_executors_list_args asset_list fifo_mode delete_workdir result_store
       optional_dict optional_dict2 w = (Ok list_args, w') /\
     arg_asset <$> list_args = asset_list /\
     locks_follow_identity arg_asset arg_lock list_args).
Proof.
  split.
  - destruct (create_locks_spec (assets self) ∅ [] w (lock_table_ok_empty w))
      as (m' & new & w' & Hrun & Hok & _ & Hall).
    destruct (zip_locks_follow_identity _ _ _ _ Hok Hall) as [Hfst Hlocks].
    exists (zip (assets self) new), w'. split; [|split; assumption].
    unfold Executor_run_list_args. rewrite (bind_ok _ _ _ _ _ Hrun).
    reflexivity.
  - destruct (create_locks_spec asset_list ∅ [] w (lock_table_ok_empty w))
      as (m' & new & w' & Hrun & Hok & _ & Hall).
    destruct (zip_locks_follow_identity _ _ _ _ Hok Hall) as [Hfst Hlocks].
    eexists _, w'. split; [|split].
    + unfold run_executors_list_args. rewrite (bind_ok _ _ _ _ _ Hrun).
      reflexivity.
    + simpl. rewrite <- list_fmap_compose. exact Hfst.
    + intros i j a b Hi Hj. simpl in Hi, Hj.
      apply list_lookup_fmap_Some in Hi as (pa & -> & Hpa).
      apply list_lookup_fmap_Some in Hj as (pb & -> & Hpb).
      exact (Hlocks i j pa pb Hpa Hpb).
Qed.

Lemma lock_table_by_identity_witness :
  exists list_args w',
    Executor_run_list_args (demo_executor three_assets false true true false)
      (demo_world [] []) = (Ok list_args, w') /\
    list_args.*1 = three_assets /\
    locks_follow_identity fst snd list_args.
Proof.
  exact (proj1 (@lock_table_by_identity (linux (fun _ => None)) demo_kind
                  (demo_executor three_assets false true true false)
                  three_assets true true false None None (demo_world [] []))).
Defined.

(** Two identities among three assets: two locks, the first one shared. *)
Example create_locks_three_assets :
  (Executor_run_list_args (demo_executor three_assets false true true false)
     (demo_world [] [])).1
  = Ok [(asset_same_dims, 0%nat); (asset_rescaled, 1%nat);
        (asset_same_dims_elsewhere, 0%nat)].
Proof. vm_compute. reflexivity. Qed.

(** ** Which errors a computation can raise *)





















(** ** Materialized mode *)







(** In materialized mode the rescaled asset is transcoded by two commands of
    the parent, before the log file is prepared. *)
Example run_on_asset_materialized :
  let r := @_run_on_asset (linux (fun _ => None)) demo_kind
             (demo_executor [asset_rescaled] false false true false)
             asset_rescaled
             (demo_world ["/in/b_ref.yuv"; "/in/b_dis.yuv"] []) in
  r.1 = Ok (demo_result asset_rescaled) /\
  take 8 (trace r.2)
  = [EvPathExists "/in/b_ref.yuv" true; EvPathExists "/in/b_ref.yuv" true;
     EvPathExists "/work/b/ref_wf" false; EvPathExists "/work/b/dis_wf" false;
     EvMakeParentDirs "/work/b/Demo_V0.1_sha1-b";
     EvSubprocessCall
       "ffmpeg -f rawvideo -pix_fmt yuv420p -s 1920x1080 -i /in/b_ref.yuv -an -vsync 0 -pix_fmt yuv420p -vf scale=1280x720 -f rawvideo -sws_flags bicubic -y /work/b/ref_wf";
     EvSubprocessCall
       "ffmpeg -f rawvideo -pix_fmt yuv420p -s 1920x1080 -i /in/b_dis.yuv -an -vsync 0 -pix_fmt yuv420p -vf scale=1280x720 -f rawvideo -sws_flags bicubic -y /work/b/dis_wf";
     EvMakeParentDirs "/work/b/Demo_V0.1_sha1-b"].
Proof. split; vm_compute; reflexivity. Qed.

(** In streamed mode the wait is entered, and it times out when a child never
    makes its pipe. *)
Example run_on_asset_streamed_timeout :
  (@_run_on_asset
     (linux (fun side => match side with RefSide => Some 1%nat | DisSide => None end))
     demo_kind (demo_executor [asset_rescaled] false true true false)
     asset_rescaled (demo_world ["/in/b_ref.yuv"; "/in/b_dis.yuv"] [])).1
  = Raise (RuntimeError
      "ref or dis video workfile path /work/b/ref_wf or /work/b/dis_wf is missing.").
Proof. vm_compute. reflexivity. Qed.

(** ** No failure of the directory removal propagates *)

Lemma completes_after_quiet {A} (P : Event -> bool) (m : M A) :
  emits_only P m -> completes_after P m.
Proof.
  intros Hm w. destruct (Hm w) as (evs & Ht & Hp).
  exists evs. split; [exact Ht|left; exact Hp].
Qed.

Lemma completes_after_never_raises {A} (P : Event -> bool) (m : M A) :
  never_raises m -> completes_after P m.
Proof.
  intros Hm w. destruct (Hm w) as (a & evs & Ha & Ht).
  exists evs. split; [exact Ht|right; exists a; exact Ha].
Qed.

(** After calls that pass the test, the rest decides. *)
Lemma completes_after_bind_quiet {A B} (P : Event -> bool) (m : M A)
    (k : A -> M B) :
  emits_only P m -> (forall a, completes_after P (k a)) ->
  completes_after P (bind m k).
Proof.
  intros Hm Hk w. unfold bind.
  destruct (Hm w) as (evs1 & Ht1 & Hp1).
  destruct (m w) as [[a|e] w1]; simpl in *.
  - destruct (Hk a w1) as (evs2 & Ht2 & Hc).
    exists (evs1 ++ evs2). split.
    + rewrite Ht2, Ht1, app_assoc. reflexivity.
    + destruct Hc as [Hp2|Hok]; [left|right; exact Hok].
      apply Forall_app. split; assumption.
  - exists evs1. split; [exact Ht1|left; exact Hp1].
Qed.

(** What completes stays completed through a rest that always completes. *)
Lemma completes_after_bind_total {A B} (P : Event -> bool) (m : M A)
    (k : A -> M B) :
  completes_after P m -> (forall a, never_raises (k a)) ->
  completes_after P (bind m k).
Proof.
  intros Hm Hk w. unfold bind.
  destruct (Hm w) as (evs1 & Ht1 & Hc).
  destruct (m w) as [[a|e] w1]; simpl in *.
  - destruct (Hk a w1) as (b & evs2 & Hb & Ht2).
    exists (evs1 ++ evs2). split.
    + rewrite Ht2, Ht1, app_assoc. reflexivity.
    + right. exists b. exact Hb.
  - exists evs1. split; [exact Ht1|].
    destruct Hc as [Hp|[a Ha]]; [left; exact Hp|discriminate Ha].
Qed.

Lemma never_raises_ret {A} (a : A) : never_raises (ret a).
Proof. intros w. exists a, []. rewrite app_nil_r. split; reflexivity. Qed.

(** The [try] around [os.rmdir] always completes. *)
Lemma rmdir_handler_total `{Collaborators} (d : string) :
  never_raises
    (try_except_OSError (os_rmdir d)
       (fun errno => if (errno =? 39)%Z then ret tt else ret tt)).
Proof.
  intros w. exists tt, [EvRmdir d].
  unfold try_except_OSError, os_rmdir.
  destruct (rmdir_errno d (fs w)) as [errno|]; simpl; [|split; reflexivity].
  destruct (errno =? 39)%Z; split; reflexivity.
Qed.

(** Peel the calls that come before the removal of the directory. *)
Ltac quiet_prefix :=
  lazymatch goal with
  | |- completes_after _ (bind _ _) =>
      apply completes_after_bind_quiet;
      [solve [repeat emits_step; reflexivity]|intros ?]
  | |- completes_after _ (if ?b then _ else _) => destruct b eqn:?
  | |- completes_after _ (match ?x with _ => _ end) => destruct x eqn:?
  end.

Lemma run_on_asset_completes_after_rmdir `{Collaborators} `{ExecutorKind}
    (self : Executor) (asset : Asset) :
  completes_after not_rmdir (_run_on_asset self asset).
Proof.
  unfold _run_on_asset. cbv zeta.
  apply completes_after_bind_quiet;
    [solve [repeat emits_step; reflexivity]|intros cached].
  apply completes_after_bind_total; [|intros r; apply never_raises_ret].
  destruct cached as [result|].
  - apply completes_after_quiet. repeat emits_step; reflexivity.
  - unfold _assert_paths, _prepare_log_file, _remove_log,
      _close_ref_workfile, _close_dis_workfile, _open_ref_workfile,
      _open_dis_workfile.
    repeat quiet_prefix.
    apply completes_after_bind_total; [|intros u; apply never_raises_ret].
    destruct (delete_workdir self);
      [|apply completes_after_quiet; apply emits_ret].
    apply completes_after_bind_quiet;
      [solve [repeat emits_step; reflexivity]|intros u].
    apply completes_after_never_raises. apply rmdir_handler_total.
Qed.

(** C3. Once [os.rmdir] has been called on the log directory, [_run_on_asset]
    returns normally, whether the removal succeeded or failed and whatever
    the errno of the failure: the handler swallows every [OSError], not only
    the one of a directory that is not empty, and no failure of the removal
    propagates. *)
Theorem rmdir_failure_never_propagates `{Collaborators} `{ExecutorKind}
    (self : Executor) (asset : Asset) (w : World) :
  exists evs,
    trace (_run_on_asset self asset w).2 = trace w ++ evs /\
    ((exists d, EvRmdir d ∈ evs) ->
     exists result, (_run_on_asset self asset w).1 = Ok result).
Proof.
  destruct (run_on_asset_completes_after_rmdir self asset w)
    as (evs & Ht & [Hquiet|Hok]).
  - exists evs. split; [exact Ht|]. intros [d Hd].
    rewrite Forall_forall in Hquiet. specialize (Hquiet _ Hd).
    discriminate Hquiet.
  - exists evs. split; [exact Ht|]. intros _. exact Hok.
Qed.

(** The removal fails with errno 13, permission denied, and the Result comes
    back all the same. *)
Lemma rmdir_failure_never_propagates_witness :
  exists result,
    (@_run_on_asset (demo_collaborators (inr "ffmpeg") (Some 13) (fun _ => None))
       demo_kind (demo_executor [asset_same_dims] false true true false)
       asset_same_dims world_with_inputs).1
    = Ok result.
Proof.
  destruct (@rmdir_failure_never_propagates
              (demo_collaborators (inr "ffmpeg") (Some 13) (fun _ => None))
              demo_kind (demo_executor [asset_same_dims] false true true false)
              asset_same_dims world_with_inputs) as (evs & Ht & Hok).
  apply Hok. exists "/work/a".
  change (trace world_with_inputs ++ evs) with evs in Ht. rewrite <- Ht.
  apply (bool_decide_eq_true_1 _). vm_compute. reflexivity.
Defined.

(** * Further properties of the executor *)

(** ** What the constructor accepts *)

Lemma assert_an_asset_accepts `{Collaborators} (asset : Asset) (w : World) :
  _assert_an_asset asset w = (Ok tt, w) <-> asset_acceptable asset.
Proof.
  unfold asset_acceptable, quality_dimensions_explicit.
  unfold _assert_an_asset, get_and_assert_ffmpeg, bind, assert_, ret, raise.
  assert (Hb1 : bool_decide (quality_width_height asset ≠ ref_width_height asset)
                || bool_decide (quality_width_height asset ≠ dis_width_height asset)
                = true <->
                quality_width_height asset <> ref_width_height asset \/
                quality_width_height asset <> dis_width_height asset).
  { rewrite orb_true_iff, !bool_decide_eq_true. reflexivity. }
  assert (Hb2 : bool_decide ("quality_width" ∈ dom (asset_dict asset))
                && bool_decide ("quality_height" ∈ dom (asset_dict asset))
                = true <->
                "quality_width" ∈ dom (asset_dict asset) /\
                "quality_height" ∈ dom (asset_dict asset)).
  { rewrite andb_true_iff, !bool_decide_eq_true. reflexivity. }
  destruct (bool_decide (quality_width_height asset ≠ ref_width_height asset)
            || bool_decide (quality_width_height asset ≠ dis_width_height asset));
  destruct (bool_decide ("quality_width" ∈ dom (asset_dict asset))
            && bool_decide ("quality_height" ∈ dom (asset_dict asset)));
  destruct ffmpeg_or_message as [msg|path];
  destruct (crop_cmd asset) as [c|], (pad_cmd asset) as [p|]; simpl;
  (split;
   [intros Hrun;
    first [discriminate Hrun
          |split;
           [intros Hneed; first [eexists; reflexivity
                                |apply Hb1 in Hneed; discriminate Hneed]
           |intros Hset; first [apply Hb2; reflexivity
                               |destruct Hset as [Hs|Hs]; congruence]]]
   |intros [Hff Hex];
    first [reflexivity
          |exfalso; destruct (Hff (proj1 Hb1 eq_refl)) as [path' Hp];
           discriminate Hp
          |exfalso;
           assert (Hb : false = true)
             by (apply Hb2, Hex; first [left; discriminate|right; discriminate]);
           discriminate Hb]]).
Qed.

Lemma assert_assets_loop_pure `{Collaborators} (l : list Asset) (w : World) :
  _assert_assets_loop l w = (Ok tt, w) \/
  exists msg, _assert_assets_loop l w = (Raise (AssertionError msg), w).
Proof.
  induction l as [|a l IH]; [left; reflexivity|].
  cbn [_assert_assets_loop]. unfold bind.
  destruct (assert_an_asset_pure a w) as [Hr|[msg Hr]]; rewrite Hr.
  - exact IH.
  - right. exists msg. reflexivity.
Qed.

Lemma assert_assets_loop_accepts `{Collaborators} (l : list Asset) (w : World) :
  _assert_assets_loop l w = (Ok tt, w) <-> Forall asset_acceptable l.
Proof.
  induction l as [|a l IH]; [split; [constructor|reflexivity]|].
  cbn [_assert_assets_loop]. unfold bind. rewrite Forall_cons.
  destruct (assert_an_asset_pure a w) as [Hr|[msg Hr]]; rewrite Hr.
  - rewrite IH. apply assert_an_asset_accepts in Hr. tauto.
  - split; [discriminate|]. intros [Ha _].
    apply (assert_an_asset_accepts a w) in Ha. congruence.
Qed.

(** The constructor, case by case: it returns the executor of its arguments
    or raises an assertion error, and leaves the world as it is. *)
Lemma executor_init_cases `{Collaborators} `{ExecutorKind}
    (l : list Asset) (logger fifo_mode delete_workdir result_store : bool)
    (optional_dict optional_dict2 : option (gmap string string)) (w : World) :
  (Executor_init l logger fifo_mode delete_workdir result_store optional_dict
     optional_dict2 w
   = (Ok {| assets := l; logger := logger; fifo_mode := fifo_mode;
            delete_workdir := delete_workdir; results := [];
            result_store := result_store; optional_dict := optional_dict;
            optional_dict2 := optional_dict2 |}, w)
   <-> type_version_complaint = None /\ Forall asset_acceptable l) /\
  ((exists executor,
      Executor_init l logger fifo_mode delete_workdir result_store
        optional_dict optional_dict2 w = (Ok executor, w)) \/
   (exists msg,
      Executor_init l logger fifo_mode delete_workdir result_store
        optional_dict optional_dict2 w = (Raise (AssertionError msg), w))).
Proof.
  unfold Executor_init, TypeVersionEnabled_init, _assert_args, _assert_assets.
  destruct type_version_complaint as [msg|].
  - split; [split; [discriminate|intros [Hn _]; discriminate Hn]|].
    right. exists msg. reflexivity.
  - unfold bind, ret. cbn [assets].
    destruct (assert_assets_loop_pure l w) as [Hr|[msg Hr]].
    + rewrite Hr. split; [|left; eauto].
      split; [intros _; split; [reflexivity|]|reflexivity].
      apply (assert_assets_loop_accepts l w). exact Hr.
    + rewrite Hr. split; [|right; eauto].
      split; [discriminate|]. intros [_ Hall].
      apply (assert_assets_loop_accepts l w) in Hall. congruence.
Qed.

(** X1. The constructor completes exactly when the type and version pass
    their own check and every asset is acceptable: ffmpeg is installed if the
    asset needs rescaling, and a crop or a pad comes with explicit target
    dimensions.  It then returns the executor of its arguments with no
    results; otherwise it raises an assertion error.  Either way it changes
    nothing. *)
Theorem executor_init_accepts `{Collaborators} `{ExecutorKind}
    (l : list Asset) (logger fifo_mode delete_workdir result_store : bool)
    (optional_dict optional_dict2 : option (gmap string string)) (w : World) :
  (Executor_init l logger fifo_mode delete_workdir result_store optional_dict
     optional_dict2 w
   = (Ok {| assets := l; logger := logger; fifo_mode := fifo_mode;
            delete_workdir := delete_workdir; results := [];
            result_store := result_store; optional_dict := optional_dict;
            optional_dict2 := optional_dict2 |}, w)
   <-> type_version_complaint = None /\ Forall asset_acceptable l) /\
  ((exists executor,
      Executor_init l logger fifo_mode delete_workdir result_store
        optional_dict optional_dict2 w = (Ok executor, w)) \/
   (exists msg,
      Executor_init l logger fifo_mode delete_workdir result_store
        optional_dict optional_dict2 w = (Raise (AssertionError msg), w))).
Proof.
  exact (executor_init_cases l logger fifo_mode delete_workdir result_store
           optional_dict optional_dict2 w).
Qed.

Lemma executor_init_accepts_witness :
  Forall (@asset_acceptable (linux (fun _ => None)))
    [asset_same_dims; asset_rescaled].
Proof.
  apply (proj1 (@executor_init_accepts (linux (fun _ => None)) demo_kind
                  [asset_same_dims; asset_rescaled] false true true false
                  None None (demo_world [] []))).
  vm_compute. reflexivity.
Defined.

(** ** A cache miss with a logger *)







(** The outcome of the look into the cache when there is nothing to find. *)
Lemma cache_miss_load `{ExecutorKind} (self : Executor) (asset : Asset)
    (w : World) :
  result_store self = false \/
  store w !! (asset_str asset, executor_id self) = None ->
  exists evs,
    (if result_store self
     then result_store_load asset (executor_id self)
     else ret None) w
    = (Ok None, with_trace (trace w ++ evs) w) /\
    Forall (fun e => exists a i, e = EvStoreLoad a i) evs.
Proof.
  intros Hmiss. destruct (result_store self) eqn:Hstore.
  - destruct Hmiss as [Hn|Hnone]; [discriminate Hn|].
    exists [EvStoreLoad (asset_str asset) (executor_id self)].
    unfold result_store_load. rewrite Hnone. split; [reflexivity|].
    constructor; [eauto|constructor].
  - exists []. unfold ret. rewrite app_nil_r, with_trace_same.
    split; [reflexivity|constructor].
Qed.



(** The error is the [KeyError] of the placeholder, and it comes after the
    computation. *)
Example logged_miss_key_error :
  let r := @_run_on_asset (linux (fun _ => None)) demo_kind
             (demo_executor [asset_same_dims] true true true false)
             asset_same_dims world_with_inputs in
  r.1 = Raise (KeyError "id") /\
  last (trace r.2)
  = Some (EvGenerateResult (set_use_path_as_workpath true asset_same_dims)).
Proof. split; vm_compute; reflexivity. Qed.

(** ** The computation and the reader are called once, in this order *)

Lemma omap_hook_call_quiet (evs : list Event) :
  Forall (fun e => no_hook_call e = true) evs -> omap hook_call evs = [].
Proof.
  induction 1 as [|e evs He _ IH]; [reflexivity|].
  cbn [omap list_omap]. unfold no_hook_call in He.
  destruct (hook_call e); [discriminate He|exact IH].
Qed.

Lemma calls_hooks_quiet {A} (m : M A) :
  emits_only no_hook_call m -> calls_hooks [] m.
Proof.
  intros Hm w. destruct (Hm w) as (evs & Ht & Hp).
  exists evs. split; [exact Ht|].
  rewrite (omap_hook_call_quiet evs Hp).
  destruct (m w).1; reflexivity.
Qed.

Lemma calls_hooks_bind {A B} (s1 s2 : list HookCall) (m : M A) (k : A -> M B) :
  calls_hooks s1 m -> (forall a, calls_hooks s2 (k a)) ->
  calls_hooks (s1 ++ s2) (bind m k).
Proof.
  intros Hm Hk w. unfold bind.
  destruct (Hm w) as (evs1 & Ht1 & Hs1).
  destruct (m w) as [[a|e] w1]; simpl in *.
  - destruct (Hk a w1) as (evs2 & Ht2 & Hs2).
    exists (evs1 ++ evs2). split.
    + rewrite Ht2, Ht1, app_assoc. reflexivity.
    + rewrite omap_app, Hs1.
      destruct (k a w1).1; [rewrite Hs2; reflexivity|].
      apply prefix_app. exact Hs2.
  - exists evs1. split; [exact Ht1|].
    apply prefix_app_r. exact Hs1.
Qed.

Lemma calls_hooks_bind_quiet {A B} (s : list HookCall) (m : M A)
    (k : A -> M B) :
  emits_only no_hook_call m -> (forall a, calls_hooks s (k a)) ->
  calls_hooks s (bind m k).
Proof.
  intros Hm Hk. apply (calls_hooks_bind [] s); [|exact Hk].
  apply calls_hooks_quiet. exact Hm.
Qed.

Lemma calls_hooks_generate `{ExecutorKind} (asset : Asset) :
  calls_hooks [CallGenerate asset] (_generate_result asset).
Proof.
  intros w. exists [EvGenerateResult asset]. unfold _generate_result.
  destruct (generate_result_effect asset (fs w)).1; simpl;
    (split; reflexivity).
Qed.

Lemma calls_hooks_read `{ExecutorKind} (asset : Asset) :
  calls_hooks [CallRead asset] (_read_result asset).
Proof.
  intros w. exists [EvReadResult asset]. unfold _read_result.
  destruct (read_result_effect asset (fs w)); simpl; (split; reflexivity).
Qed.

Ltac hooks_prefix :=
  lazymatch goal with
  | |- calls_hooks _ (bind (_generate_result ?a) _) =>
      apply (calls_hooks_bind [CallGenerate a] [CallRead a]);
      [apply calls_hooks_generate|intros ?]
  | |- calls_hooks _ (bind (_read_result ?a) _) =>
      apply (calls_hooks_bind [CallRead a] []);
      [apply calls_hooks_read|intros ?]
  | |- calls_hooks _ (bind _ _) =>
      apply calls_hooks_bind_quiet;
      [solve [repeat emits_step; reflexivity]|intros ?]
  end.

(** X3. On a cache miss [_run_on_asset] calls the computation and then the
    reader, once each, both on the asset as [_set_asset_use_path_as_workpath]
    left it; when it raises, it has made a prefix of these two calls, so the
    log is never read before the computation has run or twice. *)
Theorem miss_calls_hooks_once `{Collaborators} `{ExecutorKind}
    (self : Executor) (asset : Asset) (w : World) :
  result_store self = false \/
  store w !! (asset_str asset, executor_id self) = None ->
  exists evs,
    trace (_run_on_asset self asset w).2 = trace w ++ evs /\
    match (_run_on_asset self asset w).1 with
    | Ok _ =>
        omap hook_call evs =
          [CallGenerate (_set_asset_use_path_as_workpath asset);
           CallRead (_set_asset_use_path_as_workpath asset)]
    | Raise _ =>
        omap hook_call evs `prefix_of`
          [CallGenerate (_set_asset_use_path_as_workpath asset);
           CallRead (_set_asset_use_path_as_workpath asset)]
    end.
Proof.
  intros Hmiss.
  destruct (cache_miss_load self asset w Hmiss) as (evs0 & Hload & Hevs0).
  unfold _run_on_asset. rewrite (bind_ok _ _ _ _ _ Hload).
  cbv zeta.
  unfold _assert_paths, _prepare_log_file, _remove_log,
    _close_ref_workfile, _close_dis_workfile, _open_ref_workfile,
    _open_dis_workfile.
  match goal with
  | |- exists evs, trace (?F ?w1).2 = _ /\ _ =>
      assert (Hcalls :
        calls_hooks [CallGenerate (_set_asset_use_path_as_workpath asset);
                     CallRead (_set_asset_use_path_as_workpath asset)] F)
  end.
  { apply (calls_hooks_bind
             [CallGenerate (_set_asset_use_path_as_workpath asset);
              CallRead (_set_asset_use_path_as_workpath asset)] []);
      [|intros r; apply calls_hooks_quiet, emits_ret].
    repeat hooks_prefix.
    apply calls_hooks_quiet. repeat emits_step; reflexivity. }
  destruct (Hcalls (with_trace (trace w ++ evs0) w)) as (evs & Ht & Hs).
  assert (Hquiet0 : omap hook_call evs0 = []).
  { apply omap_hook_call_quiet. eapply Forall_impl; [exact Hevs0|].
    intros e (a & i & ->). reflexivity. }
  exists (evs0 ++ evs). split.
  - rewrite Ht. simpl. rewrite app_assoc. reflexivity.
  - rewrite omap_app, Hquiet0. exact Hs.
Qed.

Lemma miss_calls_hooks_once_witness :
  exists evs,
    trace (@_run_on_asset linux_prompt demo_kind
             (demo_executor [asset_rescaled] false true true false)
             asset_rescaled world_with_inputs).2
    = trace world_with_inputs ++ evs /\
    match (@_run_on_asset linux_prompt demo_kind
             (demo_executor [asset_rescaled] false true true false)
             asset_rescaled world_with_inputs).1 with
    | Ok _ =>
        omap hook_call evs =
          [CallGenerate (_set_asset_use_path_as_workpath asset_rescaled);
           CallRead (_set_asset_use_path_as_workpath asset_rescaled)]
    | Raise _ =>
        omap hook_call evs `prefix_of`
          [CallGenerate (_set_asset_use_path_as_workpath asset_rescaled);
           CallRead (_set_asset_use_path_as_workpath asset_rescaled)]
    end.
Proof.
  apply (@miss_calls_hooks_once linux_prompt demo_kind
           (demo_executor [asset_rescaled] false true true false)
           asset_rescaled world_with_inputs).
  left. reflexivity.
Defined.

(** ** What the pipeline removes *)

Lemma emits_close_ref_workfile (P : Event -> bool) (asset : Asset) :
  (forall b, P (EvPathExists (ref_workfile_path asset) b) = true) ->
  (use_path_as_workpath asset = false ->
   ref_path asset <> ref_workfile_path asset ->
   P (EvRemove (ref_workfile_path asset)) = true) ->
  emits_only P (_close_ref_workfile asset).
Proof.
  intros Hpoll Hremove w.
  destruct (close_ref_workfile_cases asset w)
    as [[_ Hr]|[(_ & _ & _ & Hr)|(Hflag & Hne & _ & Hr)]]; rewrite Hr; simpl.
  - exists []. rewrite app_nil_r. split; [reflexivity|constructor].
  - eexists. split; [reflexivity|]. repeat constructor. apply Hpoll.
  - eexists. split; [reflexivity|].
    repeat constructor; [apply Hpoll|exact (Hremove Hflag Hne)].
Qed.

Lemma emits_close_dis_workfile (P : Event -> bool) (asset : Asset) :
  (forall b, P (EvPathExists (dis_workfile_path asset) b) = true) ->
  (use_path_as_workpath asset = false ->
   dis_path asset <> dis_workfile_path asset ->
   P (EvRemove (dis_workfile_path asset)) = true) ->
  emits_only P (_close_dis_workfile asset).
Proof.
  intros Hpoll Hremove w.
  destruct (close_dis_workfile_cases asset w)
    as [[_ Hr]|[(_ & _ & _ & Hr)|(Hflag & Hne & _ & Hr)]]; rewrite Hr; simpl.
  - exists []. rewrite app_nil_r. split; [reflexivity|constructor].
  - eexists. split; [reflexivity|]. repeat constructor. apply Hpoll.
  - eexists. split; [reflexivity|].
    repeat constructor; [apply Hpoll|exact (Hremove Hflag Hne)].
Qed.

(** X4. Whatever the asset, the executor and the world, and whether it
    completes or raises, every [os.remove] of [_run_on_asset] is aimed at the
    log file or at a workfile that the assertion of its closer found
    different from the source path of its side: no source path is removed as
    a workfile. *)
Theorem run_on_asset_removes_only_transient `{Collaborators} `{ExecutorKind}
    (self : Executor) (asset : Asset) :
  emits_only
    (removes_only_transient self (_set_asset_use_path_as_workpath asset))
    (_run_on_asset self asset).
Proof.
  unfold _run_on_asset, _assert_paths, _prepare_log_file, _remove_log,
    _open_ref_workfile, _open_dis_workfile.
  cbv zeta.
  set (asset' := _set_asset_use_path_as_workpath asset).
  repeat
    (first
       [ apply emits_close_ref_workfile;
         [intros ?; reflexivity
         |intros Hflag Hne; apply bool_decide_eq_true_2; right;
          split; [exact Hflag|left; split; [reflexivity|congruence]]]
       | apply emits_close_dis_workfile;
         [intros ?; reflexivity
         |intros Hflag Hne; apply bool_decide_eq_true_2; right;
          split; [exact Hflag|right; split; [reflexivity|congruence]]]
       | emits_step ]);
    first [reflexivity|apply bool_decide_eq_true_2; left; reflexivity].
Qed.

Lemma run_on_asset_removes_only_transient_witness :
  emits_only
    (@removes_only_transient linux_prompt demo_kind
       (demo_executor [asset_rescaled] false true true false)
       (_set_asset_use_path_as_workpath asset_rescaled))
    (@_run_on_asset linux_prompt demo_kind
       (demo_executor [asset_rescaled] false true true false) asset_rescaled).
Proof.
  exact (@run_on_asset_removes_only_transient linux_prompt demo_kind
           (demo_executor [asset_rescaled] false true true false)
           asset_rescaled).
Defined.

(** ** The asset object after the pipeline *)

(** Returning a second value along with the result changes neither the
    outcome nor the world: one step of the comparison, with the last line in
    which the result is post-processed. *)
Lemma tagged_bind {A B C D} (b : B) (m : M C) (k : C -> M A)
    (k' : C -> M (A * B)) (g : A -> D) (w : World) :
  (forall c w1,
     bind (k' c) (fun ra => ret (g ra.1, ra.2)) w1 =
     match bind (k c) (fun r => ret (g r)) w1 with
     | (Ok d, w') => (Ok (d, b), w')
     | (Raise e, w') => (Raise e, w')
     end) ->
  bind (bind m k') (fun ra => ret (g ra.1, ra.2)) w =
  match bind (bind m k) (fun r => ret (g r)) w with
  | (Ok d, w') => (Ok (d, b), w')
  | (Raise e, w') => (Raise e, w')
  end.
Proof.
  intros Hk. rewrite !bind_assoc. unfold bind at 1 3.
  destruct (m w) as [[c|e] w1]; [apply Hk|reflexivity].
Qed.

Ltac tagged_step :=
  first [reflexivity
        |apply tagged_bind; intros ? ?; cbv beta].

(** [_run_on_asset_in_place] is [_run_on_asset], with the asset that the
    call leaves: the asset it was given on a cache hit, and that asset
    through [_set_asset_use_path_as_workpath] on a miss. *)
Lemma run_on_asset_in_place_spec `{Collaborators} `{ExecutorKind}
    (self : Executor) (asset : Asset) (w : World) :
  _run_on_asset_in_place self asset w =
  match _run_on_asset self asset w with
  | (Ok result, w') => (Ok (result, asset_left self asset w), w')
  | (Raise e, w') => (Raise e, w')
  end.
Proof.
  unfold _run_on_asset_in_place, _run_on_asset, asset_left, cached.
  set (load := if result_store self
               then result_store_load asset (executor_id self)
               else ret None).
  assert (Hload : exists w1, load w = (Ok (if result_store self
                     then store w !! (asset_str asset, executor_id self)
                     else None), w1)).
  { unfold load. destruct (result_store self); eexists; reflexivity. }
  destruct Hload as (w1 & Hload).
  rewrite !(bind_ok _ _ _ _ _ Hload).
  destruct (if result_store self
            then store w !! (asset_str asset, executor_id self)
            else None) as [r|]; cbv zeta; repeat tagged_step.
Qed.

Lemma run_on_asset_in_place_world `{Collaborators} `{ExecutorKind}
    (self : Executor) (asset : Asset) (w : World) :
  (_run_on_asset_in_place self asset w).2 = (_run_on_asset self asset w).2.
Proof.
  rewrite run_on_asset_in_place_spec.
  destruct (_run_on_asset self asset w) as [[result|e] w']; reflexivity.
Qed.

(** ** The lock around a job *)

Lemma emits_map_M {A B} (P : Event -> bool) (f : A -> M B) (l : list A) :
  (forall a, emits_only P (f a)) -> emits_only P (map_M f l).
Proof.
  intros Hf. induction l as [|a l IH]; cbn [map_M]; [apply emits_ret|].
  apply emits_bind; [apply Hf|intros b].
  apply emits_bind; [exact IH|intros bs; apply emits_ret].
Qed.

Lemma emits_Executor_init `{Collaborators} `{ExecutorKind} (P : Event -> bool)
    (l : list Asset) (logger fifo_mode delete_workdir result_store : bool)
    (optional_dict optional_dict2 : option (gmap string string)) :
  emits_only P (Executor_init l logger fifo_mode delete_workdir result_store
                  optional_dict optional_dict2).
Proof.
  apply emits_nothing. intros w.
  destruct (executor_init_cases l logger fifo_mode delete_workdir
              result_store optional_dict optional_dict2 w)
    as [_ [[ex Hr]|[msg Hr]]]; rewrite Hr; reflexivity.
Qed.

Lemma emits_run_on_asset_no_lock `{Collaborators} `{ExecutorKind}
    (self : Executor) (asset : Asset) :
  emits_only no_lock_call (_run_on_asset self asset).
Proof.
  unfold _run_on_asset, _assert_paths, _prepare_log_file, _remove_log,
    _close_ref_workfile, _close_dis_workfile, _open_ref_workfile,
    _open_dis_workfile.
  cbv zeta. repeat emits_step; reflexivity.
Qed.

(** X5. A job of [run_executors_in_parallel] acquires its lock first.  When
    it completes, the release of the lock is its last call; when the
    constructor or the pipeline raises, the lock is never released.  In
    between no lock is touched. *)
Theorem run_executor_lock_discipline `{Collaborators} `{ExecutorKind}
    (args : JobArgs) (w : World) :
  exists evs,
    Forall (fun e => no_lock_call e = true) evs /\
    match (run_executor args w).1 with
    | Ok _ =>
        trace (run_executor args w).2 =
          trace w ++ [EvAcquire (arg_lock args)] ++ evs ++
          [EvRelease (arg_lock args)]
    | Raise _ =>
        trace (run_executor args w).2 =
          trace w ++ [EvAcquire (arg_lock args)] ++ evs
    end.
Proof.
  set (w1 := with_trace (trace w ++ [EvAcquire (arg_lock args)]) w).
  set (job := bind
                (Executor_init [arg_asset args] false (arg_fifo_mode args)
                   (arg_delete_workdir args) (arg_result_store args)
                   (arg_optional_dict args) (arg_optional_dict2 args))
                (fun executor => Executor_run executor false [])).
  assert (Hshape : run_executor args w =
                   bind job (fun executor =>
                               bind (lock_release (arg_lock args))
                                    (fun _ => ret executor)) w1).
  { unfold run_executor, job. rewrite bind_assoc. reflexivity. }
  assert (Hquiet : emits_only no_lock_call job).
  { unfold job.
    apply emits_bind; [apply emits_Executor_init|intros ex].
    unfold Executor_run.
    apply emits_bind; [repeat emits_step; reflexivity|intros _].
    cbv iota.
    apply emits_bind; [|intros rs; apply emits_ret].
    apply emits_map_M. intros a w0. rewrite run_on_asset_in_place_world.
    apply emits_run_on_asset_no_lock. }
  destruct (Hquiet w1) as (evs & Ht & Hp).
  exists evs. split; [exact Hp|].
  rewrite Hshape.
  destruct (job w1) as [[ex|e] w2] eqn:Hjob; simpl in Ht.
  - rewrite (bind_ok _ _ _ _ _ Hjob). simpl.
    rewrite Ht. subst w1. simpl. rewrite <- !app_assoc. reflexivity.
  - rewrite (bind_raise _ _ _ _ _ Hjob). simpl.
    rewrite Ht. subst w1. simpl. rewrite <- !app_assoc. reflexivity.
Qed.

Lemma run_executor_lock_discipline_witness :
  exists evs,
    Forall (fun e => no_lock_call e = true) evs /\
    match (@run_executor linux_prompt demo_kind job_same_dims
             (demo_world [] [])).1 with
    | Ok _ =>
        trace (@run_executor linux_prompt demo_kind job_same_dims
                 (demo_world [] [])).2 =
          trace (demo_world [] []) ++ [EvAcquire 7%nat] ++ evs ++
          [EvRelease 7%nat]
    | Raise _ =>
        trace (@run_executor linux_prompt demo_kind job_same_dims
                 (demo_world [] [])).2 =
          trace (demo_world [] []) ++ [EvAcquire 7%nat] ++ evs
    end.
Proof.
  exact (@run_executor_lock_discipline linux_prompt demo_kind job_same_dims
           (demo_world [] [])).
Defined.

(** Without its inputs the job raises, and its lock stays held. *)
Example run_executor_leaves_lock_held :
  let r := @run_executor linux_prompt demo_kind job_same_dims (demo_world [] []) in
  r.1 = Raise (AssertionError "Reference path /in/a_ref.yuv does not exist.") /\
  trace r.2 = [EvAcquire 7%nat; EvPathExists "/in/a_ref.yuv" false].
Proof. split; vm_compute; reflexivity. Qed.

(** ** The jobs of a run, each in its turn *)

Lemma world_after_app {A B} (func : A -> M B) (list_args : list A)
    (t1 t2 : list nat) (w : World) :
  world_after func list_args (t1 ++ t2) w
  = world_after func list_args t2 (world_after func list_args t1 w).
Proof.
  revert w. induction t1 as [|i t1 IH]; intros w; [reflexivity|apply IH].
Qed.


Lemma turn_of_None (idx : nat) (order : list nat) :
  idx ∉ order -> turn_of idx order = None.
Proof.
  induction order as [|i order IH]; intros Hnot; [reflexivity|].
  cbn [turn_of]. apply not_elem_of_cons in Hnot as [Hne Hnot].
  destruct (decide (i = idx)); [congruence|]. rewrite (IH Hnot). reflexivity.
Qed.

Lemma turn_of_Some (idx : nat) (order : list nat) :
  forall k, turn_of idx order = Some k -> order !! k = Some idx.
Proof.
  induction order as [|i order IH]; intros k Hk; [discriminate Hk|].
  cbn [turn_of] in Hk. destruct (decide (i = idx)) as [->|Hne].
  - injection Hk as <-. reflexivity.
  - destruct (turn_of idx order) as [k'|]; [|discriminate Hk].
    injection Hk as <-. exact (IH k' eq_refl).
Qed.

Lemma turn_of_elem_of (idx : nat) (order : list nat) :
  idx ∈ order -> is_Some (turn_of idx order).
Proof.
  induction order as [|i order IH]; intros Hin; [inversion Hin|].
  cbn [turn_of]. destruct (decide (i = idx)); [eauto|].
  apply elem_of_cons in Hin as [?|Hin]; [congruence|].
  destruct (IH Hin) as [k ->]. eauto.
Qed.

(** A job takes its turn in the world its predecessors left. *)
Lemma world_of_job_cons {A B} (func : A -> M B) (list_args : list A)
    (i : nat) (order : list nat) (w : World) (idx : nat) :
  world_of_job func list_args (i :: order) w idx =
  if decide (i = idx) then Some w
  else world_of_job func list_args order
         match list_args !! i with
         | Some args => (func args w).2
         | None => w
         end idx.
Proof.
  unfold world_of_job. cbn [turn_of].
  destruct (decide (i = idx)); [reflexivity|].
  destruct (turn_of idx order); reflexivity.
Qed.

Lemma world_of_job_None {A B} (func : A -> M B) (list_args : list A)
    (order : list nat) (w : World) (idx : nat) :
  idx ∉ order -> world_of_job func list_args order w idx = None.
Proof.
  intros Hnot. unfold world_of_job. rewrite (turn_of_None _ _ Hnot). reflexivity.
Qed.

Lemma world_of_job_is_Some {A B} (func : A -> M B) (list_args : list A)
    (order : list nat) (w : World) (idx : nat) :
  idx ∈ order -> is_Some (world_of_job func list_args order w idx).
Proof.
  intros Hin. unfold world_of_job.
  destruct (turn_of_elem_of _ _ Hin) as [k ->]. eauto.
Qed.

(** Without the pool the job of index [i] runs after the jobs before it. *)
Lemma world_of_job_seq {A B} (func : A -> M B) (list_args : list A)
    (n : nat) (w : World) (i : nat) :
  (i < n)%nat ->
  world_of_job func list_args (seq 0 n) w i
  = Some (world_after func list_args (seq 0 i) w).
Proof.
  intros Hlt. unfold world_of_job.
  assert (Hturn : turn_of i (seq 0 n) = Some i).
  { destruct (turn_of_elem_of i (seq 0 n)) as [k Hk].
    - apply elem_of_seq. lia.
    - rewrite Hk. f_equal.
      apply turn_of_Some in Hk. apply lookup_seq in Hk. lia. }
  rewrite Hturn. cbn. rewrite take_seq, Nat.min_l by lia. reflexivity.
Qed.

(** The dictionary that the workers fill: under the index of a job, what the
    job returned in its turn. *)
Lemma parallel_map_workers_lookup {A B} (func : A -> M B) (list_args : list A)
    (order : list nat) :
  forall (d : gmap nat B) (w : World),
    NoDup order ->
    forall idx,
      (parallel_map_workers func list_args order d w).1 !! idx =
      match world_of_job func list_args order w idx, list_args !! idx with
      | Some w_i, Some args =>
          match (func args w_i).1 with
          | Ok b => Some b
          | Raise _ => d !! idx
          end
      | _, _ => d !! idx
      end.
Proof.
  induction order as [|i order IH]; intros d w Hnodup idx; [reflexivity|].
  apply NoDup_cons in Hnodup as [Hnot Hnodup].
  rewrite world_of_job_cons. cbn [parallel_map_workers].
  destruct (decide (i = idx)) as [->|Hne].
  - destruct (list_args !! idx) as [args|] eqn:Hargs.
    + destruct (func args w) as [[b|e] w1]; cbn [fst];
        rewrite (IH _ _ Hnodup), (world_of_job_None _ _ _ _ _ Hnot);
        [apply lookup_insert_eq|reflexivity].
    + rewrite (IH _ _ Hnodup), (world_of_job_None _ _ _ _ _ Hnot). reflexivity.
  - destruct (list_args !! i) as [args_i|].
    + destruct (func args_i w) as [[b|e] w1]; cbn [snd];
        rewrite (IH _ _ Hnodup); [|reflexivity].
      rewrite (lookup_insert_ne _ _ _ _ Hne). reflexivity.
    + exact (IH _ _ Hnodup idx).
Qed.

Lemma parallel_map_workers_world {A B} (func : A -> M B) (list_args : list A)
    (order : list nat) :
  forall (d : gmap nat B) (w : World),
    (parallel_map_workers func list_args order d w).2
    = world_after func list_args order w.
Proof.
  induction order as [|i order IH]; intros d w; [reflexivity|].
  cbn [parallel_map_workers world_after].
  destruct (list_args !! i) as [args|]; [|apply IH].
  destruct (func args w) as [[b|e] w1]; apply IH.
Qed.

(** Reading the results back by index changes nothing, and succeeds when
    every index has an entry. *)
Lemma read_back_ok {B} (d : gmap nat B) (idxs : list nat) :
  forall (w w' : World) (bs : list B),
    map_M (fun idx : nat =>
             match d !! idx with
             | Some b => ret b
             | None => raise (KeyError (pretty idx))
             end) idxs w = (Ok bs, w') ->
    w' = w /\ Forall2 (fun idx b => d !! idx = Some b) idxs bs.
Proof.
  induction idxs as [|idx idxs IH]; intros w w' bs Hrun.
  - injection Hrun as <- <-. split; [reflexivity|constructor].
  - cbn [map_M] in Hrun.
    apply bind_inv_ok in Hrun as (b & w1 & Hb & Hrun).
    apply bind_inv_ok in Hrun as (bs' & w2 & Hbs & Hret).
    injection Hret as <- <-.
    destruct (d !! idx) as [b'|] eqn:Hd; [|discriminate Hb].
    injection Hb as <- <-.
    destruct (IH _ _ _ Hbs) as [-> Hall].
    split; [reflexivity|constructor; assumption].
Qed.

Lemma read_back_total {B} (d : gmap nat B) (idxs : list nat) (w : World) :
  (forall idx, idx ∈ idxs -> is_Some (d !! idx)) ->
  exists bs,
    map_M (fun idx : nat =>
             match d !! idx with
             | Some b => ret b
             | None => raise (KeyError (pretty idx))
             end) idxs w = (Ok bs, w).
Proof.
  induction idxs as [|idx idxs IH]; intros Hall; [exists []; reflexivity|].
  destruct (Hall idx) as [b Hb]; [left|].
  destruct IH as [bs Hbs]; [intros i Hi; apply Hall; right; exact Hi|].
  exists (b :: bs). cbn [map_M]. rewrite Hb.
  unfold bind at 1. cbn. rewrite (bind_ok _ _ _ _ _ Hbs). reflexivity.
Qed.

(** The pool: when every job gets one turn, [parallel_map] returns if and
    only if every job returns in its turn, and then it returns, under each
    index, what the job of that index returned in its turn. *)
Lemma parallel_map_in_turn {A B} (func : A -> M B) (list_args : list A)
    (order : list nat) (w : World) :
  order ≡ₚ seq 0 (length list_args) ->
  (forall bs w',
     parallel_map func list_args order w = (Ok bs, w') ->
     w' = world_after func list_args order w /\
     length bs = length list_args /\
     forall i args, list_args !! i = Some args ->
       exists w_i b,
         world_of_job func list_args order w i = Some w_i /\
         (func args w_i).1 = Ok b /\ bs !! i = Some b) /\
  ((forall i args w_i,
      list_args !! i = Some args ->
      world_of_job func list_args order w i = Some w_i ->
      exists b, (func args w_i).1 = Ok b) ->
   exists bs,
     parallel_map func list_args order w
     = (Ok bs, world_after func list_args order w)).
Proof.
  intros Hperm.
  assert (Hnodup : NoDup order) by (rewrite Hperm; apply NoDup_seq).
  assert (Hturn : forall i, (i < length list_args)%nat -> i ∈ order).
  { intros i Hi. rewrite Hperm. apply elem_of_seq. lia. }
  unfold parallel_map. split.
  - intros bs w' Hrun.
    apply bind_inv_ok in Hrun as (d & w1 & Hd & Hread).
    injection Hd as <- <-.
    apply read_back_ok in Hread as [-> Hread].
    rewrite parallel_map_workers_world.
    split; [reflexivity|].
    assert (Hlen : length bs = length list_args).
    { rewrite <- (Forall2_length _ _ _ Hread), length_seq. reflexivity. }
    split; [exact Hlen|].
    intros i args Hargs.
    assert (Hi : seq 0 (length list_args) !! i = Some i).
    { apply lookup_seq. split; [reflexivity|]. eapply lookup_lt_Some, Hargs. }
    destruct (Forall2_lookup_l _ _ _ _ _ Hread Hi) as (b & Hb & Hdi).
    rewrite (parallel_map_workers_lookup _ _ _ _ _ Hnodup), Hargs in Hdi.
    destruct (world_of_job func list_args order w i) as [w_i|];
      [|rewrite lookup_empty in Hdi; discriminate Hdi].
    exists w_i, b.
    destruct (func args w_i).1 as [b'|e];
      [|rewrite lookup_empty in Hdi; discriminate Hdi].
    injection Hdi as ->. auto.
  - intros Hall.
    destruct (read_back_total
                (parallel_map_workers func list_args order ∅ w).1
                (seq 0 (length list_args))
                (parallel_map_workers func list_args order ∅ w).2)
      as [bs Hbs].
    + intros i Hi. apply elem_of_seq in Hi as [_ Hi]. cbn in Hi.
      destruct (lookup_lt_is_Some_2 list_args i Hi) as [args Hargs].
      rewrite (parallel_map_workers_lookup _ _ _ _ _ Hnodup), Hargs.
      destruct (world_of_job_is_Some func list_args order w i (Hturn i Hi))
        as [w_i Hw].
      rewrite Hw. destruct (Hall i args w_i Hargs Hw) as [b ->]. eauto.
    + exists bs. unfold bind at 1. cbn beta iota zeta.
      rewrite Hbs, parallel_map_workers_world. reflexivity.
Qed.

(** Without the pool: [map] runs the jobs in the order of the list, each in
    the world its predecessors left. *)
Lemma map_M_turns {A B} (func : A -> M B) (l : list A) :
  forall (pre : list A) (w : World),
    (forall bs w',
       map_M func l w = (Ok bs, w') ->
       w' = world_after func (pre ++ l) (seq (length pre) (length l)) w /\
       length bs = length l /\
       forall i args, l !! i = Some args ->
         exists b,
           (func args
              (world_after func (pre ++ l) (seq (length pre) i) w)).1 = Ok b /\
           bs !! i = Some b) /\
    ((forall i args, l !! i = Some args ->
        exists b,
          (func args
             (world_after func (pre ++ l) (seq (length pre) i) w)).1 = Ok b) ->
     exists bs,
       map_M func l w
       = (Ok bs, world_after func (pre ++ l) (seq (length pre) (length l)) w)).
Proof.
  induction l as [|a l IH]; intros pre w.
  - split.
    + intros bs w' Hrun. injection Hrun as <- <-.
      split; [reflexivity|]. split; [reflexivity|].
      intros i args Hi. discriminate Hi.
    + intros _. exists []. reflexivity.
  - assert (Hstep : forall n,
              world_after func (pre ++ a :: l) (seq (length pre) (S n)) w
              = world_after func ((pre ++ [a]) ++ l)
                  (seq (length (pre ++ [a])) n) (func a w).2).
    { intros n. cbn [seq world_after].
      rewrite list_lookup_middle by reflexivity.
      rewrite <- app_assoc, length_app. cbn [length app].
      rewrite Nat.add_1_r. reflexivity. }
    destruct (IH (pre ++ [a]) (func a w).2) as [IHok IHall].
    split.
    + intros bs w' Hrun. cbn [map_M] in Hrun.
      apply bind_inv_ok in Hrun as (b & w1 & Hb & Hrun).
      apply bind_inv_ok in Hrun as (bs' & w2 & Hbs & Hret).
      injection Hret as <- <-.
      rewrite Hb in IHok. cbn [snd] in IHok.
      destruct (IHok _ _ Hbs) as (Hw & Hlen & Hjobs).
      cbn [length]. rewrite Hstep, Hb. cbn [snd].
      split; [exact Hw|]. split; [rewrite Hlen; reflexivity|].
      intros [|i] args Hi.
      * injection Hi as <-. exists b. cbn [seq world_after]. rewrite Hb. auto.
      * rewrite Hstep, Hb. cbn [snd]. exact (Hjobs i args Hi).
    + intros Hall. destruct (Hall 0%nat a eq_refl) as [b Hb].
      cbn [seq world_after] in Hb.
      destruct (func a w) as [[b'|e] w1] eqn:Hrun; [|discriminate Hb].
      cbn [snd] in IHall.
      destruct IHall as [bs Hbs].
      { intros i args Hi. specialize (Hall (S i) args Hi).
        rewrite Hstep in Hall. exact Hall. }
      exists (b' :: bs). cbn [map_M length].
      rewrite (bind_ok _ _ _ _ _ Hrun), (bind_ok _ _ _ _ _ Hbs).
      rewrite Hstep. reflexivity.
Qed.

(** The jobs of a run, with the pool or without it: the run returns if and
    only if every job returns in its turn, and it then returns, under each
    index, what the job of that index returned in its turn. *)
Lemma jobs_in_turn {A B} (func : A -> M B) (list_args : list A)
    (parallelize : bool) (completion : list nat) (w : World) :
  (parallelize = true -> completion ≡ₚ seq 0 (length list_args)) ->
  let order := job_order parallelize completion (length list_args) in
  let run := if parallelize
             then parallel_map func list_args completion
             else map_M func list_args in
  (forall bs w',
     run w = (Ok bs, w') ->
     w' = world_after func list_args order w /\
     length bs = length list_args /\
     forall i args, list_args !! i = Some args ->
       exists w_i b,
         world_of_job func list_args order w i = Some w_i /\
         (func args w_i).1 = Ok b /\ bs !! i = Some b) /\
  ((forall i args w_i,
      list_args !! i = Some args ->
      world_of_job func list_args order w i = Some w_i ->
      exists b, (func args w_i).1 = Ok b) ->
   exists bs, run w = (Ok bs, world_after func list_args order w)).
Proof.
  intros Hperm order run. subst order run. unfold job_order.
  destruct parallelize.
  - exact (parallel_map_in_turn func list_args completion w (Hperm eq_refl)).
  - destruct (map_M_turns func list_args [] w) as [Hok Hall].
    cbn [app length] in Hok, Hall. split.
    + intros bs w' Hrun.
      destruct (Hok _ _ Hrun) as (Hw & Hlen & Hjobs).
      split; [exact Hw|]. split; [exact Hlen|].
      intros i args Hi. destruct (Hjobs i args Hi) as (b & Hb & Hbs).
      eexists _, b. split; [|split; [exact Hb|exact Hbs]].
      apply world_of_job_seq. eapply lookup_lt_Some, Hi.
    + intros Hjobs. apply Hall. intros i args Hi.
      apply (Hjobs i args _ Hi).
      apply world_of_job_seq. eapply lookup_lt_Some, Hi.
Qed.

(** ** Results in the order of the input *)

(** A constructor that completes returns the executor of its arguments. *)
Lemma executor_init_ok `{Collaborators} `{ExecutorKind}
    (l : list Asset) (logger fifo_mode delete_workdir result_store : bool)
    (optional_dict optional_dict2 : option (gmap string string))
    (w w' : World) (executor : Executor) :
  Executor_init l logger fifo_mode delete_workdir result_store optional_dict
    optional_dict2 w = (Ok executor, w') ->
  executor = {| assets := l; logger := logger; fifo_mode := fifo_mode;
                delete_workdir := delete_workdir; results := [];
                result_store := result_store; optional_dict := optional_dict;
                optional_dict2 := optional_dict2 |}.
Proof.
  unfold Executor_init. intros Hrun.
  apply bind_inv_ok in Hrun as (? & w1 & _ & Hrun).
  apply bind_inv_ok in Hrun as (? & w2 & _ & Hrun).
  apply bind_inv_ok in Hrun as (? & w3 & _ & Hrun).
  injection Hrun as <- _. reflexivity.
Qed.

(** The arguments of the jobs follow the assets of the input. *)
Lemma run_executors_list_args_spec (asset_list : list Asset)
    (fifo_mode delete_workdir result_store : bool)
    (optional_dict optional_dict2 : option (gmap string string)) (w : World) :
  exists list_args w',
    run_executors_list_args asset_list fifo_mode delete_workdir result_store
      optional_dict optional_dict2 w = (Ok list_args, w') /\
    Forall2 (job_args_of fifo_mode delete_workdir result_store optional_dict
               optional_dict2) asset_list list_args.
Proof.
  destruct (create_locks_spec asset_list ∅ [] w (lock_table_ok_empty w))
    as (m' & new & w' & Hrun & _ & _ & Hall).
  eexists _, w'. split.
  - unfold run_executors_list_args. rewrite (bind_ok _ _ _ _ _ Hrun).
    reflexivity.
  - simpl. apply Forall2_same_length_lookup_2.
    + rewrite length_fmap, length_zip_with, (Forall2_length _ _ _ Hall). lia.
    + intros i a args Ha Hargs.
      apply list_lookup_fmap_Some in Hargs as ([a' lock] & -> & Hpair).
      apply lookup_zip_with_Some in Hpair as (a'' & lock' & Heq & Ha'' & _).
      injection Heq as -> ->. simpl.
      assert (a'' = a) by congruence. subst a''. reflexivity.
Qed.

(** A job that returns: its executor holds the one result that the pipeline
    returned on its asset, once the lock was acquired, and the asset as the
    pipeline left it. *)
Lemma run_executor_returns `{Collaborators} `{ExecutorKind}
    (args : JobArgs) (w : World) (executor : Executor) :
  (run_executor args w).1 = Ok executor ->
  exists result,
    (_run_on_asset
       (job_executor (arg_asset args) (arg_fifo_mode args)
          (arg_delete_workdir args) (arg_result_store args)
          (arg_optional_dict args) (arg_optional_dict2 args))
       (arg_asset args) (lock_acquired (arg_lock args) w)).1 = Ok result /\
    executor =
      set_results [result]
        (set_assets
           [asset_left
              (job_executor (arg_asset args) (arg_fifo_mode args)
                 (arg_delete_workdir args) (arg_result_store args)
                 (arg_optional_dict args) (arg_optional_dict2 args))
              (arg_asset args) (lock_acquired (arg_lock args) w)]
           (job_executor (arg_asset args) (arg_fifo_mode args)
              (arg_delete_workdir args) (arg_result_store args)
              (arg_optional_dict args) (arg_optional_dict2 args))).
Proof.
  unfold run_executor. intros Hrun.
  destruct (bind _ _ w) as [[ex|e] w'] eqn:Hjob; [|discriminate Hrun].
  cbn [fst] in Hrun. injection Hrun as ->.
  apply bind_inv_ok in Hjob as ([] & w1 & Hacq & Hjob).
  injection Hacq as <-. fold (lock_acquired (arg_lock args) w) in Hjob.
  apply bind_inv_ok in Hjob as (ex0 & w2 & Hinit & Hjob).
  apply bind_inv_ok in Hjob as (ex1 & w3 & Hexec & Hjob).
  apply bind_inv_ok in Hjob as (? & w4 & _ & Hjob).
  injection Hjob as <- _.
  assert (Hw2 : w2 = lock_acquired (arg_lock args) w).
  { destruct (executor_init_cases [arg_asset args] false (arg_fifo_mode args)
                (arg_delete_workdir args) (arg_result_store args)
                (arg_optional_dict args) (arg_optional_dict2 args)
                (lock_acquired (arg_lock args) w))
      as [_ [[ex' Hr]|[msg Hr]]]; congruence. }
  subst w2. apply executor_init_ok in Hinit.
  fold (job_executor (arg_asset args) (arg_fifo_mode args)
          (arg_delete_workdir args) (arg_result_store args)
          (arg_optional_dict args) (arg_optional_dict2 args)) in Hinit.
  subst ex0.
  unfold Executor_run in Hexec. cbn [logger job_executor] in Hexec.
  apply bind_inv_ok in Hexec as ([] & w5 & Hlog & Hexec).
  injection Hlog as <-.
  apply bind_inv_ok in Hexec as (rs & w6 & Hmap & Hexec).
  injection Hexec as <- _.
  cbn [assets map_M] in Hmap.
  apply bind_inv_ok in Hmap as ([result asset'] & w7 & Hpipe & Hmap).
  injection Hmap as <- _.
  rewrite run_on_asset_in_place_spec in Hpipe.
  match type of Hpipe with
  | context [_run_on_asset ?s ?a ?w0] =>
      destruct (_run_on_asset s a w0) as [[r|e] w8] eqn:Hrun
  end; [|discriminate Hpipe].
  injection Hpipe as <- <- _.
  exists r. split; reflexivity.
Qed.

(** Picking [executor.results[0]] changes nothing, and succeeds when no
    executor is without results. *)
Lemma pick_results_ok (executors : list Executor) :
  forall (w w' : World) (rs : list Result),
    map_M (fun executor : Executor =>
             match results executor with
             | r :: _ => ret r
             | [] => raise (IndexError "list index out of range")
             end) executors w = (Ok rs, w') ->
    w' = w /\
    Forall2 (fun executor r => head (results executor) = Some r) executors rs.
Proof.
  induction executors as [|ex executors IH]; intros w w' rs Hrun.
  - injection Hrun as <- <-. split; [reflexivity|constructor].
  - cbn [map_M] in Hrun.
    apply bind_inv_ok in Hrun as (r & w1 & Hr & Hrun).
    apply bind_inv_ok in Hrun as (rs' & w2 & Hrs & Hret).
    injection Hret as <- <-.
    destruct (results ex) as [|r' rest] eqn:Hres; [discriminate Hr|].
    injection Hr as <- <-.
    destruct (IH _ _ _ Hrs) as [-> Hall].
    split; [reflexivity|constructor; [rewrite Hres; reflexivity|exact Hall]].
Qed.

Lemma pick_results_total (executors : list Executor) (w : World) :
  (forall executor, executor ∈ executors -> results executor <> []) ->
  exists rs,
    map_M (fun executor : Executor =>
             match results executor with
             | r :: _ => ret r
             | [] => raise (IndexError "list index out of range")
             end) executors w = (Ok rs, w).
Proof.
  induction executors as [|ex executors IH]; intros Hall;
    [exists []; reflexivity|].
  destruct IH as [rs Hrs]; [intros e He; apply Hall; right; exact He|].
  destruct (results ex) as [|r rest] eqn:Hres;
    [exfalso; exact (Hall ex (list_elem_of_here _ _) Hres)|].
  exists (r :: rs). cbn [map_M]. rewrite Hres.
  unfold bind at 1. cbn. rewrite (bind_ok _ _ _ _ _ Hrs). reflexivity.
Qed.

(** C9. Let the pool complete every job once, in any order.  When
    [run_executors_in_parallel] returns, its list of results has one Result
    for each asset of the input, and the Result of index [i] is the one that
    the job of the asset of index [i] returned in this run: the only result
    of the executor that this job returned in its turn, in the world that the
    jobs before it had left, which is what the pipeline returned on that
    asset once the lock of the job was acquired.  This holds in the
    sequential fallback, where the jobs run in the order of the input, and
    with the pool, whatever the order in which it completes the jobs.  The
    call does return when the construction over the whole input passes and
    every job returns in its turn. *)
Theorem results_in_input_order `{Collaborators} `{ExecutorKind}
    (asset_list : list Asset)
    (fifo_mode delete_workdir parallelize logger result_store : bool)
    (optional_dict optional_dict2 : option (gmap string string))
    (completion : list nat) (w : World) :
  (parallelize = true -> completion ≡ₚ seq 0 (length asset_list)) ->
  exists list_args w0,
    run_executors_list_args asset_list fifo_mode delete_workdir result_store
      optional_dict optional_dict2 w = (Ok list_args, w0) /\
    let order := job_order parallelize completion (length asset_list) in
    (forall executors result_list w',
       run_executors_in_parallel asset_list fifo_mode delete_workdir
         parallelize logger result_store optional_dict optional_dict2
         completion w
       = (Ok (executors, result_list), w') ->
       length result_list = length asset_list /\
       forall i asset, asset_list !! i = Some asset ->
         exists args w_i executor result,
           list_args !! i = Some args /\
           job_args_of fifo_mode delete_workdir result_store optional_dict
             optional_dict2 asset args /\
           world_of_job run_executor list_args order w0 i = Some w_i /\
           (run_executor args w_i).1 = Ok executor /\
           (_run_on_asset
              (job_executor asset fifo_mode delete_workdir result_store
                 optional_dict optional_dict2)
              asset (lock_acquired (arg_lock args) w_i)).1 = Ok result /\
           executors !! i = Some executor /\
           results executor = [result] /\
           result_list !! i = Some result) /\
    ((exists executor,
        Executor_init asset_list logger fifo_mode true result_store
          optional_dict optional_dict2 w = (Ok executor, w)) ->
     (forall i args w_i,
        list_args !! i = Some args ->
        world_of_job run_executor list_args order w0 i = Some w_i ->
        exists executor, (run_executor args w_i).1 = Ok executor) ->
     exists executors result_list w',
       run_executors_in_parallel asset_list fifo_mode delete_workdir
         parallelize logger result_store optional_dict optional_dict2
         completion w
       = (Ok (executors, result_list), w')).
Proof.
  intros Hperm.
  destruct (run_executors_list_args_spec asset_list fifo_mode delete_workdir
              result_store optional_dict optional_dict2 w)
    as (list_args & w0 & Hargs & Hfollow).
  exists list_args, w0. split; [exact Hargs|].
  pose proof (Forall2_length _ _ _ Hfollow) as Hlen.
  rewrite Hlen in Hperm |- *.
  destruct (jobs_in_turn run_executor list_args parallelize completion w0 Hperm)
    as [Hok Hall].
  cbv zeta in Hok, Hall |- *.
  set (order := job_order parallelize completion (length list_args)) in *.
  (* what the executors of a completed run hold *)
  assert (Hheld : forall executors w3,
            (if parallelize
             then parallel_map run_executor list_args completion
             else map_M run_executor list_args) w0 = (Ok executors, w3) ->
            forall executor, executor ∈ executors ->
              exists result, results executor = [result]).
  { intros executors w3 Hexec executor Hin.
    destruct (Hok _ _ Hexec) as (_ & Hlen_ex & Hjobs).
    apply list_elem_of_lookup in Hin as [i Hi].
    destruct (lookup_lt_is_Some_2 list_args i) as [args Hargs_i].
    { rewrite <- Hlen_ex. eapply lookup_lt_Some, Hi. }
    destruct (Hjobs i args Hargs_i) as (w_i & ex & _ & Hjob & Hex).
    assert (ex = executor) by congruence. subst ex.
    destruct (run_executor_returns _ _ _ Hjob) as (result & _ & ->).
    exists result. reflexivity. }
  unfold run_executors_in_parallel. split.
  - intros executors result_list w' Hrun.
    apply bind_inv_ok in Hrun as (ex0 & w1 & Hinit & Hrun).
    assert (w1 = w).
    { destruct (executor_init_cases asset_list logger fifo_mode true
                  result_store optional_dict optional_dict2 w)
        as [_ [[ex' Hr]|[msg Hr]]]; congruence. }
    subst w1.
    rewrite (bind_ok _ _ _ _ _ Hargs) in Hrun.
    apply bind_inv_ok in Hrun as (executors' & w3 & Hexec & Hrun).
    apply bind_inv_ok in Hrun as (rs & w4 & Hres & Hret).
    injection Hret as <- <- _.
    destruct (Hok _ _ Hexec) as (_ & Hlen_ex & Hjobs).
    apply pick_results_ok in Hres as [_ Hres].
    split; [rewrite <- (Forall2_length _ _ _ Hres); exact Hlen_ex|].
    intros i asset Hasset.
    destruct (Forall2_lookup_l _ _ _ _ _ Hfollow Hasset) as (args & Hargs_i & Hof).
    destruct (Hjobs i args Hargs_i) as (w_i & executor & Hw & Hjob & Hex).
    destruct (run_executor_returns _ _ _ Hjob) as (result & Hpipe & Heq).
    destruct (Forall2_lookup_l _ _ _ _ _ Hres Hex) as (r & Hr & Hhead).
    exists args, w_i, executor, result.
    assert (Hone : results executor = [result]) by (rewrite Heq; reflexivity).
    rewrite Hone in Hhead. injection Hhead as <-.
    rewrite Hof in Hpipe. cbn [arg_asset arg_fifo_mode arg_delete_workdir
      arg_result_store arg_optional_dict arg_optional_dict2 arg_lock] in Hpipe.
    auto 10.
  - intros [ex0 Hinit] Hjobs.
    destruct (Hall Hjobs) as [executors Hexec].
    destruct (pick_results_total executors
                (world_after run_executor list_args order w0)) as [rs Hrs].
    { intros executor Hin.
      destruct (Hheld _ _ Hexec executor Hin) as [result ->]. discriminate. }
    exists executors, rs, (world_after run_executor list_args order w0).
    rewrite (bind_ok _ _ _ _ _ Hinit), (bind_ok _ _ _ _ _ Hargs).
    rewrite (bind_ok _ _ _ _ _ Hexec), (bind_ok _ _ _ _ _ Hrs).
    reflexivity.
Qed.

Lemma results_in_input_order_witness :
  match (@run_executors_in_parallel linux_prompt demo_kind three_assets
           true true true false false None None [2%nat; 0%nat; 1%nat]
           world_with_inputs).1 with
  | Ok (executors, result_list) =>
      length result_list = 3%nat /\
      exists list_args w0 args w_1 executor result,
        @run_executors_list_args three_assets true true false None None
          world_with_inputs = (Ok list_args, w0) /\
        list_args !! 1%nat = Some args /\
        world_of_job (@run_executor linux_prompt demo_kind) list_args
          [2%nat; 0%nat; 1%nat] w0 1 = Some w_1 /\
        (@run_executor linux_prompt demo_kind args w_1).1 = Ok executor /\
        (@_run_on_asset linux_prompt demo_kind
           (job_executor asset_rescaled true true false None None)
           asset_rescaled (lock_acquired (arg_lock args) w_1)).1 = Ok result /\
        executors !! 1%nat = Some executor /\
        results executor = [result] /\
        result_list !! 1%nat = Some result
  | Raise _ => False
  end.
Proof.
  destruct (@results_in_input_order linux_prompt demo_kind three_assets
              true true true false false None None [2%nat; 0%nat; 1%nat]
              world_with_inputs)
    as (list_args & w0 & Hargs & Horder & _).
  { intros _. apply perm_trans with [0%nat; 2%nat; 1%nat];
      [apply perm_swap|apply perm_skip, perm_swap]. }
  destruct (@run_executors_in_parallel linux_prompt demo_kind three_assets
              true true true false false None None [2%nat; 0%nat; 1%nat]
              world_with_inputs) as [[[executors result_list]|e] w'] eqn:Hrun;
    cbn [fst].
  - destruct (Horder executors result_list w' eq_refl) as [Hlen Hjobs].
    split; [exact Hlen|].
    destruct (Hjobs 1%nat asset_rescaled eq_refl)
      as (args & w_1 & executor & result & H1 & _ & H3 & H4 & H5 & H6 & H7 & H8).
    exists list_args, w0, args, w_1, executor, result. auto 10.
  - vm_compute in Hrun. discriminate Hrun.
Defined.

(** The pool completes the third job first and the second one last; the
    results come back in the order of the input all the same. *)
Example run_executors_in_parallel_scrambled :
  let r := @run_executors_in_parallel linux_prompt demo_kind three_assets
             true true true false false None None [2%nat; 0%nat; 1%nat]
             world_with_inputs in
  snd <$> (match r.1 with Ok er => Some er | Raise _ => None end)
  = Some [demo_result asset_same_dims; demo_result asset_rescaled;
          demo_result asset_same_dims_elsewhere] /\
  omap (fun e => match e with EvAcquire l => Some l | _ => None end) (trace r.2)
  = [0%nat; 0%nat; 1%nat].
Proof. split; vm_compute; reflexivity. Qed.

(** ** The results of [Executor.run] *)






(** Without the pool the executor sees what the pipeline assigned to its
    assets: the first and the third asset need no rescaling and are now
    worked on in place, the second one is not. *)
Example executor_run_sets_flags :
  let r := @Executor_run linux_prompt demo_kind
             (demo_executor three_assets false true true false) false []
             world_with_inputs in
  match r.1 with
  | Ok executor =>
      use_path_as_workpath <$> assets executor = [true; false; true] /\
      results executor
      = [demo_result asset_same_dims; demo_result asset_rescaled;
         demo_result asset_same_dims_elsewhere]
  | Raise _ => False
  end.
Proof. vm_compute. split; reflexivity. Qed.

(** With a result store the second run on an identity is a cache hit: the
    result of the third asset is the one saved for the first, and the third
    asset is left untouched. *)
Example executor_run_hit_leaves_asset :
  let r := @Executor_run linux_prompt demo_kind
             (demo_executor three_assets false true true true) false []
             world_with_inputs in
  match r.1 with
  | Ok executor =>
      use_path_as_workpath <$> assets executor = [true; false; false]
  | Raise _ => False
  end.
Proof. vm_compute. reflexivity. Qed.

(** ** One lock for each identity *)

(** The loop creates one lock for each identity that the table does not hold
    yet, and does nothing else. *)
Lemma create_locks_count (l : list Asset) :
  forall (m : gmap string nat) (locks : list nat) (w : World),
    exists m' locks',
      (size m <= size m')%nat /\
      dom m' = dom m ∪ list_to_set (asset_str <$> l) /\
      create_locks l m locks w =
        (Ok (m', locks'),
         with_next_lock (next_lock w + (size m' - size m))
           (with_trace
              (trace w ++ (EvNewLock <$> seq (next_lock w) (size m' - size m)))
              w)).
Proof.
  induction l as [|asset l IH]; intros m locks w.
  - exists m, locks. split; [lia|]. split.
    + simpl. rewrite union_empty_r_L. reflexivity.
    + simpl. rewrite Nat.sub_diag, Nat.add_0_r. simpl.
      rewrite app_nil_r. destruct w; reflexivity.
  - cbn [create_locks].
    destruct (m !! asset_str asset) as [lock|] eqn:Hlook.
    + destruct (IH m (locks ++ [lock]) w) as (m' & locks' & Hsize & Hdom & Hrun).
      exists m', locks'. split; [exact Hsize|]. split.
      * rewrite Hdom. cbn [fmap list_fmap list_to_set].
        assert (Hin : asset_str asset ∈ dom m) by (apply elem_of_dom; eauto).
        apply set_eq. intros s. rewrite !elem_of_union, elem_of_singleton.
        split; [tauto|]. intros [Hs|[->|Hs]]; tauto.
      * unfold bind.
        rewrite bool_decide_eq_false_2
          by (intros Hn; apply not_elem_of_dom in Hn; congruence).
        unfold ret. rewrite Hlook. exact Hrun.
    + set (w1 := with_next_lock (S (next_lock w))
                   (with_trace (trace w ++ [EvNewLock (next_lock w)]) w)).
      destruct (IH (<[asset_str asset := next_lock w]> m)
                   (locks ++ [next_lock w]) w1)
        as (m' & locks' & Hsize & Hdom & Hrun).
      rewrite (map_size_insert_None _ _ _ Hlook) in Hsize, Hrun.
      exists m', locks'. split; [lia|]. split.
      * rewrite Hdom, dom_insert_L. cbn [fmap list_fmap list_to_set].
        apply set_eq. intros s. rewrite !elem_of_union, elem_of_singleton.
        tauto.
      * unfold bind.
        rewrite bool_decide_eq_true_2 by (apply not_elem_of_dom; exact Hlook).
        unfold multiprocessing_Lock, ret. fold w1.
        rewrite lookup_insert_eq, Hrun.
        replace (size m' - size m)%nat with (S (size m' - S (size m))) by lia.
        subst w1. unfold with_next_lock, with_trace. simpl.
        rewrite <- app_assoc. simpl.
        replace (S (next_lock w + (size m' - S (size m))))
          with (next_lock w + S (size m' - S (size m)))%nat by lia.
        reflexivity.
Qed.

(** X7. The lock loop of [Executor.run] and of [run_executors_in_parallel]
    creates exactly as many locks as the assets have distinct identity
    strings, with consecutive fresh handles, and changes nothing else. *)
Theorem one_lock_per_identity (self : Executor) (asset_list : list Asset)
    (fifo_mode delete_workdir result_store : bool)
    (optional_dict optional_dict2 : option (gmap string string)) (w : World) :
  (exists list_args,
     Executor_run_list_args self w =
       (Ok list_args,
        with_next_lock
          (next_lock w + size (list_to_set (asset_str <$> assets self) : gset string))
          (with_trace
             (trace w ++
              (EvNewLock <$>
                 seq (next_lock w)
                   (size (list_to_set (asset_str <$> assets self) : gset string))))
             w))) /\
  (exists list_args,
     run_executors_list_args asset_list fifo_mode delete_workdir result_store
       optional_dict optional_dict2 w =
       (Ok list_args,
        with_next_lock
          (next_lock w + size (list_to_set (asset_str <$> asset_list) : gset string))
          (with_trace
             (trace w ++
              (EvNewLock <$>
                 seq (next_lock w)
                   (size (list_to_set (asset_str <$> asset_list) : gset string))))
             w))).
Proof.
  split.
  - destruct (create_locks_count (assets self) ∅ [] w)
      as (m' & locks' & _ & Hdom & Hrun).
    exists (zip (assets self) locks').
    unfold Executor_run_list_args. rewrite (bind_ok _ _ _ _ _ Hrun).
    rewrite dom_empty_L, union_empty_l_L in Hdom.
    rewrite <- Hdom, size_dom, map_size_empty, Nat.sub_0_r. reflexivity.
  - destruct (create_locks_count asset_list ∅ [] w)
      as (m' & locks' & _ & Hdom & Hrun).
    eexists.
    unfold run_executors_list_args. rewrite (bind_ok _ _ _ _ _ Hrun).
    rewrite dom_empty_L, union_empty_l_L in Hdom.
    rewrite <- Hdom, size_dom, map_size_empty, Nat.sub_0_r. reflexivity.
Qed.

Lemma one_lock_per_identity_witness :
  exists list_args,
    Executor_run_list_args (demo_executor three_assets false true true false)
      (demo_world [] [])
    = (Ok list_args,
       with_next_lock
         (next_lock (demo_world [] []) +
          size (list_to_set (asset_str <$> three_assets) : gset string))
         (with_trace
            (trace (demo_world [] []) ++
             (EvNewLock <$>
                seq (next_lock (demo_world [] []))
                  (size (list_to_set (asset_str <$> three_assets) : gset string))))
            (demo_world [] []))).
Proof.
  exact (proj1 (one_lock_per_identity
                  (demo_executor three_assets false true true false)
                  three_assets true true false None None (demo_world [] []))).
Defined.

(** Three assets with two identities: two locks. *)
Example two_locks_for_three_assets :
  trace (Executor_run_list_args (demo_executor three_assets false true true false)
           (demo_world [] [])).2
  = [EvNewLock 0; EvNewLock 1].
Proof. vm_compute. reflexivity. Qed.

(** ** Removing the results *)

Lemma remove_result_loop `{ExecutorKind} (self : Executor) (l : list Asset) :
  result_store self = true ->
  forall w : World,
    exists us w',
      map_M (_remove_result self) l w = (Ok us, w') /\
      fs w' = fs w /\
      forall key,
        store w' !! key =
          if bool_decide
               (key ∈ (fun a => (asset_str a, executor_id self)) <$> l)
          then None
          else store w !! key.
Proof.
  intros Hstore. induction l as [|a l IH]; intros w.
  - exists [], w. split; [reflexivity|]. split; [reflexivity|].
    intros key. rewrite bool_decide_eq_false_2; [reflexivity|].
    simpl. apply not_elem_of_nil.
  - destruct (IH (with_store (delete (asset_str a, executor_id self) (store w))
                    (with_trace
                       (trace w ++ [EvStoreDelete (asset_str a) (executor_id self)])
                       w)))
      as (us & w' & Hrun & Hfs & Hstore').
    exists (tt :: us), w'. split; [|split; [exact Hfs|]].
    + cbn [map_M]. unfold bind at 1. unfold _remove_result at 1.
      rewrite Hstore. unfold result_store_delete.
      unfold bind at 1. rewrite Hrun. reflexivity.
    + intros key. rewrite Hstore'. cbn [store with_store with_trace fmap list_fmap].
      repeat case_bool_decide; try reflexivity.
      * exfalso. match goal with Hn : ~ _ |- _ => apply Hn end.
        right. assumption.
      * match goal with
        | Hin : key ∈ _ :: _ |- _ => apply elem_of_cons in Hin as [->|Hin]
        end; [apply lookup_delete_eq|contradiction].
      * apply lookup_delete_ne. intros Heq. subst key.
        match goal with Hn : _ |- _ => apply Hn; left; reflexivity end.
Qed.

(** X8. With a result store, [remove_results] completes, leaves the files
    alone, and afterwards the store holds nothing for any asset of the
    executor under its executor id, while every other entry is as before: the
    next run of each of these assets is a cache miss.  Without a result store
    it does nothing at all. *)
Theorem remove_results_forgets `{Collaborators} `{ExecutorKind}
    (self : Executor) (w : World) :
  (result_store self = true ->
   (remove_results self w).1 = Ok tt /\
   fs (remove_results self w).2 = fs w /\
   (forall asset, asset ∈ assets self ->
      store (remove_results self w).2 !! (asset_str asset, executor_id self)
      = None) /\
   (forall key,
      (forall asset, asset ∈ assets self ->
         key <> (asset_str asset, executor_id self)) ->
      store (remove_results self w).2 !! key = store w !! key)) /\
  (result_store self = false -> remove_results self w = (Ok tt, w)).
Proof.
  split.
  - intros Hstore.
    destruct (remove_result_loop self (assets self) Hstore w)
      as (us & w' & Hrun & Hfs & Hkeys).
    unfold remove_results. rewrite (bind_ok _ _ _ _ _ Hrun). simpl.
    split; [reflexivity|]. split; [exact Hfs|]. split.
    + intros asset Hin. rewrite Hkeys.
      rewrite bool_decide_eq_true_2; [reflexivity|].
      apply list_elem_of_fmap. exists asset. split; [reflexivity|exact Hin].
    + intros key Hother. rewrite Hkeys.
      rewrite bool_decide_eq_false_2; [reflexivity|].
      intros Hin. apply list_elem_of_fmap in Hin as (asset & -> & Hin).
      exact (Hother asset Hin eq_refl).
  - intros Hnone. unfold remove_results.
    assert (Hloop : forall l w0, exists us,
              map_M (_remove_result self) l w0 = (Ok us, w0)).
    { induction l as [|a l IH]; intros w0; [exists []; reflexivity|].
      destruct (IH w0) as [us Hus]. exists (tt :: us).
      cbn [map_M]. unfold bind at 1. unfold _remove_result at 1.
      rewrite Hnone. unfold ret at 1. unfold bind at 1. rewrite Hus.
      reflexivity. }
    destruct (Hloop (assets self) w) as [us Hus].
    rewrite (bind_ok _ _ _ _ _ Hus). reflexivity.
Qed.

Lemma remove_results_forgets_witness :
  store (@remove_results demo_kind
           (demo_executor [asset_rescaled] false true true true)
           (demo_world [] [("b", "Demo_V0.1", demo_result asset_rescaled)])).2
  !! (asset_str asset_rescaled,
      @executor_id demo_kind (demo_executor [asset_rescaled] false true true true))
  = None.
Proof.
  apply (proj1 (proj2 (proj2
           (proj1 (@remove_results_forgets (linux (fun _ => None)) demo_kind
                     (demo_executor [asset_rescaled] false true true true)
                     (demo_world [] [("b", "Demo_V0.1", demo_result asset_rescaled)]))
                  eq_refl)))).
  apply (bool_decide_eq_true_1 _). vm_compute. reflexivity.
Defined.

(** ** What a completed run leaves behind *)

Lemma shrinks_same {A} (m : M A) :
  (forall w a w', m w = (Ok a, w') -> fs w' = fs w) -> shrinks m.
Proof. intros Hm w a w' Hrun. rewrite (Hm w a w' Hrun). reflexivity. Qed.

Lemma shrinks_ret {A} (a : A) : shrinks (ret a).
Proof. apply shrinks_same. intros w b w' Hr. injection Hr as _ <-. reflexivity. Qed.

Lemma shrinks_raise {A} (e : Error) : shrinks (raise e : M A).
Proof. intros w a w' Hr. discriminate Hr. Qed.

Lemma shrinks_bind {A B} (m : M A) (k : A -> M B) :
  shrinks m -> (forall a, shrinks (k a)) -> shrinks (bind m k).
Proof.
  intros Hm Hk w b w' Hrun.
  apply bind_inv_ok in Hrun as (a & w1 & Ha & Hb).
  etransitivity; [exact (Hk a w1 b w' Hb)|exact (Hm w a w1 Ha)].
Qed.

Lemma shrinks_emit (e : Event) : shrinks (emit e).
Proof. apply shrinks_same. intros w b w' Hr. injection Hr as _ <-. reflexivity. Qed.

Lemma shrinks_os_path_exists (p : string) : shrinks (os_path_exists p).
Proof. apply shrinks_same. intros w b w' Hr. injection Hr as _ <-. reflexivity. Qed.

Lemma shrinks_os_remove (p : string) : shrinks (os_remove p).
Proof.
  intros w b w' Hr. unfold os_remove in Hr.
  destruct (bool_decide (p ∈ fs w)); [|discriminate Hr].
  injection Hr as _ <-. simpl. apply subseteq_difference_l. reflexivity.
Qed.

Lemma shrinks_rmdir_handler `{Collaborators} (d : string) :
  shrinks (try_except_OSError (os_rmdir d)
             (fun errno => if (errno =? 39)%Z then ret tt else ret tt)).
Proof.
  intros w b w' Hr. unfold try_except_OSError, os_rmdir in Hr.
  destruct (rmdir_errno d (fs w)) as [errno|].
  - destruct (errno =? 39)%Z; injection Hr as _ <-; reflexivity.
  - injection Hr as _ <-. simpl. apply subseteq_difference_l. reflexivity.
Qed.

Lemma shrinks_read_result `{ExecutorKind} (asset : Asset) :
  shrinks (_read_result asset).
Proof.
  apply shrinks_same. intros w b w' Hr. unfold _read_result in Hr.
  destruct (read_result_effect asset (fs w)); [discriminate Hr|].
  injection Hr as _ <-. reflexivity.
Qed.

Lemma shrinks_result_store_save (result : Result) :
  shrinks (result_store_save result).
Proof. apply shrinks_same. intros w b w' Hr. injection Hr as _ <-. reflexivity. Qed.

Lemma shrinks_remove_log `{Collaborators} `{ExecutorKind} (self : Executor)
    (asset : Asset) :
  shrinks (_remove_log self asset).
Proof.
  unfold _remove_log. apply shrinks_bind; [apply shrinks_os_path_exists|].
  intros [|]; [apply shrinks_os_remove|apply shrinks_ret].
Qed.

Lemma shrinks_close_ref_workfile (asset : Asset) :
  shrinks (_close_ref_workfile asset).
Proof.
  intros w b w' Hr.
  destruct (close_ref_workfile_cases asset w)
    as [[_ Hc]|[(_ & _ & _ & Hc)|(_ & _ & _ & Hc)]]; rewrite Hc in Hr.
  - discriminate Hr.
  - injection Hr as _ <-. reflexivity.
  - injection Hr as _ <-. simpl. apply subseteq_difference_l. reflexivity.
Qed.

Lemma shrinks_close_dis_workfile (asset : Asset) :
  shrinks (_close_dis_workfile asset).
Proof.
  intros w b w' Hr.
  destruct (close_dis_workfile_cases asset w)
    as [[_ Hc]|[(_ & _ & _ & Hc)|(_ & _ & _ & Hc)]]; rewrite Hc in Hr.
  - discriminate Hr.
  - injection Hr as _ <-. reflexivity.
  - injection Hr as _ <-. simpl. apply subseteq_difference_l. reflexivity.
Qed.

Lemma ensures_bind_r {A B} (Q : gset string -> Prop) (m : M A) (k : A -> M B) :
  (forall a, ensures Q (k a)) -> ensures Q (bind m k).
Proof.
  intros Hk w b w' Hrun.
  apply bind_inv_ok in Hrun as (a & w1 & _ & Hb). exact (Hk a w1 b w' Hb).
Qed.

(** The absence of a path survives whatever creates no file. *)
Lemma ensures_absent_bind_l {A B} (p : string) (m : M A) (k : A -> M B) :
  ensures (fun files => p ∉ files) m -> (forall a, shrinks (k a)) ->
  ensures (fun files => p ∉ files) (bind m k).
Proof.
  intros Hm Hk w b w' Hrun.
  apply bind_inv_ok in Hrun as (a & w1 & Ha & Hb).
  intros Hin. apply (Hm w a w1 Ha). exact (Hk a w1 b w' Hb p Hin).
Qed.

Lemma ensures_absent_os_remove (p : string) :
  ensures (fun files => p ∉ files) (os_remove p).
Proof.
  intros w b w' Hr. unfold os_remove in Hr.
  destruct (bool_decide (p ∈ fs w)); [|discriminate Hr].
  injection Hr as _ <-. simpl. intros Hin.
  apply elem_of_difference in Hin as [_ Hn]. apply Hn, elem_of_singleton.
  reflexivity.
Qed.

Lemma ensures_absent_remove_log `{Collaborators} `{ExecutorKind}
    (self : Executor) (asset : Asset) :
  ensures (fun files => _get_log_file_path self asset ∉ files)
    (_remove_log self asset).
Proof.
  intros w b w' Hr. unfold _remove_log in Hr.
  apply bind_inv_ok in Hr as (ex & w1 & Hex & Hr).
  unfold os_path_exists in Hex. injection Hex as <- <-.
  destruct (bool_decide (_get_log_file_path self asset ∈ fs w)) eqn:Hin.
  - exact (ensures_absent_os_remove _ _ _ _ Hr).
  - injection Hr as _ <-. simpl. apply bool_decide_eq_false_1 in Hin. exact Hin.
Qed.

Lemma ensures_absent_close_ref_workfile (asset : Asset) :
  ensures (fun files => ref_workfile_path asset ∉ files)
    (_close_ref_workfile asset).
Proof.
  intros w b w' Hr.
  destruct (close_ref_workfile_cases asset w)
    as [[_ Hc]|[(_ & _ & Hout & Hc)|(_ & _ & _ & Hc)]]; rewrite Hc in Hr.
  - discriminate Hr.
  - injection Hr as _ <-. exact Hout.
  - injection Hr as _ <-. simpl. intros Hin.
    apply elem_of_difference in Hin as [_ Hn]. apply Hn, elem_of_singleton.
    reflexivity.
Qed.

Lemma ensures_absent_close_dis_workfile (asset : Asset) :
  ensures (fun files => dis_workfile_path asset ∉ files)
    (_close_dis_workfile asset).
Proof.
  intros w b w' Hr.
  destruct (close_dis_workfile_cases asset w)
    as [[_ Hc]|[(_ & _ & Hout & Hc)|(_ & _ & _ & Hc)]]; rewrite Hc in Hr.
  - discriminate Hr.
  - injection Hr as _ <-. exact Hout.
  - injection Hr as _ <-. simpl. intros Hin.
    apply elem_of_difference in Hin as [_ Hn]. apply Hn, elem_of_singleton.
    reflexivity.
Qed.

Ltac shrinks_step :=
  lazymatch goal with
  | |- shrinks (bind _ _) => apply shrinks_bind; [|intros ?]
  | |- shrinks (ret _) => apply shrinks_ret
  | |- shrinks (raise _) => apply shrinks_raise
  | |- shrinks (emit _) => apply shrinks_emit
  | |- shrinks (_read_result _) => apply shrinks_read_result
  | |- shrinks (result_store_save _) => apply shrinks_result_store_save
  | |- shrinks (_remove_log _ _) => apply shrinks_remove_log
  | |- shrinks (_close_ref_workfile _) => apply shrinks_close_ref_workfile
  | |- shrinks (_close_dis_workfile _) => apply shrinks_close_dis_workfile
  | |- shrinks (try_except_OSError _ _) => apply shrinks_rmdir_handler
  | |- shrinks (if ?b then _ else _) => destruct b
  end.

(** X9. A cache miss that completes with [delete_workdir] leaves no log file
    and, for an asset that does not work on its sources, neither of the two
    workfiles. *)
Theorem completed_miss_cleans_up `{Collaborators} `{ExecutorKind}
    (self : Executor) (asset : Asset) (w w' : World) (result : Result) :
  delete_workdir self = true ->
  result_store self = false \/
  store w !! (asset_str asset, executor_id self) = None ->
  _run_on_asset self asset w = (Ok result, w') ->
  (_get_log_file_path self (_set_asset_use_path_as_workpath asset) ∉ fs w') /\
  (use_path_as_workpath (_set_asset_use_path_as_workpath asset) = false ->
   (ref_workfile_path (_set_asset_use_path_as_workpath asset) ∉ fs w') /\
   (dis_workfile_path (_set_asset_use_path_as_workpath asset) ∉ fs w')).
Proof.
  intros Hdelete Hmiss.
  destruct (cache_miss_load self asset w Hmiss) as (evs0 & Hload & _).
  unfold _run_on_asset. rewrite (bind_ok _ _ _ _ _ Hload).
  cbv zeta. rewrite Hdelete.
  set (asset' := _set_asset_use_path_as_workpath asset).
  intros Hrun. split; [|intros Hflag; split].
  - revert Hrun.
    match goal with
    | |- ?F ?w1 = _ -> ?p ∉ _ =>
        cut (ensures (fun files => p ∉ files) F);
        [intros Hens Hrun; exact (Hens _ _ _ Hrun)|]
    end.
    apply ensures_absent_bind_l; [|intros ?; apply shrinks_ret].
    do 11 (apply ensures_bind_r; intros ?).
    apply ensures_absent_bind_l; [|intros ?; apply shrinks_ret].
    apply ensures_absent_bind_l;
      [apply ensures_absent_remove_log|intros ?; apply shrinks_rmdir_handler].
  - revert Hrun. rewrite Hflag.
    match goal with
    | |- ?F ?w1 = _ -> ?p ∉ _ =>
        cut (ensures (fun files => p ∉ files) F);
        [intros Hens Hrun; exact (Hens _ _ _ Hrun)|]
    end.
    apply ensures_absent_bind_l; [|intros ?; apply shrinks_ret].
    do 7 (apply ensures_bind_r; intros ?).
    apply ensures_absent_bind_l; [|intros ?; repeat shrinks_step].
    apply ensures_absent_bind_l;
      [apply ensures_absent_close_ref_workfile
      |intros ?; apply shrinks_close_dis_workfile].
  - revert Hrun. rewrite Hflag.
    match goal with
    | |- ?F ?w1 = _ -> ?p ∉ _ =>
        cut (ensures (fun files => p ∉ files) F);
        [intros Hens Hrun; exact (Hens _ _ _ Hrun)|]
    end.
    apply ensures_absent_bind_l; [|intros ?; apply shrinks_ret].
    do 7 (apply ensures_bind_r; intros ?).
    apply ensures_absent_bind_l; [|intros ?; repeat shrinks_step].
    apply ensures_bind_r; intros ?.
    apply ensures_absent_close_dis_workfile.
Qed.

Lemma completed_miss_cleans_up_witness :
  exists result w',
    @_run_on_asset linux_prompt demo_kind
      (demo_executor [asset_rescaled] false true true false) asset_rescaled
      world_with_inputs = (Ok result, w') /\
    ("/work/b/ref_wf" ∉ fs w') /\ ("/work/b/dis_wf" ∉ fs w').
Proof.
  destruct (@_run_on_asset linux_prompt demo_kind
              (demo_executor [asset_rescaled] false true true false)
              asset_rescaled world_with_inputs) as [[result|e] w'] eqn:Hrun.
  - exists result, w'. split; [reflexivity|].
    apply (proj2 (@completed_miss_cleans_up linux_prompt demo_kind
                    (demo_executor [asset_rescaled] false true true false)
                    asset_rescaled world_with_inputs w' result
                    eq_refl (or_introl eq_refl) Hrun)).
    reflexivity.
  - vm_compute in Hrun. discriminate Hrun.
Defined.

(** ** The guards of the workfile openers *)

(** X10. [_open_ref_workfile] and [_open_dis_workfile] refuse, before any
    call, an asset that works on its sources or whose workfile path is its
    source path, so that the transcoding command is never pointed at a source;
    and in streamed mode they raise the error of [os.mkfifo] (errno 17, file
    exists), without calling ffmpeg, when the workfile path is taken. *)
Theorem open_workfile_guards `{Collaborators} (self : Executor) (asset : Asset)
    (fifo_mode : bool) (w : World) :
  (use_path_as_workpath asset = true \/
   ref_path asset = ref_workfile_path asset ->
   _open_ref_workfile self asset fifo_mode w = (Raise (AssertionError ""), w)) /\
  (use_path_as_workpath asset = true \/
   dis_path asset = dis_workfile_path asset ->
   _open_dis_workfile self asset fifo_mode w = (Raise (AssertionError ""), w)) /\
  (use_path_as_workpath asset = false ->
   ref_path asset <> ref_workfile_path asset ->
   ref_workfile_path asset ∈ fs w ->
   _open_ref_workfile self asset true w =
     (Raise (OSError 17),
      with_trace (trace w ++ [EvMkfifo (ref_workfile_path asset)]) w)) /\
  (use_path_as_workpath asset = false ->
   dis_path asset <> dis_workfile_path asset ->
   dis_workfile_path asset ∈ fs w ->
   _open_dis_workfile self asset true w =
     (Raise (OSError 17),
      with_trace (trace w ++ [EvMkfifo (dis_workfile_path asset)]) w)).
Proof.
  unfold _open_ref_workfile, _open_dis_workfile, bind, assert_, os_mkfifo.
  repeat split.
  - intros [Hflag|Heq].
    + rewrite (bool_decide_eq_false_2 (use_path_as_workpath asset = false))
        by congruence.
      reflexivity.
    + rewrite (bool_decide_eq_false_2 (ref_path asset <> ref_workfile_path asset))
        by (intros Hn; exact (Hn Heq)).
      rewrite andb_false_r. reflexivity.
  - intros [Hflag|Heq].
    + rewrite (bool_decide_eq_false_2 (use_path_as_workpath asset = false))
        by congruence.
      reflexivity.
    + rewrite (bool_decide_eq_false_2 (dis_path asset <> dis_workfile_path asset))
        by (intros Hn; exact (Hn Heq)).
      rewrite andb_false_r. reflexivity.
  - intros Hflag Hne Hin.
    rewrite (bool_decide_eq_true_2 _ Hflag), (bool_decide_eq_true_2 _ Hne).
    simpl. rewrite (bool_decide_eq_true_2 _ Hin). reflexivity.
  - intros Hflag Hne Hin.
    rewrite (bool_decide_eq_true_2 _ Hflag), (bool_decide_eq_true_2 _ Hne).
    simpl. rewrite (bool_decide_eq_true_2 _ Hin). reflexivity.
Qed.

Lemma open_workfile_guards_witness :
  @_open_ref_workfile linux_prompt
    (demo_executor [asset_rescaled] false true true false) asset_rescaled true
    (demo_world ["/work/b/ref_wf"] [])
  = (Raise (OSError 17),
     with_trace [EvMkfifo "/work/b/ref_wf"] (demo_world ["/work/b/ref_wf"] [])).
Proof.
  apply (proj1 (proj2 (proj2
           (@open_workfile_guards linux_prompt
              (demo_executor [asset_rescaled] false true true false)
              asset_rescaled true (demo_world ["/work/b/ref_wf"] []))))).
  - reflexivity.
  - vm_compute. discriminate.
  - apply (bool_decide_eq_true_1 _). vm_compute. reflexivity.
Defined.

(** ** The jobs after the construction over the whole input *)

(** X11. Once the constructor has accepted the whole list of assets, the
    constructor of each job of [run_executors_in_parallel], over one of these
    assets alone and without a logger, completes as well, in any world and
    whatever its other arguments: a job can only fail in its pipeline. *)
Theorem job_constructors_complete `{Collaborators} `{ExecutorKind}
    (l : list Asset) (logger fifo_mode delete_workdir result_store : bool)
    (optional_dict optional_dict2 : option (gmap string string))
    (executor : Executor) (w w' : World) :
  Executor_init l logger fifo_mode delete_workdir result_store optional_dict
    optional_dict2 w = (Ok executor, w') ->
  forall (asset : Asset) (fifo_mode' delete_workdir' result_store' : bool)
         (optional_dict' optional_dict2' : option (gmap string string))
         (w0 : World),
    asset ∈ l ->
    Executor_init [asset] false fifo_mode' delete_workdir' result_store'
      optional_dict' optional_dict2' w0
    = (Ok (job_executor asset fifo_mode' delete_workdir' result_store'
             optional_dict' optional_dict2'), w0).
Proof.
  intros Hinit asset f' d' s' od' od2' w0 Hin.
  assert (Hworld : w' = w).
  { destruct (executor_init_cases l logger fifo_mode delete_workdir
                result_store optional_dict optional_dict2 w)
      as [_ [[ex Hr]|[msg Hr]]]; congruence. }
  subst w'.
  pose proof (executor_init_ok _ _ _ _ _ _ _ _ _ _ Hinit) as Hex. subst executor.
  apply (executor_init_cases l) in Hinit as [Htv Hall].
  apply (executor_init_cases [asset]). split; [exact Htv|].
  constructor; [|constructor].
  rewrite Forall_forall in Hall. exact (Hall asset Hin).
Qed.

Lemma job_constructors_complete_witness :
  @Executor_init linux_prompt demo_kind [asset_rescaled] false false true true
    None None world_with_inputs
  = (Ok (job_executor asset_rescaled false true true None None),
     world_with_inputs).
Proof.
  apply (@job_constructors_complete linux_prompt demo_kind
           [asset_same_dims; asset_rescaled] false true true false None None
           (demo_executor [asset_same_dims; asset_rescaled] false true true false)
           (demo_world [] []) (demo_world [] [])).
  - vm_compute. reflexivity.
  - apply (bool_decide_eq_true_1 _). vm_compute. reflexivity.
Defined.

(** ** The executor id does not separate keys from values *)

Lemma executor_id_singleton `{ExecutorKind} (self : Executor) (k v : string) :
  optional_dict self = Some {[k := v]} ->
  executor_id self = get_type_version_string +:+ "_" +:+ k +:+ "_" +:+ v.
Proof.
  intros Hod. unfold executor_id. rewrite Hod.
  rewrite map_size_singleton.
  rewrite bool_decide_eq_true_2 by lia.
  rewrite dom_singleton_L, elements_singleton.
  cbn [sorted foldr insert_sorted map String.concat].
  rewrite lookup_singleton_eq. reflexivity.
Qed.

(** X12. Keys and values of [optional_dict] are joined with the same
    underscore: an option [k] with the value [v_x] and an option [k_v] with
    the value [x] give the same executor id, hence the same key in the result
    store and the same log file for every asset. *)
Theorem executor_id_key_value_collision `{Collaborators} `{ExecutorKind}
    (self1 self2 : Executor) (k v x : string) (asset : Asset) :
  optional_dict self1 = Some {[k := v +:+ "_" +:+ x]} ->
  optional_dict self2 = Some {[k +:+ "_" +:+ v := x]} ->
  executor_id self1 = executor_id self2 /\
  _get_log_file_path self1 asset = _get_log_file_path self2 asset.
Proof.
  intros H1 H2.
  assert (Hid : executor_id self1 = executor_id self2).
  { rewrite (executor_id_singleton self1 _ _ H1),
      (executor_id_singleton self2 _ _ H2).
    rewrite !string_append_assoc. reflexivity. }
  split; [exact Hid|]. unfold _get_log_file_path. rewrite Hid. reflexivity.
Qed.

Lemma executor_id_key_value_collision_witness :
  @executor_id demo_kind
    {| assets := []; logger := false; fifo_mode := true; delete_workdir := true;
       results := []; result_store := true;
       optional_dict := Some {["model" := "v1_fast"]}; optional_dict2 := None |}
  = @executor_id demo_kind
    {| assets := []; logger := false; fifo_mode := true; delete_workdir := true;
       results := []; result_store := true;
       optional_dict := Some {["model_v1" := "fast"]}; optional_dict2 := None |}.
Proof.
  apply (proj1 (@executor_id_key_value_collision linux_prompt demo_kind
                  {| assets := []; logger := false; fifo_mode := true;
                     delete_workdir := true; results := [];
                     result_store := true;
                     optional_dict := Some {["model" := "v1_fast"]};
                     optional_dict2 := None |}
                  {| assets := []; logger := false; fifo_mode := true;
                     delete_workdir := true; results := [];
                     result_store := true;
                     optional_dict := Some {["model_v1" := "fast"]};
                     optional_dict2 := None |}
                  "model" "v1" "fast" asset_same_dims eq_refl eq_refl)).
Defined.

(** Several options are rendered in the order of their keys. *)
Example executor_id_sorted_keys :
  @executor_id demo_kind
    {| assets := []; logger := false; fifo_mode := true; delete_workdir := true;
       results := []; result_store := true;
       optional_dict := Some (<["thread" := "2"]> {["model" := "a"]});
       optional_dict2 := Some {["cache" := "/tmp/x"]} |}
  = "Demo_V0.1_model_a_thread_2".
Proof. vm_compute. reflexivity. Qed.

(** ** A missing reference path *)

Lemma assert_paths_missing_ref_run (asset : Asset) (w : World) :
  ref_path asset ∉ fs w ->
  _assert_paths asset w =
    (Raise (AssertionError
              ("Reference path " +:+ ref_path asset +:+ " does not exist.")),
     with_trace (trace w ++ [EvPathExists (ref_path asset) false]) w).
Proof.
  intros Href. unfold _assert_paths, bind, os_path_exists.
  rewrite bool_decide_eq_false_2 by exact Href. reflexivity.
Qed.

(** X13. On a cache miss with a missing reference path, [_run_on_asset]
    raises the assertion error that names the path, having only looked into
    the cache, logged and tested the path: no file, no store entry and no lock
    has changed, and no hook was called. *)
Theorem missing_ref_path_fails_fast `{Collaborators} `{ExecutorKind}
    (self : Executor) (asset : Asset) (w : World) :
  result_store self = false \/
  store w !! (asset_str asset, executor_id self) = None ->
  ref_path asset ∉ fs w ->
  exists evs,
    _run_on_asset self asset w =
      (Raise (AssertionError
                ("Reference path " +:+ ref_path asset +:+ " does not exist.")),
       with_trace (trace w ++ evs) w) /\
    Forall (fun e => before_validation e = true) evs.
Proof.
  intros Hmiss Href.
  destruct (cache_miss_load self asset w Hmiss) as (evs0 & Hload & Hevs0).
  assert (Hevs0' : Forall (fun e => before_validation e = true) evs0).
  { eapply Forall_impl; [exact Hevs0|]. intros e (a & i & ->). reflexivity. }
  unfold _run_on_asset. rewrite (bind_ok _ _ _ _ _ Hload).
  cbv beta iota.
  destruct (logger self).
  - erewrite bind_raise; last first.
    { erewrite bind_ok; [|reflexivity].
      erewrite bind_raise; [reflexivity|].
      apply assert_paths_missing_ref_run. exact Href. }
    simpl. rewrite <- !app_assoc.
    eexists. split; [reflexivity|].
    apply Forall_app. split; [exact Hevs0'|]. repeat constructor.
  - erewrite bind_raise; last first.
    { erewrite bind_ok; [|reflexivity].
      erewrite bind_raise; [reflexivity|].
      apply assert_paths_missing_ref_run. exact Href. }
    simpl. rewrite <- !app_assoc.
    eexists. split; [reflexivity|].
    apply Forall_app. split; [exact Hevs0'|]. repeat constructor.
Qed.

Lemma missing_ref_path_fails_fast_witness :
  exists evs,
    @_run_on_asset linux_prompt demo_kind
      (demo_executor [asset_same_dims] false true true false) asset_same_dims
      (demo_world ["/in/a_dis.yuv"] [])
    = (Raise (AssertionError
                ("Reference path " +:+ ref_path asset_same_dims +:+
                 " does not exist.")),
       with_trace (trace (demo_world ["/in/a_dis.yuv"] []) ++ evs)
         (demo_world ["/in/a_dis.yuv"] [])) /\
    Forall (fun e => before_validation e = true) evs.
Proof.
  apply (@missing_ref_path_fails_fast linux_prompt demo_kind
           (demo_executor [asset_same_dims] false true true false)
           asset_same_dims (demo_world ["/in/a_dis.yuv"] [])).
  - left. reflexivity.
  - apply (bool_decide_eq_false_1 _). vm_compute. reflexivity.
Defined.

(** ** What is saved and what is returned *)








